(** * version-update-detector: a shallow embedding of VersionDetector.ts and
      UpdateNotification.ts, and the properties of the two classes.

    The embedding follows the TypeScript sources method by method.  Code that
    can throw is written in an exception monad over the component's state;
    [async] methods are written as resumptions that suspend at each [await]
    of an I/O promise, so that overlapping calls can be interleaved.  The
    browser is part of the state: [localStorage], the timers, the listeners
    and, for the prompt, the dialog, its overlay and the clock.  Registered
    callbacks and event handlers are the host's code: a call to one is
    recorded in a trace and either returns or throws.  Callbacks that call
    back into the detector while they are notified are in [Reentrant], and a
    [localStorage] that throws is in [Platform]. *)

From stdpp Require Import base option list gmap strings.
From Stdlib Require Import ZArith Lia.

Open Scope Z_scope.
Open Scope string_scope.
Open Scope list_scope.

(** ** The fragment of the JavaScript runtime the two classes rely on *)

Module Js.

(** A thrown value.  The code never inspects it, it only logs it. *)
Definition Error := string.

(** How a statement list (or a settled promise) completes. *)
Inductive Completion (A : Type) : Type :=
| Normal (a : A)
| Throw (e : Error).
Arguments Normal {A} a.
Arguments Throw {A} e.

(** Truthiness of a [string | null] value: [null] and the empty string
    are falsy. *)
Definition truthy (v : option string) : bool :=
  match v with
  | Some s => negb (bool_decide (s = ""))
  | None => false
  end.

(** [a !== b] on [string | null] values. *)
Definition strict_ne (a b : option string) : bool :=
  negb (bool_decide (a = b)).

(** *** Synchronous code: state passing with exceptions *)

Definition Sync (W A : Type) : Type := W → W * Completion A.

Definition sret {W A} (a : A) : Sync W A := λ w, (w, Normal a).

Definition sbind {W A B} (f : A → Sync W B) (m : Sync W A) : Sync W B :=
  λ w, match m w with
       | (w', Normal a) => f a w'
       | (w', Throw e) => (w', Throw e)
       end.

#[global] Instance Sync_ret W : MRet (Sync W) := @sret W.
#[global] Instance Sync_bind W : MBind (Sync W) := @sbind W.

Definition throw {W A} (e : Error) : Sync W A := λ w, (w, Throw e).
Definition gets {W A} (f : W → A) : Sync W A := λ w, (w, Normal (f w)).
Definition modify {W} (f : W → W) : Sync W unit := λ w, (f w, Normal tt).

(** [try { body } catch (error) { handler }] *)
Definition try_catch {W A} (body : Sync W A) (handler : Error → Sync W A)
  : Sync W A :=
  λ w, match body w with
       | (w', Normal a) => (w', Normal a)
       | (w', Throw e) => handler e w'
       end.

(** [if (c) { body }] *)
Definition when {W} (c : bool) (body : Sync W unit) : Sync W unit :=
  if c then body else sret tt.

(** [Array.prototype.forEach]: an exception leaving [f] ends the loop. *)
Fixpoint forEach {W T} (l : list T) (f : T → Sync W unit) : Sync W unit :=
  match l with
  | [] => sret tt
  | x :: l' => sbind (λ _, forEach l' f) (f x)
  end.

(** *** Promises the code awaits *)

Inductive Request : Type :=
| HeadIndexHtml   (* fetch(`/index.html?${Date.now()}`, {method:'HEAD', cache:'no-cache'}) *)
| HeadRoot.       (* fetch('/', {method:'HEAD', cache:'no-cache'}) *)

#[global] Instance Request_eq_dec : EqDecision Request.
Proof. solve_decision. Defined.

Record Response : Type := mkResponse {
  ok : bool;
  headers : gmap string string
}.

(** [response.headers.get(name)] *)
Definition headers_get (r : Response) (name : string) : option string :=
  headers r !! name.

Inductive Awaitable : Type → Type :=
| Fetch (req : Request) : Awaitable Response
| Delay (ms : Z) : Awaitable unit.   (* new Promise(r => setTimeout(r, ms)) *)

(** *** Asynchronous code: resumptions

    An [async] function runs until it awaits a pending promise; it then
    gives the state back to the event loop, and is resumed later with the
    promise's completion and with the state as it is by then. *)

Inductive Async (W A : Type) : Type :=
| Settled (w : W) (c : Completion A)
| Suspended (X : Type) (w : W) (a : Awaitable X)
            (k : Completion X → W → Async W A).
Arguments Settled {W A} w c.
Arguments Suspended {W A X} w a k.

Definition Task (W A : Type) : Type := W → Async W A.

Fixpoint abind {W A B} (f : A → Task W B) (p : Async W A) : Async W B :=
  match p with
  | Settled w (Normal a) => f a w
  | Settled w (Throw e) => Settled w (Throw e)
  | Suspended w a k => Suspended w a (λ r w', abind f (k r w'))
  end.

Definition tret {W A} (a : A) : Task W A := λ w, Settled w (Normal a).
Definition tbind {W A B} (f : A → Task W B) (m : Task W A) : Task W B :=
  λ w, abind f (m w).

#[global] Instance Task_ret W : MRet (Task W) := @tret W.
#[global] Instance Task_bind W : MBind (Task W) := @tbind W.

(** A synchronous call made from an [async] function. *)
Definition lift {W A} (m : Sync W A) : Task W A :=
  λ w, let (w', c) := m w in Settled w' c.

(** [await p] for a promise [p] that is already in flight. *)
Definition await {W X} (a : Awaitable X) : Task W X :=
  λ w, Suspended w a (λ r w', Settled w' r).

Fixpoint acatch {W A} (p : Async W A) (handler : Error → Task W A)
  : Async W A :=
  match p with
  | Settled w (Normal a) => Settled w (Normal a)
  | Settled w (Throw e) => handler e w
  | Suspended w a k => Suspended w a (λ r w', acatch (k r w') handler)
  end.

(** [try { body } catch (error) { handler }] in an [async] function *)
Definition try_catch_async {W A} (body : Task W A)
    (handler : Error → Task W A) : Task W A :=
  λ w, acatch (body w) handler.

Fixpoint afinally {W A} (p : Async W A) (fin : Sync W unit) : Async W A :=
  match p with
  | Settled w c =>
      match fin w with
      | (w', Normal _) => Settled w' c
      | (w', Throw e) => Settled w' (Throw e)
      end
  | Suspended w a k => Suspended w a (λ r w', afinally (k r w') fin)
  end.

(** [try { body } finally { fin }] in an [async] function *)
Definition try_finally_async {W A} (body : Task W A) (fin : Sync W unit)
  : Task W A :=
  λ w, afinally (body w) fin.

(** The environment's answer to each awaited promise. *)
Definition Oracle : Type := ∀ X, Awaitable X → Completion X.

(** Run to settlement with nothing else scheduled in between. *)
Fixpoint run {W A} (o : Oracle) (p : Async W A) : W * Completion A :=
  match p with
  | Settled w c => (w, c)
  | Suspended w a k => run o (k (o _ a) w)
  end.

(** Settlement under any schedule: each awaited promise completes either
    way, and other code may have changed the state before resumption. *)
Inductive settles {W A} : Async W A → W → Completion A → Prop :=
| settles_now w c : settles (Settled w c) w c
| settles_resume X w (a : Awaitable X) k r w' wf c :
    settles (k r w') wf c → settles (Suspended w a k) wf c.

(** [always P p]: however the awaited promises complete and whatever the
    state is at each resumption, [p] settles in a state and with a completion
    that satisfy [P]. *)
Fixpoint always {W A} (P : W → Completion A → Prop) (p : Async W A) : Prop :=
  match p with
  | Settled w c => P w c
  | Suspended w a k => ∀ r w', always P (k r w')
  end.

End Js.

(** ** VersionDetector.ts *)

Module Detector.
Import Js.

Inductive UpdateReason : Type :=
| version_change | redeploy | resource_error | network_error | unknown.

#[global] Instance UpdateReason_eq_dec : EqDecision UpdateReason.
Proof. solve_decision. Defined.

(** The element of a failed resource load, by its tag name. *)
Definition Element := string.

(** What a registered callback is called with. *)
Inductive Arg : Type :=
| ReasonArg (reason : UpdateReason)
| ElementArg (element : option Element).

(** A registered function: its identity (for [indexOf]) and whether a call
    returns ([None]) or throws.  Callbacks are the host's code; what they do
    to the host is outside the detector.  A function of this type does not
    call back into the detector while it runs; [Reentrant] has the functions
    that do, and agrees with this module on those that do not
    ([ReentrantFacts.notifyUpdate_inert],
    [ReentrantFacts.checkForUpdate_silent],
    [ReentrantFacts.handleResourceError_silent]). *)
Record Callback : Type := mkCallback {
  cb_id : nat;
  cb_call : Arg → option Error
}.

Record InternalOptions : Type := mkOptions {
  checkInterval : Z;
  skipInDevelopment : bool;
  enableResourceErrorDetection : bool
}.

(** The private fields of the class. *)
Record VersionDetector : Type := mkDetector {
  timer : option positive;
  isChecking : bool;
  onUpdateCallbacks : list Callback;
  onResourceErrorCallbacks : list Callback;
  isLocalDevelopment : bool;
  options : InternalOptions
}.

(** What the detector does to its surroundings, in program order. *)
Inductive Effect : Type :=
| FetchSent (req : Request)
| GetItem (key : string)
| SetItem (key value : string)
| Called (id : nat) (arg : Arg)
| SetTimeout (ms : Z)
| SetInterval (handle : positive) (ms : Z)
| ClearInterval (handle : positive).

Inductive Level : Type := log | warn | error.

(** The listeners the detector installs; it never removes one. *)
Inductive Listener : Type :=
| WindowError                         (* window 'error', capturing *)
| UnhandledRejection                  (* window 'unhandledrejection' *)
| VisibilityChange.                   (* document 'visibilitychange' *)

Record World : Type := mkWorld {
  this : VersionDetector;
  localStorage : gmap string string;
  intervals : gset positive;          (* running setInterval timers *)
  listeners : list Listener;
  trace : list Effect;
  console : list (Level * string)
}.

Definition set_this (f : VersionDetector → VersionDetector) (w : World) : World :=
  mkWorld (f (this w)) (localStorage w) (intervals w) (listeners w) (trace w)
    (console w).
Definition set_localStorage (f : gmap string string → gmap string string)
    (w : World) : World :=
  mkWorld (this w) (f (localStorage w)) (intervals w) (listeners w) (trace w)
    (console w).
Definition set_intervals (f : gset positive → gset positive) (w : World) : World :=
  mkWorld (this w) (localStorage w) (f (intervals w)) (listeners w) (trace w)
    (console w).
Definition set_listeners (f : list Listener → list Listener) (w : World) : World :=
  mkWorld (this w) (localStorage w) (intervals w) (f (listeners w)) (trace w)
    (console w).
Definition set_trace (f : list Effect → list Effect) (w : World) : World :=
  mkWorld (this w) (localStorage w) (intervals w) (listeners w) (f (trace w))
    (console w).
Definition set_console (f : list (Level * string) → list (Level * string))
    (w : World) : World :=
  mkWorld (this w) (localStorage w) (intervals w) (listeners w) (trace w)
    (f (console w)).

Definition set_timer (t : option positive) (d : VersionDetector) : VersionDetector :=
  mkDetector t (isChecking d) (onUpdateCallbacks d) (onResourceErrorCallbacks d)
    (isLocalDevelopment d) (options d).
Definition set_isChecking (b : bool) (d : VersionDetector) : VersionDetector :=
  mkDetector (timer d) b (onUpdateCallbacks d) (onResourceErrorCallbacks d)
    (isLocalDevelopment d) (options d).
Definition set_onUpdateCallbacks (l : list Callback) (d : VersionDetector)
  : VersionDetector :=
  mkDetector (timer d) (isChecking d) l (onResourceErrorCallbacks d)
    (isLocalDevelopment d) (options d).
Definition set_onResourceErrorCallbacks (l : list Callback) (d : VersionDetector)
  : VersionDetector :=
  mkDetector (timer d) (isChecking d) (onUpdateCallbacks d) l
    (isLocalDevelopment d) (options d).
Definition set_isLocalDevelopment (b : bool) (d : VersionDetector)
  : VersionDetector :=
  mkDetector (timer d) (isChecking d) (onUpdateCallbacks d)
    (onResourceErrorCallbacks d) b (options d).

(** *** Primitives *)

Definition emit (e : Effect) : Sync World unit :=
  modify (set_trace (λ t, t ++ [e])).

Definition console_ (l : Level) (msg : string) : Sync World unit :=
  modify (set_console (λ c, c ++ [(l, msg)])).

(** [callback(arg)] *)
Definition call (cb : Callback) (arg : Arg) : Sync World unit :=
  emit (Called (cb_id cb) arg);;
  match cb_call cb arg with
  | None => mret tt
  | Some e => throw e
  end.

Definition app_index_etag : string := "app_index_etag".
Definition app_index_last_modified : string := "app_index_last_modified".

(** [localStorage.getItem] and [localStorage.setItem] on a storage that
    works; [Platform] has the storage that throws. *)
Definition localStorage_getItem (key : string) : Sync World (option string) :=
  emit (GetItem key);;
  gets (λ w, localStorage w !! key).

Definition localStorage_setItem (key value : string) : Sync World unit :=
  emit (SetItem key value);;
  modify (set_localStorage (insert key value)).

(** [await fetch(...)]: the request leaves at once, the function suspends. *)
Definition fetch (req : Request) : Task World Response :=
  lift (emit (FetchSent req));;
  await (Fetch req).

(** [this.isLocalDevelopment && this.options.skipInDevelopment] *)
Definition skipped (w : World) : bool :=
  isLocalDevelopment (this w) && skipInDevelopment (options (this w)).

(** *** Methods *)

Definition notifyUpdate (reason : UpdateReason) : Sync World unit :=
  console_ log "检测到应用更新, 原因:";;
  callbacks ← gets (λ w, onUpdateCallbacks (this w));
  forEach callbacks (λ callback,
    try_catch (call callback (ReasonArg reason))
              (λ _, console_ error "Update callback error:")).

(** The argument is a function by its type, so the test
    [typeof callback === 'function'] holds. *)
Definition onUpdate (callback : Callback) : Sync World unit :=
  modify (set_this (λ d,
    set_onUpdateCallbacks (onUpdateCallbacks d ++ [callback]) d)).

Definition onResourceError (callback : Callback) : Sync World unit :=
  modify (set_this (λ d,
    set_onResourceErrorCallbacks (onResourceErrorCallbacks d ++ [callback]) d)).

(** [indexOf] and [splice(index, 1)]: drop the first entry that is the same
    function object. *)
Fixpoint remove_first (id : nat) (l : list Callback) : list Callback :=
  match l with
  | [] => []
  | cb :: l' => if bool_decide (cb_id cb = id) then l' else cb :: remove_first id l'
  end.

Definition removeCallback (callback : Callback) : Sync World unit :=
  modify (set_this (λ d,
    set_onUpdateCallbacks (remove_first (cb_id callback) (onUpdateCallbacks d)) d));;
  modify (set_this (λ d,
    set_onResourceErrorCallbacks
      (remove_first (cb_id callback) (onResourceErrorCallbacks d)) d)).

(** [clearInterval(handle)] *)
Definition clearInterval (handle : positive) : Sync World unit :=
  emit (ClearInterval handle);;
  modify (set_intervals (λ s, s ∖ {[handle]})).

Definition stopVersionCheck : Sync World unit :=
  t ← gets (λ w, timer (this w));
  match t with
  | Some handle =>
      clearInterval handle;;
      modify (set_this (set_timer None))
  | None => mret tt
  end.

(** The two timer callbacks call [checkForUpdate]; [this.checkInterval] is
    the [checkInterval] option, copied by the constructor. *)
Definition startVersionCheck : Sync World unit :=
  skip ← gets skipped;
  if (skip : bool) then console_ log "本地开发环境，跳过版本检查启动"
  else
    t ← gets (λ w, timer (this w));
    match t with
    | Some handle => clearInterval handle
    | None => mret tt
    end;;
    emit (SetTimeout 10000);;
    ms ← gets (λ w, checkInterval (options (this w)));
    handle ← gets (λ w, fresh (intervals w));
    emit (SetInterval handle ms);;
    modify (set_intervals (λ s, s ∪ {[handle]}));;
    modify (set_this (set_timer (Some handle))).

Definition destroy : Sync World unit :=
  stopVersionCheck;;
  modify (set_this (set_onUpdateCallbacks []));;
  modify (set_this (set_onResourceErrorCallbacks [])).

(** [if (value) { body(value) }] for a [string | null] value *)
Definition if_truthy (value : option string) (body : string → Sync World unit)
  : Sync World unit :=
  match value with
  | Some s => when (truthy value) (body s)
  | None => mret tt
  end.

(** [!storedEtag && !storedLastModified] *)
Definition nothingStored (storedEtag storedLastModified : option string) : bool :=
  negb (truthy storedEtag) && negb (truthy storedLastModified).

(** [(etag && etag !== storedEtag) ||
     (lastModified && lastModified !== storedLastModified)] *)
Definition hasUpdate (etag lastModified storedEtag storedLastModified : option string)
  : bool :=
  (truthy etag && strict_ne etag storedEtag)
  || (truthy lastModified && strict_ne lastModified storedLastModified).

(** A [return] inside a [try] block is written as [Some value]; [None] is
    control falling out of the block to the statement after it. *)
Definition checkVersionByIndex : Task World bool :=
  returned ← try_catch_async
    (response ← fetch HeadIndexHtml;
     if ok response then
       let etag := headers_get response "etag" in
       let lastModified := headers_get response "last-modified" in
       storedEtag ← lift (localStorage_getItem app_index_etag);
       storedLastModified ← lift (localStorage_getItem app_index_last_modified);
       if nothingStored storedEtag storedLastModified then
         lift (console_ warn "未找到存储的版本信息，记录当前版本";;
               if_truthy etag (localStorage_setItem app_index_etag);;
               if_truthy lastModified (localStorage_setItem app_index_last_modified));;
         mret (Some false)
       else
         if hasUpdate etag lastModified storedEtag storedLastModified then
           lift (console_ log "检测到版本更新:";;
                 if_truthy etag (localStorage_setItem app_index_etag);;
                 if_truthy lastModified (localStorage_setItem app_index_last_modified);;
                 notifyUpdate redeploy);;
           mret (Some true)
         else mret None
     else mret None)
    (λ _, lift (console_ warn "无法检查index.html:");; mret None);
  mret (default false returned).

Definition checkForUpdate : Task World bool :=
  skip ← lift (gets skipped);
  if (skip : bool) then mret false
  else
    checking ← lift (gets (λ w, isChecking (this w)));
    if (checking : bool) then mret false
    else
      lift (modify (set_this (set_isChecking true)));;
      returned ← try_finally_async
        (try_catch_async
           (hasIndexUpdate ← checkVersionByIndex;
            if (hasIndexUpdate : bool) then mret (Some true) else mret None)
           (λ _,
            lift (console_ warn "版本检查失败:");;
            try_catch_async
              (fetch HeadRoot;; mret None)
              (λ _, lift (notifyUpdate network_error);; mret (Some true))))
        (modify (set_this (set_isChecking false)));
      mret (default false returned).

Definition recordInitialVersion : Task World unit :=
  storedEtag ← lift (localStorage_getItem app_index_etag);
  storedLastModified ← lift (localStorage_getItem app_index_last_modified);
  if truthy storedEtag || truthy storedLastModified then
    lift (console_ log "已有版本记录，跳过初始化记录")
  else
    try_catch_async
      (response ← fetch HeadIndexHtml;
       if ok response then
         let etag := headers_get response "etag" in
         let lastModified := headers_get response "last-modified" in
         lift (if_truthy etag (λ s,
                 localStorage_setItem app_index_etag s;;
                 console_ log "初始化记录 ETag:");;
               if_truthy lastModified (λ s,
                 localStorage_setItem app_index_last_modified s;;
                 console_ log "初始化记录 Last-Modified:"))
       else mret tt)
      (λ _, lift (console_ warn "记录初始版本信息失败:")).

Definition handleResourceError (element : option Element) : Task World unit :=
  skip ← lift (gets skipped);
  if (skip : bool) then lift (console_ log "本地开发环境，忽略资源加载错误")
  else
    await (Delay 1000);;
    hasUpdate ← checkForUpdate;
    if (hasUpdate : bool) then
      lift (callbacks ← gets (λ w, onResourceErrorCallbacks (this w));
            forEach callbacks (λ callback,
              try_catch (call callback (ElementArg element))
                        (λ _, console_ error "Resource error callback error:")))
    else mret tt.

(** The default of [options.isDevelopment]. *)
Definition detectLocalEnvironment (hostname : string) (NODE_ENV : option string)
  : bool :=
  let isLocalhost :=
    bool_decide (hostname = "localhost")
    || bool_decide (hostname = "127.0.0.1")
    || bool_decide (hostname = "0.0.0.0") in
  let isNodeEnvDev := bool_decide (NODE_ENV = Some "development") in
  isLocalhost || isNodeEnvDev.

Definition listenVisibilityChange : Sync World unit :=
  modify (set_listeners (λ l, l ++ [VisibilityChange])).

Definition listenResourceErrors : Sync World unit :=
  modify (set_listeners (λ l, l ++ [WindowError]));;
  modify (set_listeners (λ l, l ++ [UnhandledRejection])).

(** The 'visibilitychange' listener; the promise of [checkForUpdate] is
    dropped. *)
Definition onVisibilityChange (hidden : bool) : Task World unit :=
  if hidden then mret tt
  else lift (console_ log "页面变为可见，检查版本更新");; checkForUpdate;; mret tt.

(** A call of an [async] method whose promise is not awaited: the method
    runs up to its first [await]; what is left of it stays with the event
    loop. *)
Definition spawn {A} (t : Task World A) (w : World)
  : World * list (Async World A) :=
  match t w with
  | Settled w' _ => (w', [])
  | Suspended w' a k => (w', [Suspended w' a k])
  end.

Definition init (w : World) : World * list (Async World unit) :=
  if skipped w then ((console_ log "检测到本地开发环境，跳过版本检测" w).1, [])
  else
    let w1 :=
      ((when (enableResourceErrorDetection (options (this w))) listenResourceErrors;;
        listenVisibilityChange) w).1 in
    let (w2, floating) := spawn recordInitialVersion w1 in
    ((startVersionCheck w2).1, floating).

(** [new VersionDetector(options)], with the value [options.isDevelopment()]
    returns, on a page with the given storage. *)
Definition construct (opts : InternalOptions) (isDevelopment : bool)
    (storage : gmap string string) : World * list (Async World unit) :=
  init (mkWorld (mkDetector None false [] [] isDevelopment opts)
          storage ∅ [] [] []).

Definition setDevelopmentMode (isDev : bool) (w : World)
  : World * list (Async World unit) :=
  let w1 := set_this (set_isLocalDevelopment isDev) w in
  if isDev then
    (((console_ log "手动设置为开发模式，停止版本检测";; stopVersionCheck) w1).1, [])
  else
    init (console_ log "手动设置为生产模式，重新启动版本检测" w1).1.

Definition isDevelopment : Sync World bool :=
  gets (λ w, isLocalDevelopment (this w)).

(** The state [if (value) localStorage.setItem(key, value)] leaves. *)
Definition persisted (key : string) (value : option string) (w : World) : World :=
  match value with
  | Some s =>
      if truthy value then
        set_localStorage (insert key s) (set_trace (λ t, t ++ [SetItem key s]) w)
      else w
  | None => w
  end.

(** The same, as the store it leaves and the writes it makes. *)
Definition stored (key : string) (value : option string)
    (st : gmap string string) : gmap string string :=
  match value with
  | Some s => if truthy value then <[key:=s]> st else st
  | None => st
  end.

Definition writes (key : string) (value : option string) : list Effect :=
  match value with
  | Some s => if truthy value then [SetItem key s] else []
  | None => []
  end.

(** What the comparison looks for in one field: the header is there, with a
    value, and the value is not the persisted one. *)
Definition differs (header persisted : option string) : Prop :=
  ∃ v, header = Some v ∧ v ≠ "" ∧ persisted ≠ Some v.

(** Reading a trace: the callback invocations and the requests in it. *)
Definition notifications (t : list Effect) : list (nat * Arg) :=
  omap (λ e, match e with Called id arg => Some (id, arg) | _ => None end) t.

Definition requests (t : list Effect) : list Request :=
  omap (λ e, match e with FetchSent req => Some req | _ => None end) t.

(** One guarded call, [try { callback(arg) } catch (error) { console.error(..) }]:
    the state it leaves. *)
Definition guarded (cb : Callback) (arg : Arg) (msg : string) (w : World) : World :=
  let w1 := set_trace (λ t, t ++ [Called (cb_id cb) arg]) w in
  match cb_call cb arg with
  | None => w1
  | Some _ => set_console (λ c, c ++ [(error, msg)]) w1
  end.

End Detector.

(** ** UpdateNotification.ts *)

Module Notification.
Import Js.
Export Detector(UpdateReason, version_change, redeploy, resource_error,
                network_error, unknown).

Record ButtonText : Type := mkButtonText {
  later : string;
  refresh : string;
  refreshingText : string         (* buttonText.refreshing *)
}.

(** The options without the purely presentational ones ([showClose],
    [center], [customStyles]).  No method reads [title], [description] or
    [forceUpdate]: what is rendered comes from the arguments of [show]. *)
Record Options : Type := mkOptions {
  title : string;
  description : string;
  closeOnClickModal : bool;
  closeOnPressEscape : bool;
  forceUpdate : bool;
  customClass : string;
  width : string;
  buttonText : ButtonText;
  laterInterval : Z
}.

(** A host handler: a call returns ([None]) or throws. *)
Record Handler : Type := mkHandler { throws : option Error }.

Record Events : Type := mkEvents {
  onRefresh : option Handler;
  onLater : option Handler;
  onClose : option Handler
}.

(** The style properties the class assigns. *)
Record Style : Type := mkStyle {
  display : string;
  opacity : string;
  transform : string;
  transition : string
}.

Record Button : Type := mkButton {
  textContent : string;
  disabled : bool
}.

(** What [updateContent] renders into [container.innerHTML]. *)
Record Content : Type := mkContent {
  icon : string;
  heading : string;
  paragraph : string;
  errorDetails : option string;
  laterBtn : option Button;
  refreshBtn : Button
}.

(** The overlay element, parent of the dialog. *)
Record Overlay : Type := mkOverlay {
  overlayDisplay : string
}.

(** The dialog element, [this.container]. *)
Record Dialog : Type := mkDialog {
  style : Style;
  innerHTML : option Content;
  parentElement : option Overlay
}.

(** The private fields of the class. *)
Record UpdateNotification : Type := mkNotification {
  container : option Dialog;
  options : Options;
  events : Events;
  isVisible : bool;
  refreshing : bool;
  laterTimestamp : Z
}.

Inductive Effect : Type :=
| OnRefresh | OnLater | OnClose    (* a host handler is called *)
| Reload.                          (* window.location.reload() *)

(** Callbacks handed to [setTimeout] and [requestAnimationFrame]. *)
Inductive TimerTask : Type :=
| HideElements                     (* hide(): after 300 ms *)
| ForceReload.                     (* handleRefresh(): after 5000 ms *)

Inductive FrameTask : Type :=
| FadeInStart
| FadeInEnd.

Inductive Listener : Type :=
| EscapeKey                        (* document 'keydown' *)
| OverlayClick.                    (* overlay 'click' *)

#[global] Instance Listener_eq_dec : EqDecision Listener.
Proof. solve_decision. Defined.

Record World : Type := mkWorld {
  this : UpdateNotification;
  overlayInBody : bool;            (* the overlay is a child of document.body *)
  now : Z;                         (* Date.now() *)
  timeouts : list (Z * TimerTask); (* pending, with the time each is due *)
  frames : list FrameTask;
  listeners : list Listener;
  trace : list Effect
}.

Definition set_this (f : UpdateNotification → UpdateNotification) (w : World)
  : World :=
  mkWorld (f (this w)) (overlayInBody w) (now w) (timeouts w) (frames w)
    (listeners w) (trace w).
Definition set_overlayInBody (b : bool) (w : World) : World :=
  mkWorld (this w) b (now w) (timeouts w) (frames w) (listeners w) (trace w).
Definition set_now (t : Z) (w : World) : World :=
  mkWorld (this w) (overlayInBody w) t (timeouts w) (frames w) (listeners w)
    (trace w).
Definition set_timeouts (f : list (Z * TimerTask) → list (Z * TimerTask))
    (w : World) : World :=
  mkWorld (this w) (overlayInBody w) (now w) (f (timeouts w)) (frames w)
    (listeners w) (trace w).
Definition set_frames (f : list FrameTask → list FrameTask) (w : World) : World :=
  mkWorld (this w) (overlayInBody w) (now w) (timeouts w) (f (frames w))
    (listeners w) (trace w).
Definition set_listeners (f : list Listener → list Listener) (w : World) : World :=
  mkWorld (this w) (overlayInBody w) (now w) (timeouts w) (frames w)
    (f (listeners w)) (trace w).
Definition set_trace (f : list Effect → list Effect) (w : World) : World :=
  mkWorld (this w) (overlayInBody w) (now w) (timeouts w) (frames w)
    (listeners w) (f (trace w)).

Definition set_container (c : option Dialog) (n : UpdateNotification)
  : UpdateNotification :=
  mkNotification c (options n) (events n) (isVisible n) (refreshing n)
    (laterTimestamp n).
Definition set_isVisible (b : bool) (n : UpdateNotification) : UpdateNotification :=
  mkNotification (container n) (options n) (events n) b (refreshing n)
    (laterTimestamp n).
Definition set_refreshing (b : bool) (n : UpdateNotification) : UpdateNotification :=
  mkNotification (container n) (options n) (events n) (isVisible n) b
    (laterTimestamp n).
Definition set_laterTimestamp (t : Z) (n : UpdateNotification)
  : UpdateNotification :=
  mkNotification (container n) (options n) (events n) (isVisible n)
    (refreshing n) t.

Definition set_style (f : Style → Style) (d : Dialog) : Dialog :=
  mkDialog (f (style d)) (innerHTML d) (parentElement d).
Definition set_innerHTML (c : Content) (d : Dialog) : Dialog :=
  mkDialog (style d) (Some c) (parentElement d).
Definition set_parentElement (o : option Overlay) (d : Dialog) : Dialog :=
  mkDialog (style d) (innerHTML d) o.

Definition set_display (v : string) (s : Style) : Style :=
  mkStyle v (opacity s) (transform s) (transition s).
Definition set_opacity (v : string) (s : Style) : Style :=
  mkStyle (display s) v (transform s) (transition s).
Definition set_transform (v : string) (s : Style) : Style :=
  mkStyle (display s) (opacity s) v (transition s).
Definition set_transition (v : string) (s : Style) : Style :=
  mkStyle (display s) (opacity s) (transform s) v.

(** *** Primitives *)

Definition emit (e : Effect) : Sync World unit :=
  modify (set_trace (λ t, t ++ [e])).

(** [handler?.()] *)
Definition invoke (handler : option Handler) (e : Effect) : Sync World unit :=
  match handler with
  | None => mret tt
  | Some h =>
      emit e;;
      match throws h with
      | None => mret tt
      | Some err => throw err
      end
  end.

(** [setTimeout(task, ms)] *)
Definition setTimeout (task : TimerTask) (ms : Z) : Sync World unit :=
  t ← gets now;
  modify (set_timeouts (λ q, q ++ [(t + ms, task)])).

(** [requestAnimationFrame(task)] *)
Definition requestAnimationFrame (task : FrameTask) : Sync World unit :=
  modify (set_frames (λ q, q ++ [task])).

(** [document.body.removeChild(overlay)]: a node that is not a child of the
    body makes the call throw. *)
Definition removeChild : Sync World unit :=
  attached ← gets overlayInBody;
  if (attached : bool) then modify (set_overlayInBody false)
  else throw "NotFoundError".

(** An assignment through [this.container], when it is not null. *)
Definition with_container (f : Dialog → Dialog) : Sync World unit :=
  modify (set_this (λ n, set_container (f <$> container n) n)).

(** *** Methods *)

Definition getContentByReason (reason : UpdateReason) (forceUpdate : bool)
  : string * string * string :=          (* title, description, icon *)
  match reason with
  | version_change =>
      ("发现新版本", "为了获得更好的使用体验，请刷新页面更新到最新版本。", "↻")
  | resource_error => ("应用已更新", "请刷新页面以获得最新内容。", "⚠")
  | network_error => ("网络连接异常", "网络连接异常，建议刷新页面重试。", "⚠")
  | _ => ("应用已更新", "请刷新页面以获得最新内容。", "↻")
  end.

(** The text of the warning banner, when there is one. *)
Definition getErrorDetails (reason : UpdateReason) : option string :=
  match reason with
  | resource_error => Some "检测到部分资源加载失败，可能影响正常使用"
  | network_error => Some "网络连接异常，建议刷新页面重试"
  | _ => None
  end.

(** [bindButtonEvents] attaches [handleLater] and [handleRefresh] to the
    buttons that were rendered; see [clickLater] and [clickRefresh]. *)
Definition updateContent (reason : UpdateReason) (forceUpdate : bool)
  : Sync World unit :=
  n ← gets this;
  match container n with
  | None => mret tt
  | Some _ =>
      let '(title, description, icon) := getContentByReason reason forceUpdate in
      let isForceUpdate := forceUpdate || bool_decide (reason = resource_error) in
      let labels := buttonText (options n) in
      with_container (set_innerHTML
        {| icon := icon;
           heading := title;
           paragraph := description;
           errorDetails := getErrorDetails reason;
           laterBtn := if negb isForceUpdate
                       then Some (mkButton (later labels) false) else None;
           refreshBtn := mkButton (if refreshing n then refreshingText labels
                                   else refresh labels) false |})
  end.

Definition show (reason : UpdateReason) (forceUpdate : bool) : Sync World unit :=
  t ← gets now;
  n ← gets this;
  if bool_decide (reason ≠ resource_error)
     && bool_decide (laterTimestamp n ≠ 0)
     && bool_decide (t - laterTimestamp n < laterInterval (options n))
  then mret tt
  else
    match container n with
    | None => mret tt
    | Some _ =>
        modify (set_this (set_isVisible true));;
        modify (set_this (set_refreshing false));;
        updateContent reason forceUpdate;;
        with_container (λ d,
          match parentElement d with
          | Some _ =>
              set_style (set_display "block")
                (set_parentElement (Some (mkOverlay "block")) d)
          | None => d
          end);;
        requestAnimationFrame FadeInStart
    end.

Definition hide : Sync World unit :=
  n ← gets this;
  match container n with
  | None => mret tt
  | Some _ =>
      modify (set_this (set_isVisible false));;
      modify (set_this (set_refreshing false));;
      with_container (set_style (λ s,
        set_transform "translate(-50%, -50%) scale(0.8)"
          (set_opacity "0" (set_transition "all 0.3s ease" s))));;
      setTimeout HideElements 300;;
      invoke (onClose (events n)) OnClose
  end.

Definition handleRefresh : Sync World unit :=
  modify (set_this (set_refreshing true));;
  n ← gets this;
  invoke (onRefresh (events n)) OnRefresh;;
  let label := refreshingText (buttonText (options n)) in
  with_container (λ d,
    match innerHTML d with
    | Some c =>
        set_innerHTML
          (mkContent (icon c) (heading c) (paragraph c) (errorDetails c)
             (laterBtn c)
             (mkButton (if bool_decide (label = "") then "正在刷新..." else label)
                       true)) d
    | None => d
    end);;
  setTimeout ForceReload 5000.

Definition handleLater : Sync World unit :=
  t ← gets now;
  modify (set_this (set_laterTimestamp t));;
  hide;;
  n ← gets this;
  invoke (onLater (events n)) OnLater.

Definition destroy : Sync World unit :=
  n ← gets this;
  match container n with
  | Some dialog =>
      match parentElement dialog with
      | Some _ => removeChild
      | None => mret tt
      end;;
      modify (set_this (set_container None))
  | None => mret tt
  end.

Definition isNotificationVisible : Sync World bool :=
  gets (λ w, isVisible (this w)).

(** *** Construction *)

Definition createContainer : Sync World unit :=
  modify (set_this (set_container (Some
    {| style := mkStyle "none" "" "translate(-50%, -50%)" "";
       innerHTML := None;
       parentElement := Some (mkOverlay "none") |})));;
  modify (set_overlayInBody true).

Definition bindEvents : Sync World unit :=
  n ← gets this;
  match container n with
  | None => mret tt
  | Some dialog =>
      when (closeOnPressEscape (options n))
        (modify (set_listeners (λ l, l ++ [EscapeKey])));;
      when (closeOnClickModal (options n))
        (match parentElement dialog with
         | Some _ => modify (set_listeners (λ l, l ++ [OverlayClick]))
         | None => mret tt
         end)
  end.

Definition init : Sync World unit := createContainer;; bindEvents.

Definition defaultOptions : Options :=
  {| title := "应用更新提醒";
     description := "请刷新页面以获得最新内容。";
     closeOnClickModal := false;
     closeOnPressEscape := false;
     forceUpdate := false;
     customClass := "update-notification-dialog";
     width := "480px";
     buttonText := mkButtonText "稍后提醒" "立即刷新" "正在刷新...";
     laterInterval := 10 * 60 * 1000 |}.

(** [new UpdateNotification(options, events)] at time [t0], in a document
    that holds nothing of the component yet. *)
Definition construct (opts : Options) (evs : Events) (t0 : Z) : World :=
  (init (mkWorld (mkNotification None opts evs false false 0)
           false t0 [] [] [] [])).1.

(** *** The callbacks the class hands to the browser *)

Definition runTimer (task : TimerTask) : Sync World unit :=
  match task with
  | HideElements =>
      with_container (λ d,
        set_style (set_display "none")
          (set_parentElement ((λ _, mkOverlay "none") <$> parentElement d) d))
  | ForceReload =>
      r ← gets (λ w, refreshing (this w));
      if (r : bool) then emit Reload else mret tt
  end.

Definition runFrame (task : FrameTask) : Sync World unit :=
  n ← gets this;
  match container n with
  | None => mret tt
  | Some _ =>
      match task with
      | FadeInStart =>
          with_container (set_style (λ s,
            set_transform "translate(-50%, -50%) scale(0.8)" (set_opacity "0" s)));;
          requestAnimationFrame FadeInEnd
      | FadeInEnd =>
          with_container (set_style (λ s,
            set_transform "translate(-50%, -50%) scale(1)"
              (set_opacity "1" (set_transition "all 0.3s ease" s))))
      end
  end.

(** The 'keydown' listener of [bindEvents], for the Escape key. *)
Definition onEscape : Sync World unit :=
  v ← gets (λ w, isVisible (this w));
  if (v : bool) then hide else mret tt.

(** What the host and the user can do to the component.  An exception that
    leaves a listener or a timer callback ends that callback only.  A click
    reaches a handler only through a button that is rendered; [FireTimer]
    runs the oldest pending timeout if it is due and puts it back otherwise;
    [FireFrame] runs the oldest animation-frame callback. *)
Inductive Action : Type :=
| CallShow (reason : UpdateReason) (forceUpdate : bool)
| CallHide
| CallDestroy
| ClickLater
| ClickRefresh
| PressEscape
| ClickOverlay
| Elapse (ms : Z)
| FireTimer
| FireFrame.

Definition rendered (w : World) : option Content :=
  container (this w) ≫= innerHTML.

Definition react (a : Action) : Sync World unit :=
  match a with
  | CallShow reason forceUpdate => show reason forceUpdate
  | CallHide => hide
  | CallDestroy => destroy
  | ClickLater =>
      c ← gets rendered;
      match c ≫= laterBtn with
      | Some _ => handleLater
      | None => mret tt
      end
  | ClickRefresh =>
      c ← gets rendered;
      match c with
      | Some c => if disabled (refreshBtn c) then mret tt else handleRefresh
      | None => mret tt
      end
  | PressEscape =>
      l ← gets listeners;
      if bool_decide (EscapeKey ∈ l) then onEscape else mret tt
  | ClickOverlay =>
      l ← gets listeners;
      if bool_decide (OverlayClick ∈ l) then hide else mret tt
  | Elapse ms => modify (λ w, set_now (now w + Z.max 0 ms) w)
  | FireTimer =>
      q ← gets timeouts;
      t ← gets now;
      match q with
      | (due, task) :: q' =>
          if bool_decide (due ≤ t)%Z
          then modify (set_timeouts (λ _, q'));; runTimer task
          else modify (set_timeouts (λ _, q' ++ [(due, task)]))
      | [] => mret tt
      end
  | FireFrame =>
      q ← gets frames;
      match q with
      | task :: q' => modify (set_frames (λ _, q'));; runFrame task
      | [] => mret tt
      end
  end.

Definition perform (w : World) (a : Action) : World := (react a w).1.

(** The component after a history of actions. *)
Definition after (w : World) (history : list Action) : World :=
  foldl perform w history.

(** The overlay is where [createContainer] put it for as long as the
    instance holds its dialog. *)
Definition attached (w : World) : Prop :=
  match container (this w) with
  | Some dialog =>
      match parentElement dialog with
      | Some _ => overlayInBody w = true
      | None => True
      end
  | None => True
  end.

(** Where the document and the instance stand: is the overlay in the body,
    does the instance hold its dialog. *)
Definition footing (w : World) : bool * bool :=
  (overlayInBody w, if container (this w) is Some _ then true else false).

(** The instance holds its dialog only while the overlay is in the body. *)
Definition held (w : World) : Prop :=
  is_Some (container (this w)) → overlayInBody w = true.

End Notification.

(** ** Concrete detectors, responses and networks *)

Module DetectorScenarios.
Import Js Detector.

Definition listener (id : nat) : Callback := mkCallback id (λ _, None).
Definition faulty (id : nat) : Callback :=
  mkCallback id (λ _, Some "callback failed").

Definition defaults : InternalOptions := mkOptions (30 * 60 * 1000) true true.

(** A detector on a production host, and the same on localhost. *)
Definition production (callbacks : list Callback) : VersionDetector :=
  mkDetector None false callbacks [] false defaults.
Definition development (callbacks : list Callback) : VersionDetector :=
  mkDetector None false callbacks [] true defaults.

Definition page (d : VersionDetector) (storage : gmap string string) : World :=
  mkWorld d storage ∅ [] [] [].

Definition fingerprint (etag lastModified : option string) : gmap string string :=
  from_option (λ s, {[ "etag" := s ]}) ∅ etag
  ∪ from_option (λ s, {[ "last-modified" := s ]}) ∅ lastModified.

Definition persistedFingerprint (etag lastModified : option string)
  : gmap string string :=
  from_option (λ s, {[ app_index_etag := s ]}) ∅ etag
  ∪ from_option (λ s, {[ app_index_last_modified := s ]}) ∅ lastModified.

(** A network that answers the entry-document request with [index] and the
    connectivity probe with [root]. *)
Definition network (index root : Completion Response) : Oracle :=
  λ X a,
    match a in Awaitable X return Completion X with
    | Fetch HeadIndexHtml => index
    | Fetch HeadRoot => root
    | Delay _ => Normal tt
    end.

Definition offline : Oracle :=
  network (Throw "TypeError: Failed to fetch") (Throw "TypeError: Failed to fetch").

Definition serving (etag lastModified : option string) : Oracle :=
  network (Normal (mkResponse true (fingerprint etag lastModified)))
          (Normal (mkResponse true ∅)).

(** Two update callbacks, the first of which throws; the fingerprint
    [a]/[t1] was stored on an earlier visit. *)
Definition returning_visitor : World :=
  page (production [faulty 1; listener 2])
       (persistedFingerprint (Some "a") (Some "t1")).

Definition first_visitor : World :=
  page (production [listener 1]) ∅.

Definition developer : World :=
  page (development [listener 1]) (persistedFingerprint (Some "a") (Some "t1")).

(** A check is in flight. *)
Definition busy : World :=
  page (set_isChecking true (production [listener 1]))
       (persistedFingerprint (Some "a") (Some "t1")).

(** The recurring timer is running. *)
Definition polling : World := (startVersionCheck returning_visitor).1.

End DetectorScenarios.

(** ** Concrete prompts *)

Module NotificationScenarios.
Import Js Notification.

(** A one-second later-interval, and handlers for "later" and "close". *)
Definition quick : Options :=
  mkOptions "应用更新提醒" "请刷新页面以获得最新内容。" false true false
    "update-notification-dialog" "480px"
    (mkButtonText "稍后提醒" "立即刷新" "正在刷新...") 1000.

Definition handlers : Events :=
  mkEvents None (Some (mkHandler None)) (Some (mkHandler None)).

(** Constructed at time 5000 and shown once. *)
Definition shown : World :=
  perform (construct quick handlers 5000) (CallShow redeploy false).

(** Shown, dismissed with "later" at time 5000, looked at again at 5500. *)
Definition dismissed : World :=
  after (construct quick handlers 5000)
    [CallShow version_change false; ClickLater; Elapse 500].

End NotificationScenarios.

(** ** The detector over its lifetime *)

Module DetectorHistory.
Import Js Detector.

#[global] Instance DetectorListener_eq_dec : EqDecision Listener.
Proof. solve_decision. Defined.

(** The state a promise was left in: at its settlement, or at the [await]
    it is suspended at. *)
Definition state_of {W A} (p : Async W A) : W :=
  match p with
  | Settled w _ => w
  | Suspended w _ _ => w
  end.

(** The detector together with the promises that are pending: those of
    [recordInitialVersion], [checkForUpdate] and [handleResourceError] that
    are suspended at an [await]. *)
Definition System : Type := World * list (Async World unit).

(** What the host and the browser can do to a detector.  The recurring timer
    and the first-check timeout call [checkForUpdate] like the host does;
    a listener runs only if it is installed; [Complete i o] lets the awaited
    promise of the [i]-th pending call complete, as [o] says, and the call
    run on to its next [await] or to its end.  Registered callbacks are the
    host's code and do not call back into the detector. *)
Inductive Operation : Type :=
| CallOnUpdate (callback : Callback)
| CallOnResourceError (callback : Callback)
| CallRemoveCallback (callback : Callback)
| CallCheckForUpdate
| CallStopVersionCheck
| CallDestroy
| CallSetDevelopmentMode (isDev : bool)
| FireResourceError (element : option Element)
| ChangeVisibility (hidden : bool)
| Complete (i : nat) (o : Oracle).

(** A call that may have left a promise pending joins the others. *)
Definition pending (floating : list (Async World unit))
    (started : World * list (Async World unit)) : System :=
  (started.1, floating ++ started.2).

Definition operate (s : System) (op : Operation) : System :=
  let (w, floating) := s in
  match op with
  | CallOnUpdate callback => ((onUpdate callback w).1, floating)
  | CallOnResourceError callback => ((onResourceError callback w).1, floating)
  | CallRemoveCallback callback => ((removeCallback callback w).1, floating)
  | CallCheckForUpdate => pending floating (spawn (checkForUpdate;; mret tt) w)
  | CallStopVersionCheck => ((stopVersionCheck w).1, floating)
  | CallDestroy => ((destroy w).1, floating)
  | CallSetDevelopmentMode isDev => pending floating (setDevelopmentMode isDev w)
  | FireResourceError element =>
      if bool_decide (WindowError ∈ listeners w)
      then pending floating (spawn (handleResourceError element) w)
      else s
  | ChangeVisibility hidden =>
      if bool_decide (VisibilityChange ∈ listeners w)
      then pending floating (spawn (onVisibilityChange hidden) w)
      else s
  | Complete i o =>
      match floating !! i with
      | Some (Suspended _ a k) =>
          pending (delete i floating) (spawn (k (o _ a)) w)
      | _ => s
      end
  end.

(** The only interval running is the one in the [timer] field. *)
Definition tidy (w : World) : Prop :=
  intervals w = from_option singleton ∅ (timer (this w)).

(** [w'] has the [timer] field and the running intervals of [w]. *)
Definition same_timers (w w' : World) : Prop :=
  timer (this w') = timer (this w) ∧ intervals w' = intervals w.

(** However the promises [p] awaits complete and whatever the state is when
    it is resumed, no resumption of [p] changes the [timer] field or the
    running intervals. *)
Fixpoint benign {A} (p : Async World A) : Prop :=
  match p with
  | Settled _ _ => True
  | Suspended _ _ k => ∀ r w, same_timers w (state_of (k r w)) ∧ benign (k r w)
  end.

(** [p], started or resumed in [w], has kept the timers so far and will
    keep them. *)
Definition keeps_timers {A} (w : World) (p : Async World A) : Prop :=
  same_timers w (state_of p) ∧ benign p.

(** An [async] method, and a synchronous one, that leave the timers alone. *)
Definition steady {A} (t : Task World A) : Prop := ∀ w, keeps_timers w (t w).

Definition calm {A} (m : Sync World A) : Prop := ∀ w, same_timers w (m w).1.

(** What every history preserves. *)
Definition orderly (s : System) : Prop := tidy s.1 ∧ Forall benign s.2.

(** The listeners [init] adds. *)
Definition installed (w : World) : list Listener :=
  (if enableResourceErrorDetection (options (this w))
   then [WindowError; UnhandledRejection] else [])
  ++ [VisibilityChange].

End DetectorHistory.

(** ** Reading the prompt *)

Module NotificationViews.
Import Js Notification.

(** [show(reason, ...)] is not held back by the later-window. *)
Definition unsuppressed (reason : UpdateReason) (w : World) : Prop :=
  reason = resource_error
  ∨ laterTimestamp (this w) = 0
  ∨ (laterInterval (options (this w)) ≤ now w - laterTimestamp (this w))%Z.

(** The handler calls a successful [handler?.()] adds to the trace. *)
Definition called (handler : option Handler) (e : Effect) : list Effect :=
  if handler is Some _ then [e] else [].

(** What [handler?.()] completes with. *)
Definition outcome (handler : option Handler) : Completion unit :=
  if handler ≫= throws is Some e then Throw e else Normal tt.

(** What no action changes: the listeners, the options and the handlers. *)
Definition setup (w : World) : list Listener * Options * Events :=
  (listeners w, options (this w), events (this w)).

(** The options with [title], [description] and [forceUpdate] blanked. *)
Definition plain (o : Options) : Options :=
  {| title := "";
     description := "";
     closeOnClickModal := closeOnClickModal o;
     closeOnPressEscape := closeOnPressEscape o;
     forceUpdate := false;
     customClass := customClass o;
     width := width o;
     buttonText := buttonText o;
     laterInterval := laterInterval o |}.

(** The component and the document, but for those three options. *)
Definition unlabelled (w : World) : World :=
  set_this (λ n,
    {| container := container n;
       options := plain (options n);
       events := events n;
       isVisible := isVisible n;
       refreshing := refreshing n;
       laterTimestamp := laterTimestamp n |}) w.

End NotificationViews.

(** ** The factory of index.ts *)

Module Factory.
Import Js.

(** The two callbacks the factory registers, as the detector sees them:
    [(reason) => notification.show(reason)] and
    [() => notification.show('resource-error', true)].  [show] calls no
    handler, so both return. *)
Definition showOnUpdate : Detector.Callback :=
  Detector.mkCallback 0 (λ _, None).

Definition showOnResourceError : Detector.Callback :=
  Detector.mkCallback 1 (λ _, None).

(** The same two callbacks, as the prompt sees a call of one of them. *)
Definition reaction (c : nat * Detector.Arg) : Sync Notification.World unit :=
  match c with
  | (0%nat, Detector.ReasonArg reason) => Notification.show reason false
  | (1%nat, _) => Notification.show Detector.resource_error true
  | _ => mret tt
  end.

(** The prompt after the calls the detector made, in the order it made
    them. *)
Definition deliver (calls : list (nat * Detector.Arg)) (n : Notification.World)
  : Notification.World :=
  foldl (λ n c, (reaction c n).1) n calls.

(** The calls made between two states of the detector. *)
Definition newCalls (w wf : Detector.World) : list (nat * Detector.Arg) :=
  drop (length (Detector.notifications (Detector.trace w)))
       (Detector.notifications (Detector.trace wf)).

Record Pair : Type := mkPair {
  detector : Detector.World;
  floating : list (Async Detector.World unit);
  notification : Notification.World
}.

Definition createVersionUpdateDetector
    (detectorOptions : Detector.InternalOptions) (isDevelopment : bool)
    (storage : gmap string string)
    (notificationOptions : Notification.Options)
    (notificationEvents : Notification.Events) (t0 : Z) : Pair :=
  let (d, fl) := Detector.construct detectorOptions isDevelopment storage in
  let n := Notification.construct notificationOptions notificationEvents t0 in
  let d1 := (Detector.onUpdate showOnUpdate d).1 in
  let d2 := (Detector.onResourceError showOnResourceError d1).1 in
  mkPair d2 fl n.

(** The [destroy] of the returned object. *)
Definition destroy (p : Pair) : Pair * Completion unit :=
  match Detector.destroy (detector p) with
  | (d, Normal _) =>
      let (n, c) := Notification.destroy (notification p) in
      (mkPair d (floating p) n, c)
  | (d, Throw e) => (mkPair d (floating p) (notification p), Throw e)
  end.

End Factory.

(** ** More concrete detectors, prompts and pairs *)

Module DetectorCases.
Import Js Detector DetectorScenarios.

(** One function registered twice, another in between. *)
Definition twice_registered : World :=
  page (production [listener 1; listener 2; listener 1]) ∅.

(** A server that answers the entry-document request with an error status. *)
Definition unavailable : Oracle :=
  network (Normal (mkResponse false ∅)) (Normal (mkResponse true ∅)).

(** The returning visitor's page with a resource-error callback. *)
Definition watched : World := (onResourceError (listener 3) returning_visitor).1.

End DetectorCases.

Module NotificationCases.
Import Js Notification NotificationScenarios.

(** Dismissed with "later" at 5000, looked at again when the second is over. *)
Definition reminded : World := perform dismissed (Elapse 500).

(** A refresh handler that throws. *)
Definition failing_refresh : Events :=
  mkEvents (Some (mkHandler (Some "refresh failed"))) None None.

Definition unlucky : World :=
  perform (construct quick failing_refresh 5000) (CallShow redeploy false).

Definition destroyed : World := perform shown CallDestroy.

(** [quick] with another title and description, and [forceUpdate] set. *)
Definition retitled : Options :=
  mkOptions "New release" "Reload now." false true true
    "update-notification-dialog" "480px"
    (mkButtonText "稍后提醒" "立即刷新" "正在刷新...") 1000.

End NotificationCases.

Module FactoryCases.
Import Js Factory.

(** A returning visitor's page: [a]/[t1] was stored on an earlier visit. *)
Definition revisit : Pair :=
  createVersionUpdateDetector DetectorScenarios.defaults false
    (DetectorScenarios.persistedFingerprint (Some "a") (Some "t1"))
    NotificationScenarios.quick NotificationScenarios.handlers 5000.

End FactoryCases.

(** ** Callbacks that call back into the detector *)

Module Reentrant.
Import Js Detector.

(** What a registered function may do to the detector while it runs: call
    its public methods ([isDevelopment] only reads; [reload] leaves the
    page). *)
Inductive Reentry : Type :=
| CallsOnUpdate (callback : Callback)
| CallsOnResourceError (callback : Callback)
| CallsRemoveCallback (callback : Callback)
| CallsCheckForUpdate
| CallsStopVersionCheck
| CallsDestroy
| CallsSetDevelopmentMode (isDev : bool).

(** The host's code: the calls the function with identity [id] makes when it
    is called with [arg] in the state [w], before it returns or throws as
    its [cb_call] says.  The state has the trace, so what a function does
    may depend on the calls made so far. *)
Definition Host : Type := World → nat → Arg → list Reentry.

(** Functions that only return or throw. *)
Definition inert : Host := λ _ _ _, [].

(** The two registries. *)
Inductive Registry : Type := UpdateCallbacks | ResourceErrorCallbacks.

Definition registry (which : Registry) (w : World) : list Callback :=
  match which with
  | UpdateCallbacks => onUpdateCallbacks (this w)
  | ResourceErrorCallbacks => onResourceErrorCallbacks (this w)
  end.

(** A walk of [registry.forEach(...)]: the state, and the array being walked
    if it is no longer the one in the field.  [push] and [splice] change the
    array in the field in place, so the walk sees them for as long as it
    walks that array; [destroy] puts a new array in the field and leaves the
    old one, which the walk goes on with, as it is. *)
Definition Walk : Type := World * option (list Callback).

(** The array being walked, as it is now. *)
Definition walked (which : Registry) (s : Walk) : list Callback :=
  default (registry which s.1) s.2.

(** A method of the detector, called during the walk. *)
Definition within {A} (m : Sync World A) : Sync Walk A :=
  λ s, let (w', c) := m s.1 in ((w', s.2), c).

(** A call of an [async] method from synchronous code: the method runs up
    to its first [await] and returns its promise, which is still pending
    when the walk ends. *)
Definition started {A} (t : Task World A) : Sync World unit :=
  modify (λ w, (spawn t w).1).

(** One call into the detector.  None of the methods throws; the promises
    [checkForUpdate] and [setDevelopmentMode(false)] leave pending are
    resumed after the walk ([checkForUpdate] notifies nobody before its
    first [await]). *)
Definition reenter (which : Registry) (r : Reentry) : Sync Walk unit :=
  match r with
  | CallsOnUpdate callback => within (onUpdate callback)
  | CallsOnResourceError callback => within (onResourceError callback)
  | CallsRemoveCallback callback => within (removeCallback callback)
  | CallsCheckForUpdate => within (started Detector.checkForUpdate)
  | CallsStopVersionCheck => within stopVersionCheck
  | CallsDestroy =>
      modify (λ s, (s.1, Some (walked which s)));;
      within destroy
  | CallsSetDevelopmentMode isDev =>
      within (modify (λ w, (setDevelopmentMode isDev w).1))
  end.

(** [callback(arg)] *)
Definition call (host : Host) (which : Registry) (cb : Callback) (arg : Arg)
  : Sync Walk unit :=
  within (emit (Called (cb_id cb) arg));;
  calls ← gets (λ s, host s.1 (cb_id cb) arg);
  Js.forEach calls (reenter which);;
  match cb_call cb arg with
  | None => mret tt
  | Some e => throw e
  end.

(** [array.forEach(f)] from index [k], with [count] indices to go: the length
    was read once, before the first call; an index is visited if the array,
    as it is by then, has an element there. *)
Fixpoint visit (host : Host) (which : Registry) (arg : Arg) (msg : string)
    (count k : nat) : Sync Walk unit :=
  match count with
  | O => mret tt
  | S count' =>
      array ← gets (walked which);
      match array !! k with
      | Some callback =>
          try_catch (call host which callback arg)
                    (λ _, within (console_ error msg))
      | None => mret tt
      end;;
      visit host which arg msg count' (S k)
  end.

(** [registry.forEach((callback) => { try { callback(arg) }
    catch (error) { console.error(msg, error) } })] *)
Definition forEachLive (host : Host) (which : Registry) (arg : Arg)
    (msg : string) : Sync World unit :=
  λ w, let (s, c) := visit host which arg msg
                       (length (registry which w)) 0 (w, None) in
       (s.1, c).

(** The methods of the detector that notify, with the host's functions as
    they are. *)
Definition notifyUpdate (host : Host) (reason : UpdateReason) : Sync World unit :=
  console_ log "检测到应用更新, 原因:";;
  forEachLive host UpdateCallbacks (ReasonArg reason) "Update callback error:".

Definition checkVersionByIndex (host : Host) : Task World bool :=
  returned ← try_catch_async
    (response ← fetch HeadIndexHtml;
     if ok response then
       let etag := headers_get response "etag" in
       let lastModified := headers_get response "last-modified" in
       storedEtag ← lift (localStorage_getItem app_index_etag);
       storedLastModified ← lift (localStorage_getItem app_index_last_modified);
       if nothingStored storedEtag storedLastModified then
         lift (console_ warn "未找到存储的版本信息，记录当前版本";;
               if_truthy etag (localStorage_setItem app_index_etag);;
               if_truthy lastModified (localStorage_setItem app_index_last_modified));;
         mret (Some false)
       else
         if hasUpdate etag lastModified storedEtag storedLastModified then
           lift (console_ log "检测到版本更新:";;
                 if_truthy etag (localStorage_setItem app_index_etag);;
                 if_truthy lastModified (localStorage_setItem app_index_last_modified);;
                 notifyUpdate host redeploy);;
           mret (Some true)
         else mret None
     else mret None)
    (λ _, lift (console_ warn "无法检查index.html:");; mret None);
  mret (default false returned).

Definition checkForUpdate (host : Host) : Task World bool :=
  skip ← lift (gets skipped);
  if (skip : bool) then mret false
  else
    checking ← lift (gets (λ w, isChecking (this w)));
    if (checking : bool) then mret false
    else
      lift (modify (set_this (set_isChecking true)));;
      returned ← try_finally_async
        (try_catch_async
           (hasIndexUpdate ← checkVersionByIndex host;
            if (hasIndexUpdate : bool) then mret (Some true) else mret None)
           (λ _,
            lift (console_ warn "版本检查失败:");;
            try_catch_async
              (fetch HeadRoot;; mret None)
              (λ _, lift (notifyUpdate host network_error);; mret (Some true))))
        (modify (set_this (set_isChecking false)));
      mret (default false returned).

Definition handleResourceError (host : Host) (element : option Element)
  : Task World unit :=
  skip ← lift (gets skipped);
  if (skip : bool) then lift (console_ log "本地开发环境，忽略资源加载错误")
  else
    await (Delay 1000);;
    hasUpdate ← checkForUpdate host;
    if (hasUpdate : bool) then
      lift (forEachLive host ResourceErrorCallbacks (ElementArg element)
              "Resource error callback error:")
    else mret tt.

(** One guarded call, [try { callback(arg) } catch (error) { console.error(..) }]:
    the state it leaves. *)
Definition after_call (host : Host) (which : Registry) (cb : Callback)
    (arg : Arg) (msg : string) (s : Walk) : Walk :=
  (try_catch (call host which cb arg) (λ _, within (console_ error msg)) s).1.

(** Is the call a [removeCallback]? *)
Definition removes (r : Reentry) : bool :=
  match r with
  | CallsRemoveCallback _ => true
  | _ => false
  end.

(** No function calls [removeCallback] while it is being notified. *)
Definition keeps_entries (host : Host) : Prop :=
  ∀ w id arg, Forall (λ r, removes r = false) (host w id arg).

(** Does the call change the registry of resource-error callbacks? *)
Definition edits (r : Reentry) : bool :=
  match r with
  | CallsRemoveCallback _ | CallsOnResourceError _ | CallsDestroy => true
  | _ => false
  end.

(** No function calls [removeCallback], [onResourceError] or [destroy]
    while it is being notified. *)
Definition keeps_registry (host : Host) : Prop :=
  ∀ w id arg, Forall (λ r, edits r = false) (host w id arg).

(** The functions call nothing: they only return or throw. *)
Definition silent (host : Host) : Prop := ∀ w id arg, host w id arg = [].

End Reentrant.

Module ReentrantCases.
Import Js Detector DetectorScenarios Reentrant.

(** The first function unregisters itself when it is notified. *)
Definition one_shot : Host :=
  λ _ id _,
    if bool_decide (id = 1%nat) then [CallsRemoveCallback (listener 1)] else [].

(** Three functions, none of which throws. *)
Definition subscribers : World :=
  page (production [listener 1; listener 2; listener 3]) ∅.

(** The second function tears the detector down, registers another
    function, starts a check and switches the development mode. *)
Definition unruly : Host :=
  λ _ id _,
    if bool_decide (id = 2%nat)
    then [CallsDestroy; CallsOnUpdate (listener 4); CallsCheckForUpdate;
          CallsSetDevelopmentMode false; CallsStopVersionCheck]
    else [].


(** The second function tears the detector down. *)
Definition closing : Host :=
  λ _ id _, if bool_decide (id = 2%nat) then [CallsDestroy] else [].

End ReentrantCases.

(** ** A storage that throws *)

Module Platform.
Import Js Detector.

(** [localStorage] as a browser may give it: a read or a write returns, or
    throws (storage blocked for the page, quota exceeded). *)
Record Storage : Type := mkStorage {
  getItem : string → Sync World (option string);
  setItem : string → string → Sync World unit
}.

(** Storage that works. *)
Definition available : Storage :=
  mkStorage localStorage_getItem localStorage_setItem.

(** Storage the page may not use: every access throws. *)
Definition blocked : Storage :=
  mkStorage (λ _, throw "SecurityError") (λ _ _, throw "SecurityError").

(** Storage that can be read but is full. *)
Definition full : Storage :=
  mkStorage localStorage_getItem (λ _ _, throw "QuotaExceededError").

Definition recordInitialVersion (storage : Storage) : Task World unit :=
  storedEtag ← lift (getItem storage app_index_etag);
  storedLastModified ← lift (getItem storage app_index_last_modified);
  if truthy storedEtag || truthy storedLastModified then
    lift (console_ log "已有版本记录，跳过初始化记录")
  else
    try_catch_async
      (response ← fetch HeadIndexHtml;
       if ok response then
         let etag := headers_get response "etag" in
         let lastModified := headers_get response "last-modified" in
         lift (if_truthy etag (λ s,
                 setItem storage app_index_etag s;;
                 console_ log "初始化记录 ETag:");;
               if_truthy lastModified (λ s,
                 setItem storage app_index_last_modified s;;
                 console_ log "初始化记录 Last-Modified:"))
       else mret tt)
      (λ _, lift (console_ warn "记录初始版本信息失败:")).

End Platform.

Import Js.

(** Unfold the monad operations down to state passing. *)
Ltac unmonad :=
  unfold mbind, mret, Task_bind, Task_ret, Sync_bind, Sync_ret,
    tbind, tret, sbind, sret, lift, gets, modify, throw, when in *.

(** ** Resumptions: what holds of every settlement *)

Module JsFacts.
Import Js.

Lemma always_settles {W A} (P : W → Completion A → Prop) (p : Async W A) wf c :
  always P p → settles p wf c → P wf c.
Proof.
  intros Hp Hs. induction Hs as [w c|X w a k r w' wf c Hs IH]; simpl in Hp.
  - exact Hp.
  - apply IH, Hp.
Qed.

Lemma always_run {W A} (P : W → Completion A → Prop) (p : Async W A) (o : Oracle) :
  always P p → P (run o p).1 (run o p).2.
Proof.
  induction p as [w c|X w a k IH]; simpl; intros Hp.
  - exact Hp.
  - apply IH, Hp.
Qed.

Lemma run_settles {W A} (p : Async W A) (o : Oracle) :
  settles p (run o p).1 (run o p).2.
Proof.
  induction p as [w c|X w a k IH]; simpl.
  - constructor.
  - econstructor. apply IH.
Qed.

Lemma always_mono {W A} (P Q : W → Completion A → Prop) (p : Async W A) :
  (∀ w c, P w c → Q w c) → always P p → always Q p.
Proof.
  intros HPQ. induction p as [w c|X w a k IH]; simpl; intros Hp.
  - by apply HPQ.
  - intros r w'. apply IH, Hp.
Qed.

Lemma always_abind {W A B} (P : W → Completion B → Prop)
    (f : A → Task W B) (p : Async W A) :
  always (λ w c, match c with
                 | Normal a => always P (f a w)
                 | Throw e => P w (Throw e)
                 end) p →
  always P (abind f p).
Proof.
  induction p as [w c|X w a k IH]; simpl; intros Hp.
  - destruct c; exact Hp.
  - intros r w'. apply IH, Hp.
Qed.

Lemma always_acatch {W A} (P : W → Completion A → Prop)
    (p : Async W A) (handler : Error → Task W A) :
  always (λ w c, match c with
                 | Normal a => P w (Normal a)
                 | Throw e => always P (handler e w)
                 end) p →
  always P (acatch p handler).
Proof.
  induction p as [w c|X w a k IH]; simpl; intros Hp.
  - destruct c; exact Hp.
  - intros r w'. apply IH, Hp.
Qed.

Lemma always_all {W A} (P : W → Completion A → Prop) (p : Async W A) :
  (∀ w c, P w c) → always P p.
Proof.
  intros HP. induction p as [w c|X w a k IH]; simpl; [apply HP|].
  intros r w'. apply IH.
Qed.

(** A [finally] block runs on every way out of the [try] statement. *)
Lemma always_afinally {W A} (P Q : W → Completion A → Prop)
    (p : Async W A) (fin : Sync W unit) :
  always Q p →
  (∀ w c, Q w c →
     match fin w with
     | (w', Normal _) => P w' c
     | (w', Throw e) => P w' (Throw e)
     end) →
  always P (afinally p fin).
Proof.
  intros Hp Hfin. induction p as [w c|X w a k IH]; simpl in *.
  - specialize (Hfin w c Hp). destruct (fin w) as [w' [[]|e]]; exact Hfin.
  - intros r w'. apply IH, Hp.
Qed.

End JsFacts.

(** ** Properties of the detector *)

Module DetectorFacts.
Import Js JsFacts Detector DetectorScenarios.

Lemma guarded_call (cb : Callback) (arg : Arg) (msg : string) (w : World) :
  try_catch (call cb arg) (λ _, console_ error msg) w
  = (guarded cb arg msg w, Normal tt).
Proof.
  unfold try_catch, call, emit, console_, guarded. unmonad.
  destruct (cb_call cb arg); reflexivity.
Qed.

(** The loop of [notifyUpdate] and of [handleResourceError]: every entry is
    called, whatever the earlier ones did, and the loop itself returns. *)
Lemma callbacks_loop (arg : Arg) (msg : string) (l : list Callback) (w : World) :
  ∃ w', forEach l (λ callback,
          try_catch (call callback arg) (λ _, console_ error msg)) w
        = (w', Normal tt)
    ∧ trace w' = trace w ++ map (λ cb, Called (cb_id cb) arg) l
    ∧ this w' = this w
    ∧ localStorage w' = localStorage w
    ∧ intervals w' = intervals w.
Proof.
  revert w. induction l as [|cb l IH]; intros w.
  - exists w. simpl. rewrite app_nil_r. done.
  - simpl. unfold sbind at 1. rewrite guarded_call.
    destruct (IH (guarded cb arg msg w)) as (w' & -> & Ht & Hd & Hs & Hi).
    exists w'. split; [done|].
    rewrite Ht, Hd, Hs, Hi. unfold guarded.
    destruct (cb_call cb arg); simpl; rewrite <- app_assoc; done.
Qed.

Lemma notifyUpdate_spec (reason : UpdateReason) (w : World) :
  ∃ w', notifyUpdate reason w = (w', Normal tt)
    ∧ trace w' = trace w
        ++ map (λ cb, Called (cb_id cb) (ReasonArg reason))
               (onUpdateCallbacks (this w))
    ∧ this w' = this w
    ∧ localStorage w' = localStorage w
    ∧ intervals w' = intervals w.
Proof.
  unfold notifyUpdate. unmonad. unfold console_ at 1. unmonad.
  match goal with |- context [forEach ?l ?f ?w1] =>
    destruct (callbacks_loop (ReasonArg reason) "Update callback error:" l w1)
      as (w' & -> & Ht & Hd & Hs & Hi) end.
  exists w'. simpl in *. done.
Qed.

(** *** Symbolic runs of [checkForUpdate] *)

Lemma persist_step key v w :
  if_truthy v (localStorage_setItem key) w = (persisted key v w, Normal tt).
Proof.
  unfold if_truthy, persisted, localStorage_setItem, emit. unmonad.
  destruct v as [s|]; [|done]. destruct (truthy (Some s)); done.
Qed.

Lemma persisted_fields key v w :
  this (persisted key v w) = this w
  ∧ intervals (persisted key v w) = intervals w
  ∧ localStorage (persisted key v w) = stored key v (localStorage w)
  ∧ trace (persisted key v w) = trace w ++ writes key v.
Proof.
  unfold persisted, stored, writes.
  destruct v as [s|]; [destruct (truthy (Some s))|]; simpl;
    rewrite ?app_nil_r; done.
Qed.

Lemma flag_restored w :
  isChecking (this w) = false →
  set_isChecking false (set_isChecking true (this w)) = this w.
Proof. destruct w as [[] ? ? ? ? ?]; simpl; intros ->; reflexivity. Qed.

Ltac step_checkForUpdate Hs Hc :=
  unfold checkForUpdate, checkVersionByIndex, fetch, try_finally_async,
    try_catch_async, localStorage_getItem, emit, await;
  unmonad; rewrite Hs; simpl; rewrite Hc; simpl.

(** A call that passes both gates, run against a network [o]. *)
Section PassingTheGates.
Context (w : World) (o : Oracle).
Hypothesis Hs : skipped w = false.
Hypothesis Hc : isChecking (this w) = false.

(** The fetch resolves with [response.ok]: the comparison decides. *)
Lemma checkForUpdate_resolved resp :
  o _ (Fetch HeadIndexHtml) = Normal resp → ok resp = true →
  let etag := headers_get resp "etag" in
  let lastModified := headers_get resp "last-modified" in
  let storedEtag := localStorage w !! app_index_etag in
  let storedLastModified := localStorage w !! app_index_last_modified in
  let first := nothingStored storedEtag storedLastModified in
  let changed := hasUpdate etag lastModified storedEtag storedLastModified in
  ∃ wf, run o (checkForUpdate w) = (wf, Normal (negb first && changed))
    ∧ this wf = this w
    ∧ intervals wf = intervals w
    ∧ localStorage wf =
        (if first || changed
         then stored app_index_last_modified lastModified
                (stored app_index_etag etag (localStorage w))
         else localStorage w)
    ∧ trace wf = trace w
        ++ [FetchSent HeadIndexHtml; GetItem app_index_etag;
            GetItem app_index_last_modified]
        ++ (if first || changed
            then writes app_index_etag etag
                 ++ writes app_index_last_modified lastModified
            else [])
        ++ (if negb first && changed
            then map (λ cb, Called (cb_id cb) (ReasonArg redeploy))
                     (onUpdateCallbacks (this w))
            else []).
Proof.
  intros Ho Hok etag lastModified storedEtag storedLastModified first changed.
  step_checkForUpdate Hs Hc. rewrite Ho. simpl. rewrite Hok. simpl.
  fold etag lastModified storedEtag storedLastModified. fold first changed.
  destruct first; simpl.
  - rewrite !persist_step. simpl.
    match goal with |- context [persisted ?k2 ?v2 (persisted ?k1 ?v1 ?w1)] =>
      destruct (persisted_fields k1 v1 w1) as (Hd1 & Hi1 & Hl1 & Ht1);
      destruct (persisted_fields k2 v2 (persisted k1 v1 w1)) as (Hd2 & Hi2 & Hl2 & Ht2)
    end.
    eexists. split; [reflexivity|]. simpl.
    rewrite Hd2, Hd1, Hi2, Hi1, Hl2, Hl1, Ht2, Ht1. simpl.
    rewrite flag_restored by done.
    rewrite app_nil_r, <- !app_assoc. done.
  - destruct changed; simpl.
    + rewrite !persist_step. simpl.
      match goal with |- context [notifyUpdate ?r ?w2] =>
        destruct (notifyUpdate_spec r w2) as (w3 & -> & Ht3 & Hd3 & Hl3 & Hi3) end.
      match type of Ht3 with context [persisted ?k2 ?v2 (persisted ?k1 ?v1 ?w1)] =>
        destruct (persisted_fields k1 v1 w1) as (Hd1 & Hi1 & Hl1 & Ht1);
        destruct (persisted_fields k2 v2 (persisted k1 v1 w1)) as (Hd2 & Hi2 & Hl2 & Ht2)
      end.
      simpl. eexists. split; [reflexivity|]. simpl.
      rewrite Hd3, Hi3, Hl3, Ht3, Hd2, Hd1, Hi2, Hi1, Hl2, Hl1, Ht2, Ht1. simpl.
      rewrite flag_restored by done.
      rewrite <- !app_assoc. done.
    + eexists. split; [reflexivity|]. simpl.
      rewrite flag_restored by done. rewrite <- !app_assoc. done.
Qed.

(** The fetch resolves with a status outside 200-299: nothing is compared. *)
Lemma checkForUpdate_not_ok resp :
  o _ (Fetch HeadIndexHtml) = Normal resp → ok resp = false →
  ∃ wf, run o (checkForUpdate w) = (wf, Normal false)
    ∧ this wf = this w
    ∧ intervals wf = intervals w
    ∧ localStorage wf = localStorage w
    ∧ trace wf = trace w ++ [FetchSent HeadIndexHtml].
Proof.
  intros Ho Hok.
  step_checkForUpdate Hs Hc. rewrite Ho. simpl. rewrite Hok. simpl.
  eexists. split; [reflexivity|]. simpl. rewrite flag_restored; done.
Qed.

(** The fetch rejects: [checkVersionByIndex] catches the error itself, so
    the [catch] block of [checkForUpdate] is never entered. *)
Lemma checkForUpdate_rejected e :
  o _ (Fetch HeadIndexHtml) = Throw e →
  ∃ wf, run o (checkForUpdate w) = (wf, Normal false)
    ∧ this wf = this w
    ∧ intervals wf = intervals w
    ∧ localStorage wf = localStorage w
    ∧ trace wf = trace w ++ [FetchSent HeadIndexHtml].
Proof.
  intros Ho.
  step_checkForUpdate Hs Hc. rewrite Ho. simpl.
  eexists. split; [reflexivity|]. simpl. rewrite flag_restored; done.
Qed.

End PassingTheGates.

Lemma notifications_app t1 t2 :
  notifications (t1 ++ t2) = notifications t1 ++ notifications t2.
Proof. apply omap_app. Qed.

Lemma requests_app t1 t2 : requests (t1 ++ t2) = requests t1 ++ requests t2.
Proof. apply omap_app. Qed.

Lemma notifications_writes key v : notifications (writes key v) = [].
Proof. destruct v as [s|]; simpl; [destruct (negb _)|]; reflexivity. Qed.

Lemma notifications_calls arg (l : list Callback) :
  notifications (map (λ cb, Called (cb_id cb) arg) l)
  = map (λ cb, (cb_id cb, arg)) l.
Proof. induction l as [|cb l IH]; simpl; [|unfold notifications in *; simpl; rewrite IH]; reflexivity. Qed.

(** *** The claims about the detector *)

(** C5. Development gate.  While [isLocalDevelopment] and
    [skipInDevelopment] are both true, [checkForUpdate] resolves [false] at
    once, without suspending and with the state as it was: no request is
    sent and [localStorage] is neither read nor written. *)
Theorem development_gate (w : World) :
  isLocalDevelopment (this w) = true →
  skipInDevelopment (options (this w)) = true →
  checkForUpdate w = Settled w (Normal false).
Proof.
  intros Hdev Hskip. unfold checkForUpdate, skipped. unmonad.
  rewrite Hdev, Hskip. reflexivity.
Qed.

Lemma development_gate_witness :
  isLocalDevelopment (this developer) = true
  ∧ skipInDevelopment (options (this developer)) = true
  ∧ checkForUpdate developer = Settled developer (Normal false).
Proof.
  split; [reflexivity|]. split; [reflexivity|].
  apply development_gate; reflexivity.
Defined.

Lemma checkForUpdate_busy (w : World) :
  isChecking (this w) = true → checkForUpdate w = Settled w (Normal false).
Proof.
  intros Hc. unfold checkForUpdate. unmonad.
  destruct (skipped w); simpl; [reflexivity|]. rewrite Hc. reflexivity.
Qed.

Lemma checkForUpdate_suspends (w : World) :
  skipped w = false → isChecking (this w) = false →
  ∃ w1 k, checkForUpdate w = Suspended w1 (Fetch HeadIndexHtml) k
    ∧ isChecking (this w1) = true
    ∧ trace w1 = trace w ++ [FetchSent HeadIndexHtml].
Proof.
  intros Hs Hc. step_checkForUpdate Hs Hc.
  eexists _, _. split; [reflexivity|]. done.
Qed.

Lemma checkForUpdate_clears_flag (w : World) :
  skipped w = false → isChecking (this w) = false →
  always (λ wf c, isChecking (this wf) = false ∧ ∃ b, c = Normal b)
         (checkForUpdate w).
Proof.
  intros Hs Hc. unfold checkForUpdate, try_finally_async, try_catch_async.
  unmonad. rewrite Hs. simpl. rewrite Hc. simpl. intros r w'.
  apply always_abind.
  apply always_afinally with (Q := λ _ c, ∃ a, c = Normal a).
  - apply always_acatch, always_all. intros w0 [a|e]; [eauto|].
    unfold console_, fetch, emit, await. unmonad. simpl.
    intros [resp|e'] w''; simpl; [eauto|].
    destruct (notifyUpdate_spec network_error w'') as (w3 & -> & _). simpl. eauto.
  - intros w0 c [a ->]. simpl. eauto.
Qed.

(** C4. Mutual exclusion of checks.  With the in-flight flag set, a call to
    [checkForUpdate] resolves [false] at once and leaves the state alone (no
    request).  A call that passes the gates sends the request with the flag
    set, so that a call overlapping it resolves [false] at once; and however
    the awaited requests complete and whatever ran in between, the call
    resolves (it never rejects) with the flag cleared. *)
Theorem mutual_exclusion (w : World) :
  (isChecking (this w) = true → checkForUpdate w = Settled w (Normal false))
  ∧ (skipped w = false → isChecking (this w) = false →
     (∃ w1 k, checkForUpdate w = Suspended w1 (Fetch HeadIndexHtml) k
        ∧ requests (trace w1) = requests (trace w) ++ [HeadIndexHtml]
        ∧ checkForUpdate w1 = Settled w1 (Normal false))
     ∧ (∀ wf c, settles (checkForUpdate w) wf c →
          isChecking (this wf) = false ∧ ∃ b, c = Normal b)
     ∧ ∀ o : Oracle, ∃ wf b,
         run o (checkForUpdate w) = (wf, Normal b)
         ∧ isChecking (this wf) = false).
Proof.
  split; [apply checkForUpdate_busy|]. intros Hs Hc. split; [|split].
  - destruct (checkForUpdate_suspends w Hs Hc) as (w1 & k & Hk & Hflag & Ht).
    exists w1, k. split; [exact Hk|]. split.
    + rewrite Ht, requests_app. reflexivity.
    + by apply checkForUpdate_busy.
  - intros wf c Hsettles.
    by apply (always_settles _ _ _ _ (checkForUpdate_clears_flag w Hs Hc)).
  - intros o.
    pose proof (always_run _ _ o (checkForUpdate_clears_flag w Hs Hc)) as H.
    destruct (run o (checkForUpdate w)) as [wf c]. simpl in H.
    destruct H as [Hflag [b ->]]. by exists wf, b.
Qed.

Lemma mutual_exclusion_witness :
  checkForUpdate busy = Settled busy (Normal false)
  ∧ ∃ wf b, run offline (checkForUpdate returning_visitor) = (wf, Normal b)
      ∧ isChecking (this wf) = false.
Proof.
  split.
  - apply (proj1 (mutual_exclusion busy)). reflexivity.
  - apply (proj2 (mutual_exclusion returning_visitor)); reflexivity.
Defined.

(** C1, on the code as it is.  The entry-document request and the probe
    would both fail.  [checkVersionByIndex] catches the failure of the first
    itself, so [checkForUpdate] never reaches its [catch] block: the only
    request sent is the first one, no callback is notified, and the call
    resolves [false]. *)
Theorem fetch_failure_is_swallowed :
  let r := run offline (checkForUpdate returning_visitor) in
  r.2 = Normal false
  ∧ requests (trace r.1) = [HeadIndexHtml]
  ∧ notifications (trace r.1) = [].
Proof. vm_compute. done. Qed.

Lemma truthy_Some v : truthy (Some v) = true ↔ v ≠ "".
Proof.
  unfold truthy. rewrite negb_true_iff, bool_decide_eq_false. done.
Qed.

Lemma differs_spec h p : truthy h && strict_ne h p = true ↔ differs h p.
Proof.
  unfold differs, strict_ne.
  rewrite andb_true_iff, negb_true_iff, bool_decide_eq_false. split.
  - intros [Ht Hne]. destruct h as [v|]; [|done].
    exists v. apply truthy_Some in Ht. split_and!; [done..|congruence].
  - intros (v & -> & Hv & Hp). split; [by apply truthy_Some | congruence].
Qed.

Lemma hasUpdate_spec e l se sl :
  hasUpdate e l se sl = true ↔ differs e se ∨ differs l sl.
Proof. unfold hasUpdate. rewrite orb_true_iff, !differs_spec. done. Qed.

Lemma keys_distinct : app_index_etag ≠ app_index_last_modified.
Proof. done. Qed.

Lemma lookup_stored key v (st : gmap string string) :
  stored key v st !! key = if truthy v then v else st !! key.
Proof.
  unfold stored. destruct v as [s|]; [|done].
  destruct (truthy (Some s)); [apply lookup_insert_eq | done].
Qed.

Lemma lookup_stored_ne key key' v (st : gmap string string) :
  key ≠ key' → stored key v st !! key' = st !! key'.
Proof.
  intros Hne. unfold stored. destruct v as [s|]; [|done].
  destruct (truthy (Some s)); [by apply lookup_insert_ne | done].
Qed.

Lemma stored_falsy key v (st : gmap string string) :
  truthy v = false → stored key v st = st.
Proof. unfold stored. destruct v; [intros ->|]; done. Qed.

Lemma writes_falsy key v : truthy v = false → writes key v = [].
Proof. unfold writes. destruct v; [intros ->|]; done. Qed.

Lemma elem_of_writes key value k v :
  SetItem key value ∈ writes k v → key = k ∧ v = Some value.
Proof.
  unfold writes. destruct v as [s|]; [destruct (truthy (Some s))|];
    intros H; try by apply elem_of_nil in H.
  apply list_elem_of_singleton in H. by inversion H.
Qed.

Lemma notifications_fixed w wf first changed (e l : option string) pre :
  trace wf = trace w ++ pre
    ++ (if first || changed
        then writes app_index_etag e ++ writes app_index_last_modified l
        else [])
    ++ (if negb first && changed
        then map (λ cb, Called (cb_id cb) (ReasonArg redeploy))
                 (onUpdateCallbacks (this w))
        else []) →
  notifications pre = [] →
  notifications (trace wf) = notifications (trace w)
    ++ (if negb first && changed
        then map (λ cb, (cb_id cb, ReasonArg redeploy)) (onUpdateCallbacks (this w))
        else []).
Proof.
  intros -> Hpre. rewrite !notifications_app, Hpre. simpl. f_equal.
  assert (notifications (if first || changed
        then writes app_index_etag e ++ writes app_index_last_modified l
        else []) = []) as ->.
  { destruct (first || changed); [|done].
    by rewrite notifications_app, !notifications_writes. }
  simpl. destruct (negb first && changed); [apply notifications_calls | done].
Qed.

(** C2, as amended.  The call is outside the development gate and no other
    check is in flight; a fingerprint is persisted (one of the two keys holds
    a non-empty value) and the fetch resolves with [response.ok].  If one of
    the two headers is present with a non-empty value that is not the
    persisted one, the key of each header that is present with a non-empty
    value is set to the fetched value (the key of a header that is absent or
    empty keeps its value), every update callback is called with [redeploy]
    (callbacks that only return or throw), and the call resolves [true].
    Otherwise the call resolves [false], writes nothing and notifies nobody. *)
Theorem change_detection (w : World) (o : Oracle) (resp : Response) :
  skipped w = false → isChecking (this w) = false →
  o _ (Fetch HeadIndexHtml) = Normal resp → ok resp = true →
  let etag := headers_get resp "etag" in
  let lastModified := headers_get resp "last-modified" in
  let storedEtag := localStorage w !! app_index_etag in
  let storedLastModified := localStorage w !! app_index_last_modified in
  truthy storedEtag = true ∨ truthy storedLastModified = true →
  ∃ wf b, run o (checkForUpdate w) = (wf, Normal b)
    ∧ (differs etag storedEtag ∨ differs lastModified storedLastModified →
       b = true
       ∧ localStorage wf !! app_index_etag
         = (if truthy etag then etag else storedEtag)
       ∧ localStorage wf !! app_index_last_modified
         = (if truthy lastModified then lastModified else storedLastModified)
       ∧ notifications (trace wf) = notifications (trace w)
           ++ map (λ cb, (cb_id cb, ReasonArg redeploy))
                  (onUpdateCallbacks (this w)))
    ∧ (¬ (differs etag storedEtag ∨ differs lastModified storedLastModified) →
       b = false
       ∧ localStorage wf = localStorage w
       ∧ notifications (trace wf) = notifications (trace w)).
Proof.
  intros Hs Hc Ho Hok etag lastModified storedEtag storedLastModified Hstored.
  destruct (checkForUpdate_resolved w o Hs Hc resp Ho Hok)
    as (wf & Hrun & _ & _ & Hst & Htr).
  fold etag lastModified storedEtag storedLastModified in Hrun, Hst, Htr.
  assert (nothingStored storedEtag storedLastModified = false) as Hfirst.
  { unfold nothingStored. destruct Hstored as [-> | ->]; simpl; [done|].
    apply andb_false_r. }
  apply notifications_fixed in Htr; [|reflexivity].
  rewrite Hfirst in Hrun, Hst, Htr. simpl in Hrun, Hst, Htr.
  exists wf, (hasUpdate etag lastModified storedEtag storedLastModified).
  split; [exact Hrun|]. split.
  - intros Hd. apply hasUpdate_spec in Hd. rewrite Hd in *.
    split; [done|]. rewrite Hst. split_and!.
    + rewrite lookup_stored_ne by (symmetry; apply keys_distinct).
      apply lookup_stored.
    + rewrite lookup_stored, lookup_stored_ne by apply keys_distinct. done.
    + exact Htr.
  - intros Hd. rewrite <- hasUpdate_spec in Hd. apply not_true_is_false in Hd.
    rewrite Hd in *. rewrite app_nil_r in Htr. done.
Qed.

(** The scenario of the specification: persisted [a]/[t1], fetched [b]/[t1]. *)
Lemma change_detection_witness :
  ∃ wf b, run (serving (Some "b") (Some "t1")) (checkForUpdate returning_visitor)
          = (wf, Normal b)
    ∧ (differs (Some "b") (Some "a") ∨ differs (Some "t1") (Some "t1") →
       b = true
       ∧ localStorage wf !! app_index_etag = Some "b"
       ∧ localStorage wf !! app_index_last_modified = Some "t1"
       ∧ notifications (trace wf)
         = [(1%nat, ReasonArg redeploy); (2%nat, ReasonArg redeploy)])
    ∧ (¬ (differs (Some "b") (Some "a") ∨ differs (Some "t1") (Some "t1")) →
       b = false
       ∧ localStorage wf = localStorage returning_visitor
       ∧ notifications (trace wf) = []).
Proof.
  apply (change_detection returning_visitor (serving (Some "b") (Some "t1"))
           (mkResponse true (fingerprint (Some "b") (Some "t1"))));
    try reflexivity.
  left. reflexivity.
Defined.

(** C2 as it was stated fails on a response that lacks a header.  The
    persisted ETag is [a] and the response carries no ETag header (its
    Last-Modified is the persisted [t1]): the fetched ETag is not the
    persisted one, yet the call resolves [false], notifies nobody and leaves
    the store alone. *)
Lemma change_detection_absent_header :
  let w := returning_visitor in
  let o := serving None (Some "t1") in
  let r := run o (checkForUpdate w) in
  skipped w = false ∧ isChecking (this w) = false
  ∧ o _ (Fetch HeadIndexHtml) = Normal (mkResponse true (fingerprint None (Some "t1")))
  ∧ localStorage w !! app_index_etag = Some "a"
  ∧ headers_get (mkResponse true (fingerprint None (Some "t1"))) "etag"
    ≠ localStorage w !! app_index_etag
  ∧ r.2 = Normal false
  ∧ notifications (trace r.1) = []
  ∧ localStorage r.1 = localStorage w.
Proof. vm_compute. split_and!; done. Qed.

(** On the same page a response with a new ETag and no Last-Modified header
    is a change, but the Last-Modified key keeps the value of the earlier
    response. *)
Example change_detection_keeps_absent_field :
  let w := returning_visitor in
  let r := run (serving (Some "b") None) (checkForUpdate w) in
  r.2 = Normal true
  ∧ localStorage r.1 !! app_index_etag = Some "b"
  ∧ localStorage r.1 !! app_index_last_modified = Some "t1".
Proof. vm_compute. done. Qed.

(** So does the key of a header that is present but empty: with an empty
    ETag header and a new Last-Modified, the call resolves [true] and the
    ETag key keeps [a]. *)
Example change_detection_keeps_field_of_empty_header :
  let w := returning_visitor in
  let r := run (serving (Some "") (Some "t2")) (checkForUpdate w) in
  r.2 = Normal true
  ∧ localStorage r.1 !! app_index_etag = Some "a"
  ∧ localStorage r.1 !! app_index_last_modified = Some "t2".
Proof. vm_compute. done. Qed.

(** C3. First-visit quiescence.  Both storage keys are absent and the fetch
    resolves with [response.ok]: the call stores the header values it
    observed (a header that is missing or empty leaves its key absent),
    calls no update callback and resolves [false]; a second call that
    observes the same header values resolves [false] too, without calling
    a callback. *)
Theorem first_visit_quiescence (w : World) (o o' : Oracle) (resp resp' : Response) :
  skipped w = false → isChecking (this w) = false →
  localStorage w !! app_index_etag = None →
  localStorage w !! app_index_last_modified = None →
  o _ (Fetch HeadIndexHtml) = Normal resp → ok resp = true →
  o' _ (Fetch HeadIndexHtml) = Normal resp' → ok resp' = true →
  headers_get resp' "etag" = headers_get resp "etag" →
  headers_get resp' "last-modified" = headers_get resp "last-modified" →
  ∃ w1 w2,
    run o (checkForUpdate w) = (w1, Normal false)
    ∧ localStorage w1 !! app_index_etag
      = (if truthy (headers_get resp "etag") then headers_get resp "etag" else None)
    ∧ localStorage w1 !! app_index_last_modified
      = (if truthy (headers_get resp "last-modified")
         then headers_get resp "last-modified" else None)
    ∧ notifications (trace w1) = notifications (trace w)
    ∧ run o' (checkForUpdate w1) = (w2, Normal false)
    ∧ notifications (trace w2) = notifications (trace w).
Proof.
  intros Hs Hc He Hl Ho Hok Ho' Hok' Hetag Hlm.
  destruct (checkForUpdate_resolved w o Hs Hc resp Ho Hok)
    as (w1 & Hrun & Hthis & _ & Hst & Htr).
  apply notifications_fixed in Htr; [|reflexivity].
  rewrite He, Hl in Hrun, Hst, Htr. simpl in Hrun, Hst, Htr.
  rewrite app_nil_r in Htr.
  assert (localStorage w1 !! app_index_etag
          = if truthy (headers_get resp "etag") then headers_get resp "etag" else None)
    as He1.
  { rewrite Hst, lookup_stored_ne by (symmetry; apply keys_distinct).
    rewrite lookup_stored, He. done. }
  assert (localStorage w1 !! app_index_last_modified
          = if truthy (headers_get resp "last-modified")
            then headers_get resp "last-modified" else None) as Hl1.
  { rewrite Hst, lookup_stored, lookup_stored_ne by apply keys_distinct.
    rewrite Hl. done. }
  assert (skipped w1 = false) as Hs1 by (unfold skipped; rewrite Hthis; exact Hs).
  assert (isChecking (this w1) = false) as Hc1 by (rewrite Hthis; exact Hc).
  destruct (checkForUpdate_resolved w1 o' Hs1 Hc1 resp' Ho' Hok')
    as (w2 & Hrun2 & _ & _ & _ & Htr2).
  apply notifications_fixed in Htr2; [|reflexivity].
  assert (hasUpdate (headers_get resp' "etag") (headers_get resp' "last-modified")
            (localStorage w1 !! app_index_etag)
            (localStorage w1 !! app_index_last_modified) = false) as Hsame.
  { rewrite Hetag, Hlm, He1, Hl1. unfold hasUpdate, strict_ne.
    destruct (truthy (headers_get resp "etag")),
             (truthy (headers_get resp "last-modified")); simpl;
      rewrite ?bool_decide_eq_true_2 by done; done. }
  rewrite Hsame, andb_false_r in Hrun2, Htr2.
  rewrite app_nil_r, Htr in Htr2.
  exists w1, w2. done.
Qed.

Lemma first_visit_quiescence_witness :
  ∃ w1 w2,
    run (serving (Some "a") (Some "t1")) (checkForUpdate first_visitor)
      = (w1, Normal false)
    ∧ localStorage w1 !! app_index_etag = Some "a"
    ∧ localStorage w1 !! app_index_last_modified = Some "t1"
    ∧ notifications (trace w1) = []
    ∧ run (serving (Some "a") (Some "t1")) (checkForUpdate w1) = (w2, Normal false)
    ∧ notifications (trace w2) = [].
Proof.
  apply (first_visit_quiescence first_visitor
           (serving (Some "a") (Some "t1")) (serving (Some "a") (Some "t1"))
           (mkResponse true (fingerprint (Some "a") (Some "t1")))
           (mkResponse true (fingerprint (Some "a") (Some "t1"))));
    reflexivity.
Defined.

(** C10. Absent-header frame property.  When the fetch resolves, every
    [setItem] of the call writes the value of the header that belongs to the
    key; a header absent from the response leaves its key as it was, and a
    call that resolves [true] without it found the change in the other
    field; with both headers absent the call resolves [false] and the store
    is unchanged. *)
Theorem absent_header_frame (w : World) (o : Oracle) (resp : Response) :
  skipped w = false → isChecking (this w) = false →
  o _ (Fetch HeadIndexHtml) = Normal resp →
  let etag := headers_get resp "etag" in
  let lastModified := headers_get resp "last-modified" in
  let storedEtag := localStorage w !! app_index_etag in
  let storedLastModified := localStorage w !! app_index_last_modified in
  ∃ wf b new,
    run o (checkForUpdate w) = (wf, Normal b)
    ∧ trace wf = trace w ++ new
    ∧ (∀ key value, SetItem key value ∈ new →
         (key = app_index_etag ∧ etag = Some value)
         ∨ (key = app_index_last_modified ∧ lastModified = Some value))
    ∧ (etag = None →
         localStorage wf !! app_index_etag = storedEtag
         ∧ (b = true → differs lastModified storedLastModified))
    ∧ (lastModified = None →
         localStorage wf !! app_index_last_modified = storedLastModified
         ∧ (b = true → differs etag storedEtag))
    ∧ (etag = None → lastModified = None →
         b = false ∧ localStorage wf = localStorage w).
Proof.
  intros Hs Hc Ho etag lastModified storedEtag storedLastModified.
  destruct (ok resp) eqn:Hok.
  - destruct (checkForUpdate_resolved w o Hs Hc resp Ho Hok)
      as (wf & Hrun & _ & _ & Hst & Htr).
    fold etag lastModified storedEtag storedLastModified in Hrun, Hst, Htr.
    set (first := nothingStored storedEtag storedLastModified) in *.
    set (changed := hasUpdate etag lastModified storedEtag storedLastModified) in *.
    eexists wf, _, _. split; [exact Hrun|]. split; [exact Htr|]. split_and!.
    + intros key value Hin.
      rewrite !elem_of_app in Hin. destruct Hin as [Hin|[Hin|Hin]].
      * repeat (apply elem_of_cons in Hin as [Hin|Hin]; [discriminate|]).
        by apply elem_of_nil in Hin.
      * destruct (first || changed); [|by apply elem_of_nil in Hin].
        apply elem_of_app in Hin as [Hin|Hin];
          apply elem_of_writes in Hin; tauto.
      * destruct (negb first && changed); [|by apply elem_of_nil in Hin].
        apply list_elem_of_fmap in Hin as (cb & Heq & _). discriminate.
    + intros He. split.
      * rewrite Hst. destruct (first || changed); [|done].
        rewrite lookup_stored_ne by (symmetry; apply keys_distinct).
        rewrite lookup_stored, He. done.
      * intros Hb. apply andb_true_iff in Hb as [_ Hb].
        apply hasUpdate_spec in Hb as [(v & Hv & _)|Hd]; [congruence|done].
    + intros Hl. split.
      * rewrite Hst. destruct (first || changed); [|done].
        rewrite lookup_stored, Hl. simpl.
        by rewrite lookup_stored_ne by apply keys_distinct.
      * intros Hb. apply andb_true_iff in Hb as [_ Hb].
        apply hasUpdate_spec in Hb as [Hd|(v & Hv & _)]; [done|congruence].
    + intros He Hl. split.
      * subst changed. unfold hasUpdate. rewrite He, Hl. simpl. apply andb_false_r.
      * rewrite Hst, He, Hl. simpl. by destruct (first || changed).
  - destruct (checkForUpdate_not_ok w o Hs Hc resp Ho Hok)
      as (wf & Hrun & _ & _ & Hst & Htr).
    exists wf, false, [FetchSent HeadIndexHtml].
    split; [exact Hrun|]. split; [exact Htr|]. split_and!.
    + intros key value Hin. apply list_elem_of_singleton in Hin. discriminate.
    + intros _. by rewrite Hst.
    + intros _. by rewrite Hst.
    + done.
Qed.

(** A returning visitor whose server sends neither header. *)
Lemma absent_header_frame_witness :
  let w := returning_visitor in
  let resp := mkResponse true (fingerprint None None) in
  let etag := headers_get resp "etag" in
  let lastModified := headers_get resp "last-modified" in
  let storedEtag := localStorage w !! app_index_etag in
  let storedLastModified := localStorage w !! app_index_last_modified in
  ∃ wf b new,
    run (serving None None) (checkForUpdate w) = (wf, Normal b)
    ∧ trace wf = trace w ++ new
    ∧ (∀ key value, SetItem key value ∈ new →
         (key = app_index_etag ∧ etag = Some value)
         ∨ (key = app_index_last_modified ∧ lastModified = Some value))
    ∧ (etag = None →
         localStorage wf !! app_index_etag = storedEtag
         ∧ (b = true → differs lastModified storedLastModified))
    ∧ (lastModified = None →
         localStorage wf !! app_index_last_modified = storedLastModified
         ∧ (b = true → differs etag storedEtag))
    ∧ (etag = None → lastModified = None →
         b = false ∧ localStorage wf = localStorage w).
Proof.
  apply (absent_header_frame returning_visitor (serving None None)
           (mkResponse true (fingerprint None None))); reflexivity.
Defined.

(** The development gate at the other entry points: under it [init],
    [startVersionCheck] and [handleResourceError] only write to the console. *)
Lemma gate_at_every_entry (w : World) :
  skipped w = true →
  let quiet (w' : World) :=
    this w' = this w ∧ localStorage w' = localStorage w
    ∧ intervals w' = intervals w ∧ listeners w' = listeners w
    ∧ trace w' = trace w in
  (∃ w', init w = (w', []) ∧ quiet w')
  ∧ (∃ w', startVersionCheck w = (w', Normal tt) ∧ quiet w')
  ∧ (∀ element, ∃ w', handleResourceError element w = Settled w' (Normal tt)
       ∧ quiet w').
Proof.
  intros Hs quiet. split_and!.
  - unfold init. rewrite Hs. eexists. split; [reflexivity|]. done.
  - unfold startVersionCheck. unmonad. rewrite Hs.
    eexists. split; [reflexivity|]. done.
  - intros element. unfold handleResourceError. unmonad. rewrite Hs.
    eexists. split; [reflexivity|]. done.
Qed.

(** [recordInitialVersion] writes a key only from the header that belongs
    to it. *)
Lemma recordInitialVersion_frame (w : World) (o : Oracle) (resp : Response) :
  o _ (Fetch HeadIndexHtml) = Normal resp →
  let etag := headers_get resp "etag" in
  let lastModified := headers_get resp "last-modified" in
  ∃ wf new,
    run o (recordInitialVersion w) = (wf, Normal tt)
    ∧ trace wf = trace w ++ new
    ∧ (∀ key value, SetItem key value ∈ new →
         (key = app_index_etag ∧ etag = Some value)
         ∨ (key = app_index_last_modified ∧ lastModified = Some value))
    ∧ (etag = None →
         localStorage wf !! app_index_etag = localStorage w !! app_index_etag)
    ∧ (lastModified = None →
         localStorage wf !! app_index_last_modified
         = localStorage w !! app_index_last_modified).
Proof.
  intros Ho etag lastModified.
  unfold recordInitialVersion, try_catch_async, fetch, localStorage_getItem,
    emit, await, console_. unmonad. simpl.
  destruct (truthy (localStorage w !! app_index_etag)
            || truthy (localStorage w !! app_index_last_modified)); simpl.
  { eexists _, _. split; [reflexivity|]. simpl.
    rewrite <- !app_assoc. split; [reflexivity|].
    split_and!; [|done..].
    intros key value Hin.
    repeat (apply elem_of_cons in Hin as [Hin|Hin]; [discriminate|]).
    by apply elem_of_nil in Hin. }
  rewrite Ho. simpl. destruct (ok resp); simpl.
  2: { eexists _, _. split; [reflexivity|]. simpl.
       rewrite <- !app_assoc. split; [reflexivity|]. split_and!; [|done..].
       intros key value Hin.
       repeat (apply elem_of_cons in Hin as [Hin|Hin]; [discriminate|]).
       by apply elem_of_nil in Hin. }
  fold etag lastModified. unfold if_truthy, localStorage_setItem, emit. unmonad.
  destruct etag as [e|] eqn:He, lastModified as [l|] eqn:Hl; simpl;
    repeat (match goal with |- context [negb ?b] => destruct (negb b) end; simpl);
    (eexists _, _; split; [reflexivity|]; simpl;
     rewrite <- ?app_assoc; split; [reflexivity|]; split_and!;
     [ intros key value Hin;
       repeat (apply elem_of_cons in Hin as [Hin|Hin];
               [try discriminate; inversion Hin; subst; tauto|]);
       by apply elem_of_nil in Hin
     | try done; intros _;
       rewrite ?lookup_insert_ne by (symmetry; apply keys_distinct); done
     | try done; intros _;
       rewrite ?lookup_insert_ne by apply keys_distinct; done ]).
Qed.

(** Two update callbacks, the first throws: the second is still called and
    the error goes to the console. *)
Example first_callback_throws :
  let r := notifyUpdate version_change returning_visitor in
  r.2 = Normal tt
  ∧ notifications (trace r.1)
    = [(1%nat, ReasonArg version_change); (2%nat, ReasonArg version_change)]
  ∧ console r.1 = [(log, "检测到应用更新, 原因:"); (error, "Update callback error:")].
Proof. vm_compute. done. Qed.

Lemma detector_destroy_twice (w : World) :
  ∃ w1, destroy w = (w1, Normal tt)
    ∧ destroy w1 = (w1, Normal tt)
    ∧ timer (this w1) = None
    ∧ (∀ h, timer (this w) = Some h → h ∉ intervals w1)
    ∧ onUpdateCallbacks (this w1) = []
    ∧ onResourceErrorCallbacks (this w1) = [].
Proof.
  unfold destroy, stopVersionCheck, clearInterval, emit. unmonad. simpl.
  destruct (timer (this w)) as [h|] eqn:Ht; simpl.
  - eexists. split; [reflexivity|]. simpl. split_and!; try done.
    intros h' Heq Hin. inversion Heq; subst.
    apply elem_of_difference in Hin as [_ Hn]. by apply Hn, elem_of_singleton.
  - eexists. split; [reflexivity|]. simpl. rewrite Ht. simpl. done.
Qed.

End DetectorFacts.

(** ** Properties of the prompt *)

Module NotificationFacts.
Import Js Notification NotificationScenarios.

Lemma invoke_footing h e w : footing (invoke h e w).1 = footing w.
Proof.
  unfold invoke, emit. unmonad. destruct h as [[[err|]]|]; reflexivity.
Qed.

Lemma hide_footing w : footing (hide w).1 = footing w.
Proof.
  unfold hide, with_container, setTimeout. unmonad.
  destruct w as [[[d|] ? ? ? ? ?] ? ? ? ? ? ?]; simpl; [|reflexivity].
  match goal with |- context [invoke ?h ?e ?w1] =>
    pose proof (invoke_footing h e w1) as H; destruct (invoke h e w1) end.
  exact H.
Qed.

Lemma show_footing reason force w : footing (show reason force w).1 = footing w.
Proof.
  unfold show, updateContent, with_container, requestAnimationFrame. unmonad.
  destruct (_ && _); [reflexivity|].
  destruct w as [[[d|] ? ? ? ? ?] ? ? ? ? ? ?]; simpl; [|reflexivity].
  destruct (getContentByReason reason force) as [[? ?] ?]. reflexivity.
Qed.

Lemma handleLater_footing w : footing (handleLater w).1 = footing w.
Proof.
  unfold handleLater. unmonad.
  match goal with |- context [hide ?w1] =>
    pose proof (hide_footing w1) as H; destruct (hide w1) as [w2 [[]|e]] end;
    simpl in *; [|exact H].
  rewrite invoke_footing. exact H.
Qed.

Lemma handleRefresh_footing w : footing (handleRefresh w).1 = footing w.
Proof.
  unfold handleRefresh, with_container, setTimeout. unmonad.
  match goal with |- context [invoke ?h ?e ?w1] =>
    pose proof (invoke_footing h e w1) as H; destruct (invoke h e w1) as [w2 [[]|err]] end;
    simpl in *; [|exact H].
  etransitivity; [|exact H].
  unfold footing. simpl. destruct (container (this w2)); reflexivity.
Qed.

Lemma runTimer_footing task w : footing (runTimer task w).1 = footing w.
Proof.
  unfold runTimer, with_container, emit. unmonad.
  destruct task; simpl.
  - unfold footing. simpl. destruct (container (this w)); reflexivity.
  - destruct (refreshing (this w)); reflexivity.
Qed.

Lemma runFrame_footing task w : footing (runFrame task w).1 = footing w.
Proof.
  unfold runFrame, with_container, requestAnimationFrame. unmonad.
  destruct w as [[[d|] ? ? ? ? ?] ? ? ? ? ? ?]; simpl; [|reflexivity].
  destruct task; reflexivity.
Qed.

Lemma held_footing w w' : footing w' = footing w → held w → held w'.
Proof.
  unfold footing, held. intros [= Hb Hc] H [d Hs].
  rewrite Hb. apply H. rewrite Hs in Hc.
  destruct (container (this w)); [by eexists | done].
Qed.

Lemma held_attached w : held w → attached w.
Proof.
  unfold held, attached. destruct (container (this w)) as [d|]; [|done].
  intros H. destruct (parentElement d); [|done]. apply H. by eexists.
Qed.

Lemma destroy_held w : held w → held (destroy w).1.
Proof.
  unfold held, destroy, removeChild. unmonad.
  destruct w as [[[d|] ? ? ? ? ?] [] ? ? ? ? ?]; simpl;
    try destruct (parentElement d); simpl; intros Hw [? H]; try done.
  apply Hw. by eexists.
Qed.

Lemma construct_held opts evs t0 : held (construct opts evs t0).
Proof.
  unfold held, construct, init, createContainer, bindEvents. unmonad. simpl.
  destruct (closeOnPressEscape opts), (closeOnClickModal opts); done.
Qed.

Lemma perform_held w a : held w → held (perform w a).
Proof.
  intros H. unfold perform.
  destruct a; simpl; unmonad;
    [| |by apply destroy_held|..]; (eapply held_footing; [|exact H]).
  - apply show_footing.
  - apply hide_footing.
  - case_match; [apply handleLater_footing | reflexivity].
  - destruct (rendered w) as [c|]; [|reflexivity].
    destruct (disabled (refreshBtn c)); [reflexivity | apply handleRefresh_footing].
  - destruct (bool_decide _); [|reflexivity]. unfold onEscape. unmonad.
    destruct (isVisible (this w)); [apply hide_footing | reflexivity].
  - destruct (bool_decide _); [apply hide_footing | reflexivity].
  - reflexivity.
  - destruct (timeouts w) as [|[due task] q]; [reflexivity|].
    destruct (bool_decide _); [|reflexivity]. simpl.
    rewrite runTimer_footing. reflexivity.
  - destruct (frames w) as [|task q]; [reflexivity|]. simpl.
    rewrite runFrame_footing. reflexivity.
Qed.

Lemma after_held w history : held w → held (after w history).
Proof.
  revert w. induction history as [|a l IH]; intros w H; simpl; [exact H|].
  apply IH, perform_held, H.
Qed.

(** Every state the component reaches from its constructor. *)
Lemma reachable_attached opts evs t0 history :
  attached (after (construct opts evs t0) history).
Proof. apply held_attached, after_held, construct_held. Qed.

(** C6, as amended.  Inside the later-window ([laterTimestamp] is not 0 and
    less than [laterInterval] has passed since), [show] with a reason other
    than [resource_error] changes nothing, whatever [forceUpdate] is.  On an
    instance that still holds its dialog, [show] with [resource_error] makes
    the prompt visible and renders the resource-error banner, inside the
    window as outside. *)
Theorem suppression_window (w : World) (reason : UpdateReason) (force : bool) :
  (reason ≠ resource_error →
   laterTimestamp (this w) ≠ 0 →
   now w - laterTimestamp (this w) < laterInterval (options (this w)) →
   show reason force w = (w, Normal tt))
  ∧ (is_Some (container (this w)) →
     ∃ w', show resource_error force w = (w', Normal tt)
       ∧ isVisible (this w') = true
       ∧ (rendered w' ≫= errorDetails) = getErrorDetails resource_error).
Proof.
  split.
  - intros Hr Ht Hw. unfold show. unmonad.
    rewrite !bool_decide_eq_true_2 by done. reflexivity.
  - intros [d Hd]. unfold show, updateContent, with_container,
      requestAnimationFrame, rendered. unmonad.
    rewrite (bool_decide_eq_false_2 (resource_error ≠ resource_error)) by (intros H; by apply H).
    simpl. rewrite Hd. simpl. rewrite Hd. simpl.
    eexists. split; [reflexivity|]. simpl. rewrite Hd. simpl.
    destruct (parentElement d); done.
Qed.

Lemma suppression_window_witness :
  show version_change true dismissed = (dismissed, Normal tt)
  ∧ ∃ w', show resource_error true dismissed = (w', Normal tt)
      ∧ isVisible (this w') = true
      ∧ (rendered w' ≫= errorDetails) = getErrorDetails resource_error.
Proof.
  split.
  - apply (proj1 (suppression_window dismissed version_change true));
      vm_compute; congruence.
  - apply (proj2 (suppression_window dismissed version_change true)).
    vm_compute. eauto.
Defined.

(** C6 as it was stated fails on a destroyed prompt: dismissed with "later",
    then destroyed, the prompt is inside the later-window, and
    [show('resource-error', true)] changes nothing and leaves it invisible. *)
Lemma suppression_override_after_destroy :
  let w := perform dismissed CallDestroy in
  laterTimestamp (this w) ≠ 0
  ∧ now w - laterTimestamp (this w) < laterInterval (options (this w))
  ∧ show resource_error true w = (w, Normal tt)
  ∧ isVisible (this w) = false.
Proof. vm_compute. split_and!; congruence. Qed.

(** C8. On an instance that holds its dialog, [hide()] sets [isVisible] and
    [refreshing] to [false] and calls [onClose] (when there is one) before
    it returns; hiding the elements is left to a timer due 300 ms later, so
    when [onClose] runs the dialog and the overlay are still displayed. *)
Theorem hide_closes_synchronously (w : World) :
  is_Some (container (this w)) →
  let w' := (hide w).1 in
  isVisible (this w') = false
  ∧ refreshing (this w') = false
  ∧ trace w' = trace w ++ (if onClose (events (this w)) is Some _ then [OnClose] else [])
  ∧ timeouts w' = timeouts w ++ [(now w + 300, HideElements)]
  ∧ (display ∘ style <$> container (this w'))
    = (display ∘ style <$> container (this w))
  ∧ (parentElement <$> container (this w')) = (parentElement <$> container (this w))
  ∧ (hide w).2 = (if onClose (events (this w)) ≫= throws is Some e
                  then Throw e else Normal tt).
Proof.
  intros [d Hd]. unfold hide, with_container, setTimeout, invoke, emit. unmonad.
  rewrite Hd. simpl.
  destruct (onClose (events (this w))) as [[[e|]]|]; simpl;
    rewrite ?Hd, ?app_nil_r; done.
Qed.

Lemma hide_closes_synchronously_witness :
  let w' := (hide shown).1 in
  isVisible (this w') = false
  ∧ refreshing (this w') = false
  ∧ trace w' = [OnClose]
  ∧ timeouts w' = [(5300, HideElements)]
  ∧ (display ∘ style <$> container (this w')) = Some "block"
  ∧ (parentElement <$> container (this w')) = Some (Some (mkOverlay "block"))
  ∧ (hide shown).2 = Normal tt.
Proof.
  apply (hide_closes_synchronously shown). vm_compute. eauto.
Defined.

Lemma notification_destroy_twice (w : World) :
  attached w →
  ∃ w1, destroy w = (w1, Normal tt)
    ∧ container (this w1) = None
    ∧ destroy w1 = (w1, Normal tt).
Proof.
  unfold attached, destroy, removeChild. unmonad.
  destruct (container (this w)) as [d|] eqn:Hc; simpl.
  - destruct (parentElement d); simpl; [intros ->|intros _]; simpl;
      (eexists; split; [reflexivity|]; done).
  - intros _. exists w. rewrite Hc. done.
Qed.

(** A [destroy()] that returned has dropped the dialog, so the next one takes
    the [if (this.container)] exit. *)
Lemma destroy_returned (w w1 : World) :
  destroy w = (w1, Normal tt) →
  container (this w1) = None ∧ destroy w1 = (w1, Normal tt).
Proof.
  unfold destroy, removeChild. unmonad.
  destruct (container (this w)) as [d|] eqn:Hc; simpl.
  - destruct (parentElement d); simpl; [destruct (overlayInBody w)|]; simpl;
      intros [= <-]; done.
  - intros [= <-]. rewrite Hc. done.
Qed.

End NotificationFacts.

(** ** Teardown of both components *)

Module Teardown.
Import Js.

(** C9. Idempotent teardown.  On the detector, [destroy()] returns, and a
    second [destroy()] returns too and changes nothing: the timer field is
    null, the interval it held is cleared, and both callback registries are
    empty.  On the prompt, [destroy()] returns on every state whose overlay
    is where the constructor put it (every state the component reaches,
    [reachable_attached]); and after a [destroy()] that returned, the dialog
    is gone and a second [destroy()] returns and is a no-op. *)
Theorem idempotent_teardown :
  (∀ w : Detector.World,
     ∃ w1, Detector.destroy w = (w1, Normal tt)
       ∧ Detector.destroy w1 = (w1, Normal tt)
       ∧ Detector.timer (Detector.this w1) = None
       ∧ (∀ h, Detector.timer (Detector.this w) = Some h →
               h ∉ Detector.intervals w1)
       ∧ Detector.onUpdateCallbacks (Detector.this w1) = []
       ∧ Detector.onResourceErrorCallbacks (Detector.this w1) = [])
  ∧ (∀ w : Notification.World,
       (Notification.attached w → (Notification.destroy w).2 = Normal tt)
       ∧ ∀ w1, Notification.destroy w = (w1, Normal tt) →
           Notification.container (Notification.this w1) = None
           ∧ Notification.destroy w1 = (w1, Normal tt)).
Proof.
  split.
  - apply DetectorFacts.detector_destroy_twice.
  - intros w. split.
    + intros Hw.
      destruct (NotificationFacts.notification_destroy_twice w Hw) as (w1 & -> & _).
      reflexivity.
    + apply NotificationFacts.destroy_returned.
Qed.

Lemma idempotent_teardown_witness :
  (∃ w1, Detector.destroy DetectorScenarios.polling = (w1, Normal tt)
     ∧ Detector.destroy w1 = (w1, Normal tt)
     ∧ Detector.timer (Detector.this w1) = None
     ∧ (∀ h, Detector.timer (Detector.this DetectorScenarios.polling) = Some h →
             h ∉ Detector.intervals w1)
     ∧ Detector.onUpdateCallbacks (Detector.this w1) = []
     ∧ Detector.onResourceErrorCallbacks (Detector.this w1) = [])
  ∧ Notification.attached NotificationScenarios.shown
  ∧ (Notification.destroy NotificationScenarios.shown).2 = Normal tt
  ∧ Notification.destroy (Notification.destroy NotificationScenarios.shown).1
    = ((Notification.destroy NotificationScenarios.shown).1, Normal tt).
Proof.
  split; [apply (proj1 idempotent_teardown)|].
  assert (Notification.attached NotificationScenarios.shown) as H
    by (vm_compute; reflexivity).
  split; [exact H|]. split.
  - apply (proj2 idempotent_teardown), H.
  - apply (proj2 idempotent_teardown NotificationScenarios.shown).
    reflexivity.
Defined.

End Teardown.

(** ** The detector: timers, registries and the version record *)

Module DetectorLifecycle.
Import Js JsFacts Detector DetectorScenarios DetectorFacts DetectorHistory
  DetectorCases.

(** *** Code that leaves the timers alone *)

Lemma same_timers_refl w : same_timers w w.
Proof. by split. Qed.

Lemma same_timers_trans w1 w2 w3 :
  same_timers w1 w2 → same_timers w2 w3 → same_timers w1 w3.
Proof. intros [H1 H2] [H3 H4]. split; congruence. Qed.

Lemma same_timers_tidy w w' : same_timers w w' → tidy w → tidy w'.
Proof. unfold tidy. intros [-> ->]. done. Qed.

Lemma calm_ret {A} (a : A) : calm (mret a : Sync World A).
Proof. intros w. apply same_timers_refl. Qed.

Lemma calm_bind {A B} (m : Sync World A) (f : A → Sync World B) :
  calm m → (∀ a, calm (f a)) → calm (m ≫= f).
Proof.
  intros Hm Hf w. unmonad. specialize (Hm w).
  destruct (m w) as [w' [a|e]]; simpl in *; [|exact Hm].
  eapply same_timers_trans; [exact Hm | apply Hf].
Qed.

Lemma calm_gets {A} (f : World → A) : calm (gets f).
Proof. intros w. apply same_timers_refl. Qed.

Lemma calm_when (c : bool) (m : Sync World unit) : calm m → calm (when c m).
Proof. intros Hm. unfold when. destruct c; [exact Hm | apply calm_ret]. Qed.

Lemma calm_try_catch {A} (m : Sync World A) (h : Error → Sync World A) :
  calm m → (∀ e, calm (h e)) → calm (try_catch m h).
Proof.
  intros Hm Hh w. unfold try_catch. specialize (Hm w).
  destruct (m w) as [w' [a|e]]; simpl in *; [exact Hm|].
  eapply same_timers_trans; [exact Hm | apply Hh].
Qed.

Lemma calm_forEach {T} (l : list T) (f : T → Sync World unit) :
  (∀ x, calm (f x)) → calm (forEach l f).
Proof.
  intros Hf. induction l as [|x l IH]; simpl; [apply calm_ret|].
  apply calm_bind; [apply Hf | intros _; exact IH].
Qed.

Lemma calm_emit e : calm (emit e).
Proof. by intros w. Qed.

Lemma calm_console l msg : calm (console_ l msg).
Proof. by intros w. Qed.

Lemma calm_set_isChecking b : calm (modify (set_this (set_isChecking b))).
Proof. by intros w. Qed.

Lemma calm_call cb arg : calm (call cb arg).
Proof.
  unfold call. apply calm_bind; [apply calm_emit|]. intros _.
  destruct (cb_call cb arg); by intros w.
Qed.

Lemma calm_getItem key : calm (localStorage_getItem key).
Proof.
  unfold localStorage_getItem.
  apply calm_bind; [apply calm_emit | intros _; apply calm_gets].
Qed.

Lemma calm_setItem key value : calm (localStorage_setItem key value).
Proof.
  unfold localStorage_setItem.
  apply calm_bind; [apply calm_emit | intros _; by intros w].
Qed.

Lemma calm_if_truthy v (body : string → Sync World unit) :
  (∀ s, calm (body s)) → calm (if_truthy v body).
Proof.
  intros Hb. unfold if_truthy. destruct v; [|apply calm_ret].
  apply calm_when, Hb.
Qed.

Lemma calm_notifyUpdate reason : calm (notifyUpdate reason).
Proof.
  intros w. destruct (notifyUpdate_spec reason w) as (w' & -> & _ & Hd & _ & Hi).
  split; simpl; congruence.
Qed.

(** The same for [async] code, at every resumption. *)

Lemma keeps_timers_abind {A B} (f : A → Task World B) (p : Async World A) w :
  keeps_timers w p → (∀ a, steady (f a)) → keeps_timers w (abind f p).
Proof.
  intros Hp Hf. revert w Hp.
  induction p as [w' [a|e]|X w' a k IH]; intros w [Hw Hb]; simpl in *.
  - destruct (Hf a w') as [H1 H2]. split; [|exact H2].
    eapply same_timers_trans; [exact Hw | exact H1].
  - by split.
  - split; [exact Hw|]. intros r w''. apply IH, Hb.
Qed.

Lemma keeps_timers_acatch {A} (p : Async World A) (h : Error → Task World A) w :
  keeps_timers w p → (∀ e, steady (h e)) → keeps_timers w (acatch p h).
Proof.
  intros Hp Hh. revert w Hp.
  induction p as [w' [a|e]|X w' a k IH]; intros w [Hw Hb]; simpl in *.
  - by split.
  - destruct (Hh e w') as [H1 H2]. split; [|exact H2].
    eapply same_timers_trans; [exact Hw | exact H1].
  - split; [exact Hw|]. intros r w''. apply IH, Hb.
Qed.

Lemma keeps_timers_afinally {A} (p : Async World A) (fin : Sync World unit) w :
  keeps_timers w p → calm fin → keeps_timers w (afinally p fin).
Proof.
  intros Hp Hf. revert w Hp.
  induction p as [w' c|X w' a k IH]; intros w [Hw Hb]; simpl in *.
  - specialize (Hf w'). destruct (fin w') as [w'' [[]|e]]; simpl in *;
      (split; [|done]; eapply same_timers_trans; [exact Hw | exact Hf]).
  - split; [exact Hw|]. intros r w''. apply IH, Hb.
Qed.

Lemma steady_ret {A} (a : A) : steady (mret a : Task World A).
Proof. intros w. split; [apply same_timers_refl | done]. Qed.

Lemma steady_bind {A B} (m : Task World A) (f : A → Task World B) :
  steady m → (∀ a, steady (f a)) → steady (m ≫= f).
Proof. intros Hm Hf w. unmonad. by apply keeps_timers_abind. Qed.

Lemma steady_lift {A} (m : Sync World A) : calm m → steady (lift m).
Proof.
  intros Hm w. unfold lift. specialize (Hm w). destruct (m w) as [w' c].
  by split.
Qed.

Lemma steady_await {X} (a : Awaitable X) : steady (await a : Task World X).
Proof.
  intros w. split; [apply same_timers_refl|]. simpl. intros r w'.
  split; [apply same_timers_refl | done].
Qed.

Lemma steady_try_catch {A} (body : Task World A) (h : Error → Task World A) :
  steady body → (∀ e, steady (h e)) → steady (try_catch_async body h).
Proof. intros Hb Hh w. by apply keeps_timers_acatch. Qed.

Lemma steady_try_finally {A} (body : Task World A) (fin : Sync World unit) :
  steady body → calm fin → steady (try_finally_async body fin).
Proof. intros Hb Hf w. by apply keeps_timers_afinally. Qed.

Create HintDb timers.

#[local] Hint Resolve calm_ret calm_gets calm_emit calm_console
  calm_set_isChecking calm_call calm_getItem calm_setItem calm_notifyUpdate
  steady_ret steady_await : timers.

(** Take a method apart along its statements. *)
Ltac by_statements :=
  repeat first
    [ progress intros
    | progress cbv beta zeta
    | solve [auto with timers]
    | apply steady_bind | apply calm_bind
    | apply steady_lift | apply steady_try_catch | apply steady_try_finally
    | apply calm_when | apply calm_try_catch | apply calm_forEach
    | apply calm_if_truthy
    | match goal with
      | |- steady (if ?c then _ else _) => destruct c
      | |- calm (if ?c then _ else _) => destruct c
      end ].

Lemma steady_fetch req : steady (fetch req).
Proof. unfold fetch. by_statements. Qed.

#[local] Hint Resolve steady_fetch : timers.

Lemma steady_checkVersionByIndex : steady checkVersionByIndex.
Proof. unfold checkVersionByIndex. by_statements. Qed.

#[local] Hint Resolve steady_checkVersionByIndex : timers.

Lemma steady_checkForUpdate : steady checkForUpdate.
Proof. unfold checkForUpdate. by_statements. Qed.

#[local] Hint Resolve steady_checkForUpdate : timers.

Lemma steady_recordInitialVersion : steady recordInitialVersion.
Proof. unfold recordInitialVersion. by_statements. Qed.

Lemma steady_handleResourceError element : steady (handleResourceError element).
Proof. unfold handleResourceError. by_statements. Qed.

Lemma steady_onVisibilityChange hidden : steady (onVisibilityChange hidden).
Proof. unfold onVisibilityChange. by_statements. Qed.

(** *** The interval and the [timer] field *)

Lemma spawn_steady {A} (t : Task World A) w :
  steady t → same_timers w (spawn t w).1 ∧ Forall benign (spawn t w).2.
Proof.
  intros Ht. destruct (Ht w) as [Hw Hb]. unfold spawn.
  destruct (t w) as [w' c|X w' a k]; simpl in *; [by split|].
  split; [exact Hw|]. constructor; [exact Hb | constructor].
Qed.

Lemma spawn_keeps_timers {A} (t : Task World A) w :
  keeps_timers w (t w) → same_timers w (spawn t w).1 ∧ Forall benign (spawn t w).2.
Proof.
  intros [Hw Hb]. unfold spawn.
  destruct (t w) as [w' c|X w' a k]; simpl in *; [by split|].
  split; [exact Hw|]. constructor; [exact Hb | constructor].
Qed.

Lemma pending_orderly w floating started :
  tidy w → Forall benign floating →
  same_timers w started.1 → Forall benign started.2 →
  orderly (pending floating started).
Proof.
  intros Hw Hfl Hs Hb. split; simpl.
  - by eapply same_timers_tidy.
  - by apply Forall_app.
Qed.

Lemma stopVersionCheck_tidy w : tidy w → tidy (stopVersionCheck w).1.
Proof.
  unfold tidy, stopVersionCheck, clearInterval, emit. unmonad.
  destruct (timer (this w)) as [h|] eqn:Ht; simpl; [|by rewrite Ht].
  intros ->. apply difference_diag_L.
Qed.

Lemma startVersionCheck_tidy w : tidy w → tidy (startVersionCheck w).1.
Proof.
  unfold tidy, startVersionCheck, clearInterval, emit, console_. unmonad.
  destruct (skipped w); simpl; [done|].
  destruct (timer (this w)) as [h|] eqn:Ht; simpl; intros ->;
    rewrite ?difference_diag_L; apply (left_id_L ∅ (∪)).
Qed.

(** Up to its first [await], [recordInitialVersion] only reads. *)
Lemma recordInitialVersion_spawned (w : World) :
  this (spawn recordInitialVersion w).1 = this w
  ∧ intervals (spawn recordInitialVersion w).1 = intervals w
  ∧ listeners (spawn recordInitialVersion w).1 = listeners w
  ∧ localStorage (spawn recordInitialVersion w).1 = localStorage w.
Proof.
  unfold spawn, recordInitialVersion, try_catch_async, fetch,
    localStorage_getItem, emit, await, console_. unmonad. simpl.
  by destruct (truthy (localStorage w !! app_index_etag)
               || truthy (localStorage w !! app_index_last_modified)).
Qed.

Lemma init_tidy w :
  tidy w → tidy (init w).1 ∧ Forall benign (init w).2.
Proof.
  intros Hw. unfold init. destruct (skipped w) eqn:Hs; simpl.
  { split; [exact Hw | constructor]. }
  match goal with |- context [spawn recordInitialVersion ?w1] =>
    destruct (spawn_steady recordInitialVersion w1 steady_recordInitialVersion)
      as [Hsame Hb];
    destruct (spawn recordInitialVersion w1) as [w2 fl] eqn:Hsp end.
  simpl in *. split; [|exact Hb].
  apply startVersionCheck_tidy. eapply same_timers_tidy; [exact Hsame|].
  unfold tidy, listenResourceErrors, listenVisibilityChange in *. unmonad.
  destruct (enableResourceErrorDetection _); exact Hw.
Qed.

Lemma destroy_tidy w : tidy w → tidy (destroy w).1.
Proof.
  intros Hw. apply stopVersionCheck_tidy in Hw.
  unfold destroy. unmonad.
  destruct (stopVersionCheck w) as [w1 [[]|e]]; exact Hw.
Qed.

Lemma setDevelopmentMode_tidy isDev w :
  tidy w →
  tidy (setDevelopmentMode isDev w).1 ∧ Forall benign (setDevelopmentMode isDev w).2.
Proof.
  intros Hw. unfold setDevelopmentMode. destruct isDev.
  - split; [|constructor]. simpl. unmonad. unfold console_ . unmonad.
    match goal with |- context [stopVersionCheck ?w1] =>
      apply (stopVersionCheck_tidy w1) end. exact Hw.
  - apply init_tidy. exact Hw.
Qed.

Lemma operate_orderly s op : orderly s → orderly (operate s op).
Proof.
  destruct s as [w fl]. intros [Hw Hfl]. simpl in Hw, Hfl.
  destruct op; simpl; try (split; [exact Hw | exact Hfl]).
  - apply (pending_orderly w); [done..| |];
      apply spawn_steady; by_statements.
  - split; [by apply stopVersionCheck_tidy | exact Hfl].
  - split; [by apply destroy_tidy | exact Hfl].
  - destruct (setDevelopmentMode_tidy isDev w Hw) as [H1 H2].
    split; simpl; [exact H1 | by apply Forall_app].
  - case_bool_decide; [|by split].
    apply (pending_orderly w); [done..| |];
      apply spawn_steady, steady_handleResourceError.
  - case_bool_decide; [|by split].
    apply (pending_orderly w); [done..| |];
      apply spawn_steady, steady_onVisibilityChange.
  - destruct (fl !! i) as [[w' c|X w' a k]|] eqn:Hi; [by split| |by split].
    apply Forall_lookup_1 with (i := i) (x := Suspended w' a k) in Hfl as Hp;
      [|exact Hi].
    simpl in Hp. specialize (Hp (o _ a) w).
    apply (pending_orderly w); [done | by apply Forall_delete | |];
      by apply (spawn_keeps_timers (k (o _ a))).
Qed.

(** X1. No interval leaks.  After any history of calls, timer ticks,
    listener runs and completions of awaited promises, in any interleaving,
    on a detector built by the constructor, the intervals that are running
    are exactly the one held in the [timer] field, or none if the field is
    null. *)
Theorem one_interval_at_most opts dev storage (history : list Operation) :
  let w := (foldl operate (construct opts dev storage) history).1 in
  intervals w = from_option singleton ∅ (timer (this w)).
Proof.
  cut (orderly (foldl operate (construct opts dev storage) history)).
  { by intros [Hw _]. }
  induction history as [|op history IH] using rev_ind.
  - apply init_tidy. reflexivity.
  - rewrite foldl_snoc. apply operate_orderly, IH.
Qed.

(** *** The registries *)

Lemma remove_first_fresh id (l : list Callback) :
  id ∉ cb_id <$> l → remove_first id l = l.
Proof.
  induction l as [|cb l IH]; simpl; [done|].
  intros Hn. apply not_elem_of_cons in Hn as [Hne Hn].
  rewrite bool_decide_eq_false_2 by done. by rewrite IH.
Qed.

Lemma remove_first_found id (l1 l2 : list Callback) cb :
  id ∉ cb_id <$> l1 → cb_id cb = id →
  remove_first id (l1 ++ cb :: l2) = l1 ++ l2.
Proof.
  intros Hn Hid. induction l1 as [|c l1 IH]; simpl.
  - by rewrite bool_decide_eq_true_2.
  - simpl in Hn. apply not_elem_of_cons in Hn as [Hne Hn].
    rewrite bool_decide_eq_false_2 by done. by rewrite IH.
Qed.

(** X2. [removeCallback] of a function that is in neither registry changes
    nothing, and it undoes a registration of that function with [onUpdate]
    or with [onResourceError]: the state is the one before the registration. *)
Theorem removeCallback_round_trip (w : World) (callback : Callback) :
  cb_id callback ∉ cb_id <$> onUpdateCallbacks (this w) →
  cb_id callback ∉ cb_id <$> onResourceErrorCallbacks (this w) →
  removeCallback callback w = (w, Normal tt)
  ∧ removeCallback callback (onUpdate callback w).1 = (w, Normal tt)
  ∧ removeCallback callback (onResourceError callback w).1 = (w, Normal tt).
Proof.
  intros Hu Hr. unfold removeCallback, onUpdate, onResourceError. unmonad.
  destruct w as [[] ? ? ? ? ?]. simpl in *.
  unfold set_this, set_onUpdateCallbacks, set_onResourceErrorCallbacks. simpl.
  rewrite !remove_first_fresh by done.
  rewrite (remove_first_found _ _ []) by done.
  rewrite (remove_first_found _ _ []) by done.
  rewrite !app_nil_r. done.
Qed.

Lemma removeCallback_round_trip_witness :
  removeCallback (listener 7) returning_visitor = (returning_visitor, Normal tt)
  ∧ removeCallback (listener 7) (onUpdate (listener 7) returning_visitor).1
    = (returning_visitor, Normal tt)
  ∧ removeCallback (listener 7) (onResourceError (listener 7) returning_visitor).1
    = (returning_visitor, Normal tt).
Proof.
  apply (removeCallback_round_trip returning_visitor (listener 7));
    apply (bool_decide_unpack _); reflexivity.
Defined.

(** *** The development switch *)

Lemma startVersionCheck_listeners w :
  listeners (startVersionCheck w).1 = listeners w.
Proof.
  unfold startVersionCheck, clearInterval, emit, console_. unmonad.
  destruct (skipped w); simpl; [done|].
  destruct (timer (this w)); done.
Qed.

Lemma init_listeners w :
  skipped w = false → listeners (init w).1 = listeners w ++ installed w.
Proof.
  intros Hs. unfold init. rewrite Hs.
  match goal with |- context [spawn recordInitialVersion ?w1] =>
    pose proof (recordInitialVersion_spawned w1) as (_ & _ & Hl & _);
    destruct (spawn recordInitialVersion w1) as [w2 fl] end.
  simpl in *. rewrite startVersionCheck_listeners, Hl.
  unfold installed, listenResourceErrors, listenVisibilityChange. unmonad.
  destruct (enableResourceErrorDetection _); simpl; by rewrite <- ?app_assoc.
Qed.

(** X4. [setDevelopmentMode(false)] runs [init] again: each call adds the
    'visibilitychange' listener and, with [enableResourceErrorDetection],
    the two window listeners once more, and none is ever removed, so two
    calls leave two more copies of each; the interval is replaced, not
    added to. *)
Theorem setDevelopmentMode_false_reinstalls (w : World) :
  let w1 := (setDevelopmentMode false w).1 in
  let w2 := (setDevelopmentMode false w1).1 in
  listeners w1 = listeners w ++ installed w
  ∧ listeners w2 = listeners w ++ installed w ++ installed w
  ∧ (tidy w → tidy w1 ∧ tidy w2).
Proof.
  intros w1 w2.
  assert (∀ v, listeners (setDevelopmentMode false v).1 = listeners v ++ installed v
               ∧ installed (setDevelopmentMode false v).1 = installed v
               ∧ (tidy v → tidy (setDevelopmentMode false v).1)) as H.
  { intros v. split_and!.
    - unfold setDevelopmentMode. rewrite init_listeners; [done|].
      unfold skipped, console_. unmonad. done.
    - unfold setDevelopmentMode, installed, init.
      match goal with |- context [if ?c then _ else _] => assert (c = false) as -> by done end.
      match goal with |- context [spawn recordInitialVersion ?v1] =>
        pose proof (recordInitialVersion_spawned v1) as (Hd & _);
        destruct (spawn recordInitialVersion v1) as [v2 fl] end.
      simpl in *.
      assert (options (this (startVersionCheck v2).1) = options (this v2)) as ->.
      { unfold startVersionCheck, clearInterval, emit, console_. unmonad.
        destruct (skipped v2); simpl; [done|]. destruct (timer (this v2)); done. }
      rewrite Hd. unfold listenResourceErrors, listenVisibilityChange, console_.
      unmonad. destruct (enableResourceErrorDetection (options (this v))) eqn:He; simpl; rewrite ?He; done.
    - intros Hv. by apply setDevelopmentMode_tidy. }
  destruct (H w) as (H1 & H2 & H3), (H w1) as (H4 & _ & H6). fold w1 in H1, H2, H3.
  fold w2 in H4, H6. split; [exact H1|]. split.
  - rewrite H4, H1, H2, <- app_assoc. done.
  - intros Hw. split; [by apply H3 | by apply H6, H3].
Qed.

(** X5. [setDevelopmentMode(true)] starts nothing, clears the interval and
    the [timer] field, and makes [isDevelopment()] return [true]; the
    listeners stay.  With [skipInDevelopment] set, every later
    [checkForUpdate] resolves [false] at once. *)
Theorem setDevelopmentMode_true_stops (w : World) :
  let w1 := (setDevelopmentMode true w).1 in
  (setDevelopmentMode true w).2 = []
  ∧ timer (this w1) = None
  ∧ (∀ h, timer (this w) = Some h → h ∉ intervals w1)
  ∧ isDevelopment w1 = (w1, Normal true)
  ∧ listeners w1 = listeners w
  ∧ (skipInDevelopment (options (this w)) = true →
     checkForUpdate w1 = Settled w1 (Normal false)).
Proof.
  intros w1. subst w1. unfold setDevelopmentMode, stopVersionCheck, clearInterval,
    emit, console_, isDevelopment. unmonad. simpl.
  destruct (timer (this w)) as [h|] eqn:Ht; simpl.
  - split_and!; try done.
    + intros h' [= <-] Hin. apply elem_of_difference in Hin as [_ Hn].
      by apply Hn, elem_of_singleton.
    + intros Hskip. unfold checkForUpdate, skipped. unmonad. simpl.
      rewrite Hskip. done.
  - rewrite Ht. split_and!; try done.
    intros Hskip. unfold checkForUpdate, skipped. unmonad. simpl.
    rewrite Hskip. done.
Qed.

Lemma setDevelopmentMode_true_stops_witness :
  timer (this polling) = Some 1%positive
  ∧ intervals (setDevelopmentMode true polling).1 = ∅
  ∧ checkForUpdate (setDevelopmentMode true polling).1
    = Settled (setDevelopmentMode true polling).1 (Normal false).
Proof.
  split; [reflexivity|]. split; [reflexivity|].
  apply (setDevelopmentMode_true_stops polling). reflexivity.
Defined.

(** *** The version record and the check *)

(** X6. With a fingerprint already stored under either key,
    [recordInitialVersion] resolves without suspending: it reads the two
    keys, sends no request and writes nothing. *)
Theorem recordInitialVersion_skips (w : World) :
  truthy (localStorage w !! app_index_etag) = true
  ∨ truthy (localStorage w !! app_index_last_modified) = true →
  ∃ w', recordInitialVersion w = Settled w' (Normal tt)
    ∧ localStorage w' = localStorage w
    ∧ trace w' = trace w ++ [GetItem app_index_etag; GetItem app_index_last_modified].
Proof.
  intros Hst. unfold recordInitialVersion, localStorage_getItem, emit, console_.
  unmonad. simpl.
  assert (truthy (localStorage w !! app_index_etag)
          || truthy (localStorage w !! app_index_last_modified) = true) as ->.
  { destruct Hst as [-> | ->]; [done | apply orb_true_r]. }
  eexists. split; [reflexivity|]. simpl. by rewrite <- app_assoc.
Qed.

Lemma recordInitialVersion_skips_witness :
  ∃ w', recordInitialVersion returning_visitor = Settled w' (Normal tt)
    ∧ localStorage w' = localStorage returning_visitor
    ∧ trace w' = trace returning_visitor
        ++ [GetItem app_index_etag; GetItem app_index_last_modified].
Proof. apply (recordInitialVersion_skips returning_visitor). left. reflexivity. Defined.

Lemma checkForUpdate_reads (w w' : World) (o : Oracle) :
  this w' = this w → localStorage w' = localStorage w →
  (run o (checkForUpdate w')).2 = (run o (checkForUpdate w)).2
  ∧ localStorage (run o (checkForUpdate w')).1
    = localStorage (run o (checkForUpdate w)).1.
Proof.
  intros Hd Hl.
  assert (skipped w' = skipped w) as Hsk by (unfold skipped; by rewrite Hd).
  destruct (skipped w) eqn:Hs.
  { unfold checkForUpdate. unmonad. rewrite Hsk, Hs. done. }
  destruct (isChecking (this w)) eqn:Hc.
  { rewrite (checkForUpdate_busy w Hc), (checkForUpdate_busy w'); [done|].
    by rewrite Hd. }
  assert (isChecking (this w') = false) as Hc' by by rewrite Hd.
  destruct (o _ (Fetch HeadIndexHtml)) as [resp|e] eqn:Ho.
  - destruct (ok resp) eqn:Hok.
    + destruct (checkForUpdate_resolved w o Hs Hc resp Ho Hok)
        as (wf & -> & _ & _ & Hst & _).
      destruct (checkForUpdate_resolved w' o Hsk Hc' resp Ho Hok)
        as (wf' & -> & _ & _ & Hst' & _).
      simpl. rewrite Hst, Hst', Hl. done.
    + destruct (checkForUpdate_not_ok w o Hs Hc resp Ho Hok)
        as (wf & -> & _ & _ & Hst & _).
      destruct (checkForUpdate_not_ok w' o Hsk Hc' resp Ho Hok)
        as (wf' & -> & _ & _ & Hst' & _).
      simpl. rewrite Hst, Hst', Hl. done.
  - destruct (checkForUpdate_rejected w o Hs Hc e Ho)
      as (wf & -> & _ & _ & Hst & _).
    destruct (checkForUpdate_rejected w' o Hsk Hc' e Ho)
      as (wf' & -> & _ & _ & Hst' & _).
    simpl. rewrite Hst, Hst', Hl. done.
Qed.

(** X8. A response whose [ok] is false (an HTTP error status) ends the
    check: it resolves [false], and [localStorage] is neither read nor
    written, no callback is called and the fields are as before.  The
    failed check costs nothing: whatever the network answers next, the next
    check resolves as it would have without it and leaves the same store. *)
Theorem http_error_is_ignored (w : World) (o : Oracle) (resp : Response) :
  skipped w = false → isChecking (this w) = false →
  o _ (Fetch HeadIndexHtml) = Normal resp → ok resp = false →
  ∃ wf, run o (checkForUpdate w) = (wf, Normal false)
    ∧ localStorage wf = localStorage w
    ∧ trace wf = trace w ++ [FetchSent HeadIndexHtml]
    ∧ this wf = this w
    ∧ ∀ o', (run o' (checkForUpdate wf)).2 = (run o' (checkForUpdate w)).2
          ∧ localStorage (run o' (checkForUpdate wf)).1
            = localStorage (run o' (checkForUpdate w)).1.
Proof.
  intros Hs Hc Ho Hok.
  destruct (checkForUpdate_not_ok w o Hs Hc resp Ho Hok)
    as (wf & Hrun & Hthis & _ & Hst & Htr).
  exists wf. split_and!; [done..|].
  intros o'. by apply checkForUpdate_reads.
Qed.

Lemma http_error_is_ignored_witness :
  ∃ wf, run unavailable (checkForUpdate returning_visitor) = (wf, Normal false)
    ∧ localStorage wf = localStorage returning_visitor
    ∧ trace wf = trace returning_visitor ++ [FetchSent HeadIndexHtml]
    ∧ this wf = this returning_visitor
    ∧ ∀ o', (run o' (checkForUpdate wf)).2
            = (run o' (checkForUpdate returning_visitor)).2
          ∧ localStorage (run o' (checkForUpdate wf)).1
            = localStorage (run o' (checkForUpdate returning_visitor)).1.
Proof.
  apply (http_error_is_ignored returning_visitor unavailable (mkResponse false ∅));
    reflexivity.
Defined.

Lemma same_headers_no_update (e l se sl : option string) :
  hasUpdate e l (if truthy e then e else se) (if truthy l then l else sl) = false.
Proof.
  unfold hasUpdate, strict_ne.
  destruct (truthy e), (truthy l); simpl;
    rewrite ?bool_decide_eq_true_2 by done; done.
Qed.

(** X10. After any successful check, a second check that sees the same two
    header values resolves [false], calls no callback and leaves the store
    as the first check left it: one deployment is notified at most once. *)
Theorem repeated_check_is_quiet (w : World) (o o' : Oracle) (resp resp' : Response) :
  skipped w = false → isChecking (this w) = false →
  o _ (Fetch HeadIndexHtml) = Normal resp → ok resp = true →
  o' _ (Fetch HeadIndexHtml) = Normal resp' → ok resp' = true →
  headers_get resp' "etag" = headers_get resp "etag" →
  headers_get resp' "last-modified" = headers_get resp "last-modified" →
  ∃ w1 b w2,
    run o (checkForUpdate w) = (w1, Normal b)
    ∧ run o' (checkForUpdate w1) = (w2, Normal false)
    ∧ notifications (trace w2) = notifications (trace w1)
    ∧ localStorage w2 = localStorage w1.
Proof.
  intros Hs Hc Ho Hok Ho' Hok' He Hl.
  destruct (checkForUpdate_resolved w o Hs Hc resp Ho Hok)
    as (w1 & Hrun & Hthis & _ & Hst & _).
  assert (skipped w1 = false) as Hs1 by (unfold skipped; rewrite Hthis; exact Hs).
  assert (isChecking (this w1) = false) as Hc1 by (rewrite Hthis; exact Hc).
  destruct (checkForUpdate_resolved w1 o' Hs1 Hc1 resp' Ho' Hok')
    as (w2 & Hrun2 & _ & _ & Hst2 & Htr2).
  apply notifications_fixed in Htr2; [|reflexivity].
  rewrite He, Hl in Hrun2, Hst2, Htr2.
  set (etag := headers_get resp "etag") in *.
  set (lm := headers_get resp "last-modified") in *.
  set (se := localStorage w !! app_index_etag) in *.
  set (sl := localStorage w !! app_index_last_modified) in *.
  set (first := nothingStored se sl) in *.
  set (changed := hasUpdate etag lm se sl) in *.
  assert (localStorage w1 !! app_index_etag
            = (if first || changed then (if truthy etag then etag else se) else se)
          ∧ localStorage w1 !! app_index_last_modified
            = (if first || changed then (if truthy lm then lm else sl) else sl))
    as [He1 Hl1].
  { rewrite Hst. destruct (first || changed); [|done]. split.
    - rewrite lookup_stored_ne by (symmetry; apply keys_distinct).
      apply lookup_stored.
    - by rewrite lookup_stored, lookup_stored_ne by apply keys_distinct. }
  assert (hasUpdate etag lm (localStorage w1 !! app_index_etag)
            (localStorage w1 !! app_index_last_modified) = false) as Hsame.
  { rewrite He1, Hl1. destruct (first || changed) eqn:Hfc.
    - apply same_headers_no_update.
    - apply orb_false_elim in Hfc as [_ Hch]. exact Hch. }
  rewrite Hsame, andb_false_r in Hrun2, Htr2. rewrite app_nil_r in Htr2.
  rewrite Hsame, orb_false_r in Hst2.
  exists w1, (negb first && changed), w2. split_and!; [done..|].
  rewrite Hst2.
  destruct (nothingStored (localStorage w1 !! app_index_etag) _) eqn:Hn; [|done].
  unfold nothingStored in Hn. rewrite He1, Hl1 in Hn.
  apply andb_true_iff in Hn as [Hn1 Hn2]. apply negb_true_iff in Hn1, Hn2.
  destruct (first || changed) eqn:Hfc.
  - assert (truthy etag = false) as Hte
      by (destruct (truthy etag) eqn:Ht; [rewrite Ht in Hn1|]; done).
    assert (truthy lm = false) as Htl
      by (destruct (truthy lm) eqn:Ht; [rewrite Ht in Hn2|]; done).
    by rewrite !stored_falsy.
  - apply orb_false_elim in Hfc as [Hf _]. subst first.
    unfold nothingStored in Hf. by rewrite Hn1, Hn2 in Hf.
Qed.

Lemma repeated_check_is_quiet_witness :
  ∃ w1 b w2,
    run (serving (Some "b") (Some "t1")) (checkForUpdate returning_visitor)
      = (w1, Normal b)
    ∧ run (serving (Some "b") (Some "t1")) (checkForUpdate w1) = (w2, Normal false)
    ∧ notifications (trace w2) = notifications (trace w1)
    ∧ localStorage w2 = localStorage w1.
Proof.
  apply (repeated_check_is_quiet returning_visitor
           (serving (Some "b") (Some "t1")) (serving (Some "b") (Some "t1"))
           (mkResponse true (fingerprint (Some "b") (Some "t1")))
           (mkResponse true (fingerprint (Some "b") (Some "t1"))));
    reflexivity.
Defined.

Lemma recordInitialVersion_resolved (w : World) (o : Oracle) (resp : Response) :
  truthy (localStorage w !! app_index_etag) = false →
  truthy (localStorage w !! app_index_last_modified) = false →
  o _ (Fetch HeadIndexHtml) = Normal resp → ok resp = true →
  ∃ w1, run o (recordInitialVersion w) = (w1, Normal tt)
    ∧ this w1 = this w
    ∧ localStorage w1
      = stored app_index_last_modified (headers_get resp "last-modified")
          (stored app_index_etag (headers_get resp "etag") (localStorage w))
    ∧ notifications (trace w1) = notifications (trace w).
Proof.
  intros He Hl Ho Hok.
  unfold recordInitialVersion, try_catch_async, fetch,
    localStorage_getItem, emit, await, console_. unmonad. simpl.
  rewrite He, Hl. simpl. rewrite Ho. simpl. rewrite Hok. simpl.
  unfold if_truthy, localStorage_setItem, emit, stored. unmonad.
  destruct (headers_get resp "etag") as [e|],
           (headers_get resp "last-modified") as [l|]; simpl;
    repeat (match goal with |- context [negb ?b] => destruct (negb b) end; simpl);
    (eexists; split; [reflexivity|]; simpl;
     rewrite !notifications_app; simpl; rewrite ?app_nil_r; done).
Qed.

(** X11. On an empty store, [recordInitialVersion] stores the header values
    that are present and non-empty; if there is one, the check that follows
    resolves [true] exactly when a fetched header has a non-empty value that
    is not the one recorded. *)
Theorem initial_record_arms_first_check
    (w : World) (o o' : Oracle) (resp resp' : Response) :
  skipped w = false → isChecking (this w) = false →
  localStorage w !! app_index_etag = None →
  localStorage w !! app_index_last_modified = None →
  o _ (Fetch HeadIndexHtml) = Normal resp → ok resp = true →
  o' _ (Fetch HeadIndexHtml) = Normal resp' → ok resp' = true →
  let recorded (h : option string) := if truthy h then h else None in
  let etag := recorded (headers_get resp "etag") in
  let lastModified := recorded (headers_get resp "last-modified") in
  is_Some etag ∨ is_Some lastModified →
  ∃ w1 w2 b,
    run o (recordInitialVersion w) = (w1, Normal tt)
    ∧ localStorage w1 !! app_index_etag = etag
    ∧ localStorage w1 !! app_index_last_modified = lastModified
    ∧ run o' (checkForUpdate w1) = (w2, Normal b)
    ∧ (b = true ↔ differs (headers_get resp' "etag") etag
                  ∨ differs (headers_get resp' "last-modified") lastModified).
Proof.
  intros Hs Hc He Hl Ho Hok Ho' Hok' recorded etag lastModified Hsome.
  destruct (recordInitialVersion_resolved w o resp) as (w1 & Hrun & Hthis & Hst & _);
    [by rewrite He | by rewrite Hl | done..|].
  assert (localStorage w1 !! app_index_etag = etag) as He1.
  { rewrite Hst, lookup_stored_ne by (symmetry; apply keys_distinct).
    by rewrite lookup_stored, He. }
  assert (localStorage w1 !! app_index_last_modified = lastModified) as Hl1.
  { rewrite Hst, lookup_stored, lookup_stored_ne by apply keys_distinct.
    by rewrite Hl. }
  assert (skipped w1 = false) as Hs1 by (unfold skipped; rewrite Hthis; exact Hs).
  assert (isChecking (this w1) = false) as Hc1 by (rewrite Hthis; exact Hc).
  destruct (checkForUpdate_resolved w1 o' Hs1 Hc1 resp' Ho' Hok')
    as (w2 & Hrun2 & _).
  rewrite He1, Hl1 in Hrun2.
  assert (nothingStored etag lastModified = false) as Hn.
  { unfold nothingStored. subst etag lastModified recorded. simpl in *.
    destruct (truthy (headers_get resp "etag")) eqn:H1; [by rewrite H1|].
    destruct (truthy (headers_get resp "last-modified")) eqn:H2;
      [rewrite H2; apply andb_false_r|].
    destruct Hsome as [[? ?]|[? ?]]; done. }
  rewrite Hn in Hrun2. simpl in Hrun2.
  eexists w1, w2, _. split_and!; [done..|]. apply hasUpdate_spec.
Qed.

Lemma initial_record_arms_first_check_witness :
  ∃ w1 w2 b,
    run (serving (Some "a") (Some "t1")) (recordInitialVersion first_visitor)
      = (w1, Normal tt)
    ∧ localStorage w1 !! app_index_etag = Some "a"
    ∧ localStorage w1 !! app_index_last_modified = Some "t1"
    ∧ run (serving (Some "b") (Some "t1")) (checkForUpdate w1) = (w2, Normal b)
    ∧ (b = true ↔ differs (Some "b") (Some "a") ∨ differs (Some "t1") (Some "t1")).
Proof.
  apply (initial_record_arms_first_check first_visitor
           (serving (Some "a") (Some "t1")) (serving (Some "b") (Some "t1"))
           (mkResponse true (fingerprint (Some "a") (Some "t1")))
           (mkResponse true (fingerprint (Some "b") (Some "t1"))));
    try reflexivity.
  left. by eexists.
Defined.

(** *** Resource errors *)

Lemma run_abind {W A B} (o : Oracle) (f : A → Task W B) (p : Async W A) :
  run o (abind f p)
  = match run o p with
    | (w', Normal a) => run o (f a w')
    | (w', Throw e) => (w', Throw e)
    end.
Proof.
  induction p as [w [a|e]|X w a k IH]; simpl; [done..|]. apply IH.
Qed.

Lemma resource_loop_notifications (element : option Element) (w : World) :
  ∃ w', forEach (onResourceErrorCallbacks (this w)) (λ callback,
          try_catch (call callback (ElementArg element))
                    (λ _, console_ error "Resource error callback error:")) w
        = (w', Normal tt)
    ∧ notifications (trace w') = notifications (trace w)
        ++ ((λ cb, (cb_id cb, ElementArg element)) <$> onResourceErrorCallbacks (this w))
    ∧ this w' = this w.
Proof.
  destruct (callbacks_loop (ElementArg element) "Resource error callback error:"
              (onResourceErrorCallbacks (this w)) w) as (w' & Hrun & Ht & Hd & _).
  exists w'. rewrite Ht, notifications_app, notifications_calls. done.
Qed.

Lemma handleResourceError_detects
    (w : World) (o : Oracle) (element : option Element) (resp : Response) :
  skipped w = false → isChecking (this w) = false →
  o _ (Delay 1000) = Normal tt →
  o _ (Fetch HeadIndexHtml) = Normal resp → ok resp = true →
  nothingStored (localStorage w !! app_index_etag)
    (localStorage w !! app_index_last_modified) = false →
  hasUpdate (headers_get resp "etag") (headers_get resp "last-modified")
    (localStorage w !! app_index_etag)
    (localStorage w !! app_index_last_modified) = true →
  ∃ wf, run o (handleResourceError element w) = (wf, Normal tt)
    ∧ notifications (trace wf) = notifications (trace w)
        ++ ((λ cb, (cb_id cb, ReasonArg redeploy)) <$> onUpdateCallbacks (this w))
        ++ ((λ cb, (cb_id cb, ElementArg element))
              <$> onResourceErrorCallbacks (this w)).
Proof.
  intros Hs Hc Hd Ho Hok Hn Hch.
  destruct (checkForUpdate_resolved w o Hs Hc resp Ho Hok)
    as (w1 & Hrun & Hthis & _ & _ & Htr).
  apply notifications_fixed in Htr; [|reflexivity].
  rewrite Hn, Hch in Hrun, Htr. simpl in Hrun, Htr.
  unfold handleResourceError, await. unmonad. rewrite Hs.
  with_strategy opaque [checkForUpdate] (simpl; rewrite Hd; simpl).
  rewrite run_abind, Hrun.
  destruct (resource_loop_notifications element w1) as (wf & -> & Htf & _).
  simpl. exists wf. split; [done|].
  rewrite Htf, Htr, Hthis, <- app_assoc. done.
Qed.

(** X13. A resource error handled while a check is in flight is dropped: the
    nested [checkForUpdate] resolves [false] at once, so no request is sent
    and no callback is called. *)
Theorem resource_error_during_check_is_dropped
    (w : World) (o : Oracle) (element : option Element) :
  isChecking (this w) = true →
  o _ (Delay 1000) = Normal tt →
  ∃ wf, run o (handleResourceError element w) = (wf, Normal tt)
    ∧ trace wf = trace w.
Proof.
  intros Hc Hd. unfold handleResourceError, await, console_. unmonad.
  destruct (skipped w) eqn:Hs; simpl; [by eexists|].
  with_strategy opaque [checkForUpdate] (simpl; rewrite Hd; simpl).
  rewrite (checkForUpdate_busy w Hc). simpl. by eexists.
Qed.

Lemma resource_error_during_check_is_dropped_witness :
  ∃ wf, run (serving (Some "b") (Some "t1"))
            (handleResourceError (Some "script") busy) = (wf, Normal tt)
    ∧ trace wf = trace busy.
Proof.
  apply (resource_error_during_check_is_dropped busy
           (serving (Some "b") (Some "t1")) (Some "script")); reflexivity.
Defined.

End DetectorLifecycle.

(** ** Notification and check with callbacks that call back *)

Module ReentrantFacts.
Import Js JsFacts Detector DetectorScenarios DetectorFacts Reentrant ReentrantCases.

(** *** The walk returns *)

Lemma within_returns {A} (m : Sync World A) (s : Walk) a :
  (m s.1).2 = Normal a → (within m s).2 = Normal a.
Proof. unfold within. by destruct (m s.1). Qed.

Lemma reenter_returns which (r : Reentry) (s : Walk) :
  (reenter which r s).2 = Normal tt.
Proof.
  destruct r; simpl; try done.
  - apply within_returns. unfold stopVersionCheck, clearInterval, emit. unmonad.
    by destruct (timer (this s.1)).
  - unmonad. simpl. apply within_returns. simpl.
    by destruct (detector_destroy_twice s.1) as (w1 & -> & _).
Qed.

Lemma body_returns which (calls : list Reentry) (s : Walk) :
  (Js.forEach calls (reenter which) s).2 = Normal tt.
Proof.
  revert s. induction calls as [|r calls IH]; intros s; [done|].
  simpl. unfold sbind. pose proof (reenter_returns which r s) as Hr.
  destruct (reenter which r s) as [s' c]. simpl in Hr. subst c. apply IH.
Qed.

Lemma guarded_returns host which cb arg msg s :
  try_catch (call host which cb arg) (λ _, within (console_ error msg)) s
  = (after_call host which cb arg msg s, Normal tt).
Proof.
  unfold after_call, try_catch, call. unmonad. unfold within at 1, emit. unmonad.
  simpl.
  match goal with |- context [Js.forEach ?l (reenter which) ?s1] =>
    pose proof (body_returns which l s1) as Hb;
    destruct (Js.forEach l (reenter which) s1) as [s2 c] end.
  simpl in Hb. subst c. by destruct (cb_call cb arg).
Qed.

Lemma visit_returns host which arg msg count k s :
  (visit host which arg msg count k s).2 = Normal tt.
Proof.
  revert k s. induction count as [|count IH]; intros k s; [done|].
  simpl. unmonad. simpl. destruct (walked which s !! k) as [cb|]; simpl.
  - rewrite guarded_returns. apply IH.
  - apply IH.
Qed.

Lemma forEachLive_returns host which arg msg w :
  (forEachLive host which arg msg w).2 = Normal tt.
Proof.
  unfold forEachLive.
  match goal with |- context [visit host which arg msg ?c 0 ?s] =>
    pose proof (visit_returns host which arg msg c 0 s) as Hr;
    destruct (visit host which arg msg c 0 s) as [s' c'] end.
  exact Hr.
Qed.

(** *** What the methods called during a walk leave alone *)

Lemma started_checkForUpdate_quiet (w : World) :
  let w' := (spawn Detector.checkForUpdate w).1 in
  onUpdateCallbacks (this w') = onUpdateCallbacks (this w)
  ∧ onResourceErrorCallbacks (this w') = onResourceErrorCallbacks (this w)
  ∧ notifications (trace w') = notifications (trace w)
  ∧ localStorage w' = localStorage w.
Proof.
  unfold spawn. destruct (skipped w) eqn:Hs.
  { unfold Detector.checkForUpdate. unmonad. by rewrite Hs. }
  destruct (isChecking (this w)) eqn:Hc.
  { by rewrite (checkForUpdate_busy w Hc). }
  step_checkForUpdate Hs Hc. split_and!; [done..| |done].
  rewrite notifications_app. apply app_nil_r.
Qed.

Lemma setDevelopmentMode_quiet (isDev : bool) (w : World) :
  let w' := (setDevelopmentMode isDev w).1 in
  onUpdateCallbacks (this w') = onUpdateCallbacks (this w)
  ∧ onResourceErrorCallbacks (this w') = onResourceErrorCallbacks (this w)
  ∧ notifications (trace w') = notifications (trace w)
  ∧ localStorage w' = localStorage w.
Proof.
  unfold setDevelopmentMode. destruct isDev.
  - unfold stopVersionCheck, clearInterval, emit, console_. unmonad. simpl.
    destruct (timer (this w)); simpl; [|done].
    split_and!; [done..| |done]. rewrite notifications_app. apply app_nil_r.
  - unfold init, skipped, console_. unmonad. simpl.
    unfold spawn, recordInitialVersion, try_catch_async, fetch,
      localStorage_getItem, emit, await, console_, listenResourceErrors,
      listenVisibilityChange. unmonad. simpl.
    destruct (enableResourceErrorDetection (options (this w))); simpl;
      destruct (truthy (localStorage w !! app_index_etag)
                || truthy (localStorage w !! app_index_last_modified)); simpl;
      unfold startVersionCheck, skipped, clearInterval, emit, console_;
      unmonad; simpl;
      destruct (timer (this w)); simpl;
      rewrite ?notifications_app; simpl; rewrite ?app_nil_r; done.
Qed.

(** Every method leaves the store as it is; the methods other than
    [removeCallback], [onResourceError] and [destroy] leave the registry of
    resource-error callbacks as it is. *)
Lemma reenter_frame which (r : Reentry) (s : Walk) :
  localStorage (reenter which r s).1.1 = localStorage s.1
  ∧ (edits r = false →
     onResourceErrorCallbacks (this (reenter which r s).1.1)
     = onResourceErrorCallbacks (this s.1)).
Proof.
  destruct s as [w d]. destruct r; simpl; try done.
  - destruct (started_checkForUpdate_quiet w) as (_ & Hr & _ & Hl).
    unfold within, started. unmonad. simpl. done.
  - unfold within, stopVersionCheck, clearInterval, emit. unmonad. simpl.
    by destruct (timer (this w)).
  - unmonad. unfold within, destroy, stopVersionCheck, clearInterval, emit.
    unmonad. simpl. by destruct (timer (this w)).
  - destruct (setDevelopmentMode_quiet isDev w) as (_ & Hr & _ & Hl).
    unfold within. unmonad. simpl. done.
Qed.

(** A method other than [removeCallback] leaves the entries of the walked
    array where they are, and calls no registered function. *)
Lemma reenter_keeps which (l0 : list Callback) (r : Reentry) (s : Walk) :
  removes r = false → l0 `prefix_of` walked which s →
  l0 `prefix_of` walked which (reenter which r s).1
  ∧ notifications (trace (reenter which r s).1.1) = notifications (trace s.1).
Proof.
  intros Hr Hp. destruct s as [w d].
  destruct r; simpl in *; try done; unfold walked in *; simpl in *.
  - split; [|done]. destruct d; simpl in *; [done|].
    destruct which; simpl in *; [by apply prefix_app_r | done].
  - split; [|done]. destruct d; simpl in *; [done|].
    destruct which; simpl in *; [done | by apply prefix_app_r].
  - destruct (started_checkForUpdate_quiet w) as (Hu & Hre & Hn & _).
    unfold within, started. unmonad. simpl.
    split; [|done]. destruct d; simpl in *; [done|].
    destruct which; simpl in *; by rewrite ?Hu, ?Hre.
  - unfold within, stopVersionCheck, clearInterval, emit. unmonad. simpl.
    destruct (timer (this w)); simpl; [|done].
    split; [by destruct which|]. rewrite notifications_app. apply app_nil_r.
  - unmonad. unfold within, destroy, stopVersionCheck, clearInterval, emit.
    unmonad. simpl.
    destruct (timer (this w)); simpl; (split; [done|]); [|done].
    rewrite notifications_app. apply app_nil_r.
  - destruct (setDevelopmentMode_quiet isDev w) as (Hu & Hre & Hn & _).
    unfold within. unmonad. simpl.
    split; [|done]. destruct d; simpl in *; [done|].
    destruct which; simpl in *; by rewrite ?Hu, ?Hre.
Qed.

(** *** What a walk preserves *)

Section Preserved.
Context (P : World → Prop) (Q : Reentry → Prop) (host : Host) (which : Registry).
Hypothesis P_trace : ∀ w f, P w → P (set_trace f w).
Hypothesis P_console : ∀ w f, P w → P (set_console f w).
Hypothesis P_reenter : ∀ r s, Q r → P s.1 → P (reenter which r s).1.1.
Hypothesis host_Q : ∀ w id arg, Forall Q (host w id arg).

Lemma body_preserves (calls : list Reentry) (s : Walk) :
  Forall Q calls → P s.1 → P (Js.forEach calls (reenter which) s).1.1.
Proof.
  intros Hc. revert s. induction Hc as [|r calls Hr Hc IH]; intros s Hp; [done|].
  simpl. unfold sbind.
  pose proof (P_reenter r s Hr Hp) as Hp1.
  pose proof (reenter_returns which r s) as Hret.
  destruct (reenter which r s) as [s1 c]. simpl in *. subst c. by apply IH.
Qed.

Lemma after_call_preserves cb arg msg (s : Walk) :
  P s.1 → P (after_call host which cb arg msg s).1.
Proof.
  intros Hp. unfold after_call, try_catch, call. unmonad.
  unfold within at 1, emit. unmonad. simpl.
  match goal with |- context [Js.forEach ?l (reenter which) ?s1] =>
    pose proof (body_preserves l s1 (host_Q _ _ _)) as Hp1;
    pose proof (body_returns which l s1) as Hb;
    destruct (Js.forEach l (reenter which) s1) as [s2 c] end.
  simpl in *. subst c. specialize (Hp1 (P_trace _ _ Hp)).
  destruct (cb_call cb arg); simpl; [|done].
  unfold within, console_. unmonad. simpl. by apply P_console.
Qed.

Lemma visit_preserves arg msg count k (s : Walk) :
  P s.1 → P (visit host which arg msg count k s).1.1.
Proof.
  revert k s. induction count as [|count IH]; intros k s Hp; [done|].
  simpl. unmonad. simpl. destruct (walked which s !! k) as [cb|]; simpl.
  - rewrite guarded_returns. apply IH. by apply after_call_preserves.
  - by apply IH.
Qed.

Lemma forEachLive_preserves arg msg (w : World) :
  P w → P (forEachLive host which arg msg w).1.
Proof.
  intros Hp. unfold forEachLive.
  match goal with |- context [visit host which arg msg ?c 0 ?s] =>
    pose proof (visit_preserves arg msg c 0 s Hp) as Hv;
    destruct (visit host which arg msg c 0 s) as [s' c'] end.
  exact Hv.
Qed.

End Preserved.


(** The store is as it was after a walk, whatever the functions call. *)
Lemma forEachLive_store host which arg msg (w : World) :
  localStorage (forEachLive host which arg msg w).1 = localStorage w.
Proof.
  apply (forEachLive_preserves (λ w', localStorage w' = localStorage w)
           (λ _, True) host which); try done.
  - intros r s _ Hp. by rewrite (proj1 (reenter_frame which r s)).
  - intros w0 id a. by apply Forall_true.
Qed.

Lemma forEachLive_registry host which arg msg (w : World) :
  keeps_registry host →
  onResourceErrorCallbacks (this (forEachLive host which arg msg w).1)
  = onResourceErrorCallbacks (this w).
Proof.
  intros Hh.
  apply (forEachLive_preserves
           (λ w', onResourceErrorCallbacks (this w') = onResourceErrorCallbacks (this w))
           (λ r, edits r = false) host which); try done.
  intros r s Hr Hp. by rewrite (proj2 (reenter_frame which r s) Hr).
Qed.

(** *** What a walk without removals calls *)

Lemma body_keeps which (l0 : list Callback) (calls : list Reentry) (s : Walk) :
  Forall (λ r, removes r = false) calls → l0 `prefix_of` walked which s →
  l0 `prefix_of` walked which (Js.forEach calls (reenter which) s).1
  ∧ notifications (trace (Js.forEach calls (reenter which) s).1.1)
    = notifications (trace s.1).
Proof.
  intros Hc. revert s. induction Hc as [|r calls Hr Hc IH]; intros s Hp; [done|].
  simpl. unfold sbind.
  destruct (reenter_keeps which l0 r s Hr Hp) as [Hp1 Hn1].
  pose proof (reenter_returns which r s) as Hret.
  destruct (reenter which r s) as [s1 c]. simpl in *. subst c.
  destruct (IH s1 Hp1) as [Hp2 Hn2]. by rewrite Hn2.
Qed.

Lemma after_call_keeps (host : Host) which (l0 : list Callback) cb arg msg
    (s : Walk) :
  keeps_entries host → l0 `prefix_of` walked which s →
  l0 `prefix_of` walked which (after_call host which cb arg msg s)
  ∧ notifications (trace (after_call host which cb arg msg s).1)
    = notifications (trace s.1) ++ [(cb_id cb, arg)].
Proof.
  intros Hh Hp. unfold after_call, try_catch, call. unmonad.
  unfold within at 1, emit. unmonad. simpl.
  match goal with |- context [Js.forEach ?l (reenter which) ?s1] =>
    destruct (body_keeps which l0 l s1) as [Hp1 Hn1]; [apply Hh | exact Hp |];
    pose proof (body_returns which l s1) as Hb;
    destruct (Js.forEach l (reenter which) s1) as [s2 c] end.
  simpl in *. subst c. rewrite notifications_app in Hn1. simpl in Hn1.
  destruct (cb_call cb arg); simpl; [|done].
  unfold within, console_, walked in *. unmonad. simpl.
  split; [|done]. by destruct which.
Qed.

Lemma visit_calls (host : Host) which (l0 : list Callback) arg msg count k
    (s : Walk) :
  keeps_entries host → l0 `prefix_of` walked which s →
  (k + count = length l0)%nat →
  notifications (trace (visit host which arg msg count k s).1.1)
  = notifications (trace s.1) ++ ((λ cb, (cb_id cb, arg)) <$> drop k l0).
Proof.
  intros Hh. revert k s. induction count as [|count IH]; intros k s Hp Hk.
  - simpl. rewrite drop_ge by lia. by rewrite app_nil_r.
  - simpl. unmonad. simpl.
    destruct (l0 !! k) as [cb|] eqn:Hcb;
      [|apply lookup_ge_None in Hcb; lia].
    rewrite (prefix_lookup_Some _ _ _ _ Hcb Hp). simpl.
    rewrite guarded_returns.
    destruct (after_call_keeps host which l0 cb arg msg s Hh Hp) as [Hp1 Hn1].
    rewrite IH by (done || lia). rewrite Hn1, <- app_assoc.
    by rewrite (drop_S _ _ _ Hcb).
Qed.

Lemma forEachLive_calls (host : Host) which arg msg (w : World) :
  keeps_entries host →
  notifications (trace (forEachLive host which arg msg w).1)
  = notifications (trace w) ++ ((λ cb, (cb_id cb, arg)) <$> registry which w).
Proof.
  intros Hh. unfold forEachLive.
  match goal with |- context [visit host which arg msg ?c 0 ?s] =>
    pose proof (visit_calls host which (registry which w) arg msg c 0 s Hh) as Hv;
    destruct (visit host which arg msg c 0 s) as [s' c'] end.
  simpl in *. by apply Hv.
Qed.

(** *** Functions that only return or throw *)

Lemma visit_silent host which arg msg count k (w : World) :
  silent host →
  count = length (drop k (registry which w)) →
  visit host which arg msg count k (w, None)
  = let (w', c) := Js.forEach (drop k (registry which w))
                     (λ callback,
                        try_catch (Detector.call callback arg)
                                  (λ _, console_ error msg)) w in
    ((w', None), c).
Proof.
  intros Hh. revert k w. induction count as [|count IH]; intros k w Hc.
  - symmetry in Hc. apply length_zero_iff_nil in Hc. by rewrite Hc.
  - destruct (registry which w !! k) as [cb|] eqn:Hcb.
    2:{ apply lookup_ge_None in Hcb. rewrite drop_ge in Hc by done. done. }
    rewrite (drop_S _ _ _ Hcb) in *. simpl in Hc. injection Hc as Hc.
    simpl. unmonad. unfold walked. simpl. rewrite Hcb. simpl.
    rewrite guarded_call.
    assert (try_catch (call host which cb arg)
              (λ _, within (console_ error msg)) (w, None)
            = ((guarded cb arg msg w, None), Normal tt)) as ->.
    { unfold try_catch, call, within, emit, console_, guarded. unmonad.
      simpl. rewrite Hh. simpl. by destruct (cb_call cb arg). }
    assert (registry which (guarded cb arg msg w) = registry which w) as Hsame.
    { unfold guarded. by destruct which, (cb_call cb arg). }
    rewrite IH by (by rewrite Hsame). by rewrite Hsame.
Qed.

Lemma forEachLive_silent host which arg msg (w : World) :
  silent host →
  forEachLive host which arg msg w
  = Js.forEach (registry which w)
      (λ callback,
         try_catch (Detector.call callback arg) (λ _, console_ error msg)) w.
Proof.
  intros Hh. unfold forEachLive.
  rewrite (visit_silent host which arg msg _ 0 w Hh) by done.
  simpl. by destruct (Js.forEach _ _ _).
Qed.

Lemma notifyUpdate_silent host (reason : UpdateReason) (w : World) :
  silent host → notifyUpdate host reason w = Detector.notifyUpdate reason w.
Proof.
  intros Hh. unfold notifyUpdate, Detector.notifyUpdate. unmonad.
  unfold console_ at 1 2. unmonad. simpl.
  by rewrite forEachLive_silent.
Qed.

Lemma notifyUpdate_inert (reason : UpdateReason) (w : World) :
  notifyUpdate inert reason w = Detector.notifyUpdate reason w.
Proof. by apply notifyUpdate_silent. Qed.

(** [notifyUpdate], whatever the functions call. *)
Lemma notifyUpdate_live host (reason : UpdateReason) (w : World) :
  ∃ w', notifyUpdate host reason w = (w', Normal tt)
    ∧ localStorage w' = localStorage w
    ∧ (keeps_entries host →
       notifications (trace w') = notifications (trace w)
         ++ ((λ cb, (cb_id cb, ReasonArg reason)) <$> onUpdateCallbacks (this w)))
    ∧ (keeps_registry host →
       onResourceErrorCallbacks (this w') = onResourceErrorCallbacks (this w)).
Proof.
  unfold notifyUpdate. unmonad. unfold console_ at 1. unmonad. simpl.
  match goal with |- context [forEachLive host ?wh ?arg ?msg ?w1] =>
    pose proof (forEachLive_returns host wh arg msg w1) as Hr;
    pose proof (forEachLive_store host wh arg msg w1) as Hl;
    pose proof (forEachLive_calls host wh arg msg w1) as Hn;
    pose proof (forEachLive_registry host wh arg msg w1) as Hre;
    destruct (forEachLive host wh arg msg w1) as [w' c] end.
  simpl in *. subst c. exists w'. done.
Qed.

(** *** The check, with functions that call back *)

Ltac step_live Hs Hc :=
  unfold checkForUpdate, checkVersionByIndex, fetch, try_finally_async,
    try_catch_async, localStorage_getItem, emit, await;
  unmonad; rewrite Hs; simpl; rewrite Hc; simpl.

Lemma checkForUpdate_live_skipped host (w : World) :
  skipped w = true → checkForUpdate host w = Settled w (Normal false).
Proof. intros Hs. unfold checkForUpdate. unmonad. by rewrite Hs. Qed.

Lemma checkForUpdate_live_busy host (w : World) :
  isChecking (this w) = true → checkForUpdate host w = Settled w (Normal false).
Proof.
  intros Hc. unfold checkForUpdate. unmonad.
  destruct (skipped w); simpl; [reflexivity|]. rewrite Hc. reflexivity.
Qed.

(** Up to the notification the check does not run the host's code. *)
Lemma checkForUpdate_live_unanswered host (w : World) (o : Oracle) :
  skipped w = false → isChecking (this w) = false →
  match o _ (Fetch HeadIndexHtml) with
  | Normal resp => ok resp = false
  | Throw _ => True
  end →
  run o (checkForUpdate host w) = run o (Detector.checkForUpdate w).
Proof.
  intros Hs Hc Ho. step_live Hs Hc. step_checkForUpdate Hs Hc.
  destruct (o _ (Fetch HeadIndexHtml)) as [resp|e]; simpl; [|done].
  by rewrite Ho.
Qed.

(** The fetch resolves with [response.ok]: the state when the notification
    begins, and the result. *)
Lemma checkForUpdate_live_resolved host (w : World) (o : Oracle) resp :
  skipped w = false → isChecking (this w) = false →
  o _ (Fetch HeadIndexHtml) = Normal resp → ok resp = true →
  let etag := headers_get resp "etag" in
  let lastModified := headers_get resp "last-modified" in
  let storedEtag := localStorage w !! app_index_etag in
  let storedLastModified := localStorage w !! app_index_last_modified in
  let first := nothingStored storedEtag storedLastModified in
  let changed := hasUpdate etag lastModified storedEtag storedLastModified in
  ∃ w2, this w2 = set_isChecking true (this w)
    ∧ intervals w2 = intervals w
    ∧ localStorage w2 =
        (if first || changed
         then stored app_index_last_modified lastModified
                (stored app_index_etag etag (localStorage w))
         else localStorage w)
    ∧ notifications (trace w2) = notifications (trace w)
    ∧ run o (checkForUpdate host w)
      = (set_this (set_isChecking false)
           (if negb first && changed
            then (notifyUpdate host redeploy w2).1 else w2),
         Normal (negb first && changed)).
Proof.
  intros Hs Hc Ho Hok etag lastModified storedEtag storedLastModified first changed.
  step_live Hs Hc. rewrite Ho. simpl. rewrite Hok. simpl.
  fold etag lastModified storedEtag storedLastModified. fold first changed.
  destruct first; simpl.
  - rewrite !persist_step. simpl.
    match goal with |- context [persisted ?k2 ?v2 (persisted ?k1 ?v1 ?w1)] =>
      destruct (persisted_fields k1 v1 w1) as (Hd1 & Hi1 & Hl1 & Ht1);
      destruct (persisted_fields k2 v2 (persisted k1 v1 w1)) as (Hd2 & Hi2 & Hl2 & Ht2);
      exists (persisted k2 v2 (persisted k1 v1 w1))
    end.
    rewrite Hd2, Hd1, Hi2, Hi1, Hl2, Hl1, Ht2, Ht1. simpl.
    split_and!; try done.
    rewrite !notifications_app, !notifications_writes. simpl.
    by rewrite !app_nil_r.
  - destruct changed; simpl.
    + rewrite !persist_step. simpl.
      match goal with |- context [notifyUpdate host ?r ?w2] =>
        destruct (notifyUpdate_live host r w2) as (w3 & Hrun & _);
        exists w2; rewrite Hrun end.
      match goal with |- context [persisted ?k2 ?v2 (persisted ?k1 ?v1 ?w1)] =>
        destruct (persisted_fields k1 v1 w1) as (Hd1 & Hi1 & Hl1 & Ht1);
        destruct (persisted_fields k2 v2 (persisted k1 v1 w1)) as (Hd2 & Hi2 & Hl2 & Ht2)
      end.
      simpl. rewrite Hd2, Hd1, Hi2, Hi1, Hl2, Hl1, Ht2, Ht1. simpl.
      split_and!; try done.
      rewrite !notifications_app, !notifications_writes. simpl.
      by rewrite !app_nil_r.
    + eexists. split_and!; [| | | |reflexivity]; simpl; try done.
      rewrite !notifications_app. simpl. by rewrite !app_nil_r.
Qed.

(** With functions that only return or throw, the two models of the check
    agree. *)
Lemma checkForUpdate_silent host (w : World) (o : Oracle) :
  silent host →
  run o (checkForUpdate host w) = run o (Detector.checkForUpdate w).
Proof.
  intros Hh. destruct (skipped w) eqn:Hs.
  { rewrite (checkForUpdate_live_skipped host w Hs).
    unfold Detector.checkForUpdate. unmonad. by rewrite Hs. }
  destruct (isChecking (this w)) eqn:Hc.
  { by rewrite (checkForUpdate_live_busy host w Hc), (checkForUpdate_busy w Hc). }
  step_live Hs Hc. step_checkForUpdate Hs Hc.
  destruct (o _ (Fetch HeadIndexHtml)) as [resp|e]; simpl; [|done].
  destruct (ok resp); simpl; [|done].
  destruct (nothingStored _ _); simpl; [by rewrite !persist_step|].
  destruct (hasUpdate _ _ _ _); simpl; [|done].
  rewrite !persist_step. simpl. rewrite !notifyUpdate_silent by done.
  match goal with |- context [Detector.notifyUpdate ?r ?w2] =>
    destruct (notifyUpdate_spec r w2) as (w3 & -> & _) end.
  done.
Qed.

Lemma handleResourceError_silent host element (w : World) (o : Oracle) :
  silent host →
  run o (handleResourceError host element w)
  = run o (Detector.handleResourceError element w).
Proof.
  intros Hh. unfold handleResourceError, Detector.handleResourceError, await.
  unmonad. destruct (skipped w); [done|].
  with_strategy opaque [checkForUpdate Detector.checkForUpdate] simpl.
  destruct (o _ (Delay 1000)) as [[]|e];
    with_strategy opaque [checkForUpdate Detector.checkForUpdate] simpl; [|done].
  rewrite !DetectorLifecycle.run_abind, (checkForUpdate_silent host w o Hh).
  destruct (run o (Detector.checkForUpdate w)) as [w1 [[]|e]]; simpl; try done.
  by rewrite forEachLive_silent.
Qed.

(** *** The notification *)

(** C7, as amended.  [onUpdate] appends to the registry.  [notifyUpdate]
    returns normally whatever the registered functions do: throw, or call
    the detector's public methods ([onUpdate], [onResourceError],
    [removeCallback], [checkForUpdate], [stopVersionCheck], [destroy],
    [setDevelopmentMode]).  If none of them calls [removeCallback] while
    the notification runs, every function that was registered when it began
    is called exactly once, in registration order, whichever of them throw
    (a function registered during the notification is not called in it). *)
Theorem callback_isolation (host : Host) (reason : UpdateReason) (w : World) :
  (∀ callback, ∃ w',
     onUpdate callback w = (w', Normal tt)
     ∧ onUpdateCallbacks (this w') = onUpdateCallbacks (this w) ++ [callback])
  ∧ (notifyUpdate host reason w).2 = Normal tt
  ∧ (keeps_entries host →
     notifications (trace (notifyUpdate host reason w).1)
     = notifications (trace w)
       ++ ((λ cb, (cb_id cb, ReasonArg reason)) <$> onUpdateCallbacks (this w))).
Proof.
  split; [|split].
  - intros callback. eexists. split; reflexivity.
  - by destruct (notifyUpdate_live host reason w) as (w' & -> & _).
  - intros Hh.
    destruct (notifyUpdate_live host reason w) as (w' & -> & _ & Hn & _).
    by apply Hn.
Qed.

(** The first function throws; the second calls [destroy], registers
    another function, starts a check, switches the development mode and
    stops the timer: both are called, and the call returns. *)
Lemma callback_isolation_witness :
  (notifyUpdate unruly redeploy returning_visitor).2 = Normal tt
  ∧ notifications (trace (notifyUpdate unruly redeploy returning_visitor).1)
    = [(1%nat, ReasonArg redeploy); (2%nat, ReasonArg redeploy)].
Proof.
  split.
  - apply (callback_isolation unruly redeploy returning_visitor).
  - apply (callback_isolation unruly redeploy returning_visitor).
    intros w0 id arg. unfold unruly. case_bool_decide; repeat constructor.
Defined.

(** C7 as it was stated fails when a function unregisters itself while it is
    notified.  Three functions are registered and none throws; the first
    calls [removeCallback] on itself.  [splice] moves the second to index 0,
    which the walk has passed: the second function is never called, the
    third is. *)
Lemma callback_isolation_self_removal :
  let r := notifyUpdate one_shot redeploy subscribers in
  cb_id <$> onUpdateCallbacks (this subscribers) = [1%nat; 2%nat; 3%nat]
  ∧ (∀ cb arg, cb ∈ onUpdateCallbacks (this subscribers) → cb_call cb arg = None)
  ∧ r.2 = Normal tt
  ∧ notifications (trace r.1)
    = [(1%nat, ReasonArg redeploy); (3%nat, ReasonArg redeploy)]
  ∧ cb_id <$> onUpdateCallbacks (this r.1) = [2%nat; 3%nat].
Proof.
  split_and!; try reflexivity.
  intros cb arg Hin. simpl in Hin.
  repeat (apply elem_of_cons in Hin as [->|Hin]; [done|]).
  by apply elem_of_nil in Hin.
Qed.

(** X3. A function registered more than once: [removeCallback] takes out its
    first entry in the update registry and leaves the others, so a later
    notification, in which no function calls [removeCallback] (the functions
    may throw or call the other public methods), still calls it once for
    each entry that is left, in registration order. *)
Theorem removeCallback_first_occurrence (host : Host) (w : World)
    (callback : Callback) (before after : list Callback) (entry : Callback) :
  onUpdateCallbacks (this w) = before ++ entry :: after →
  cb_id entry = cb_id callback →
  cb_id callback ∉ cb_id <$> before →
  keeps_entries host →
  let w' := (removeCallback callback w).1 in
  onUpdateCallbacks (this w') = before ++ after
  ∧ ∀ reason, notifications (trace (notifyUpdate host reason w').1)
      = notifications (trace w)
        ++ ((λ cb, (cb_id cb, ReasonArg reason)) <$> before ++ after).
Proof.
  intros Hl Hid Hn Hh w'.
  assert (onUpdateCallbacks (this w') = before ++ after) as Hw'.
  { subst w'. unfold removeCallback. unmonad. simpl. rewrite Hl.
    by apply DetectorLifecycle.remove_first_found. }
  split; [exact Hw'|]. intros reason.
  destruct (notifyUpdate_live host reason w') as (w3 & -> & _ & Hcalls & _).
  simpl. by rewrite Hcalls, Hw'.
Qed.

Lemma removeCallback_first_occurrence_witness :
  let w' := (removeCallback (listener 1) DetectorCases.twice_registered).1 in
  onUpdateCallbacks (this w') = [listener 2; listener 1]
  ∧ ∀ reason, notifications (trace (notifyUpdate unruly reason w').1)
      = [(2%nat, ReasonArg reason); (1%nat, ReasonArg reason)].
Proof.
  apply (removeCallback_first_occurrence unruly DetectorCases.twice_registered
           (listener 1) [] [listener 2; listener 1] (listener 1));
    [reflexivity | reflexivity | apply (bool_decide_unpack _); reflexivity |].
  intros w0 id arg. unfold unruly. case_bool_decide; repeat constructor.
Defined.

(** *** The check and the resource error *)

(** X9. Whatever the network answers and whatever the registered functions
    do (throw, or call the detector's public methods), [checkForUpdate]
    resolves (it never rejects) and leaves every [localStorage] key other
    than its two as it was.  If the functions only return or throw, it
    changes neither the detector's fields nor the intervals. *)
Theorem checkForUpdate_touches_only_its_keys (host : Host) (w : World) (o : Oracle) :
  ∃ wf b, run o (checkForUpdate host w) = (wf, Normal b)
    ∧ (∀ key, key ≠ app_index_etag → key ≠ app_index_last_modified →
         localStorage wf !! key = localStorage w !! key)
    ∧ (silent host → this wf = this w ∧ intervals wf = intervals w).
Proof.
  destruct (skipped w) eqn:Hs.
  { exists w, false. by rewrite (checkForUpdate_live_skipped host w Hs). }
  destruct (isChecking (this w)) eqn:Hc.
  { exists w, false. by rewrite (checkForUpdate_live_busy host w Hc). }
  destruct (o _ (Fetch HeadIndexHtml)) as [resp|e] eqn:Ho.
  - destruct (ok resp) eqn:Hok.
    + destruct (checkForUpdate_live_resolved host w o resp Hs Hc Ho Hok)
        as (w2 & _ & _ & Hst & _ & Hrun).
      eexists _, _. split; [exact Hrun|]. split.
      * intros key He Hl. simpl.
        assert (localStorage w2 !! key = localStorage w !! key) as Hw2.
        { rewrite Hst. destruct (_ || _); [|done]. by rewrite !lookup_stored_ne. }
        destruct (negb _ && _); [|done].
        destruct (notifyUpdate_live host redeploy w2) as (w3 & -> & Hl3 & _).
        simpl. by rewrite Hl3.
      * intros Hh. rewrite (checkForUpdate_silent host w o Hh) in Hrun.
        destruct (checkForUpdate_resolved w o Hs Hc resp Ho Hok)
          as (wf & Hrun' & Hthis & Hint & _).
        rewrite Hrun' in Hrun. injection Hrun as <-. done.
    + destruct (checkForUpdate_not_ok w o Hs Hc resp Ho Hok)
        as (wf & Hrun & Hthis & Hint & Hst & _).
      exists wf, false. rewrite checkForUpdate_live_unanswered, Hst; try done.
      by rewrite Ho.
  - destruct (checkForUpdate_rejected w o Hs Hc e Ho)
      as (wf & Hrun & Hthis & Hint & Hst & _).
    exists wf, false. rewrite checkForUpdate_live_unanswered, Hst; try done.
    by rewrite Ho.
Qed.

(** A function that calls [destroy] when it is notified: after the check
    the registry is empty, so the fields are not as they were. *)
Example checkForUpdate_fields_after_destroy :
  let wf := (run (serving (Some "b") (Some "t1"))
               (checkForUpdate closing returning_visitor)).1 in
  cb_id <$> onUpdateCallbacks (this returning_visitor) = [1%nat; 2%nat]
  ∧ onUpdateCallbacks (this wf) = []
  ∧ localStorage wf = persistedFingerprint (Some "b") (Some "t1").
Proof. split_and!; reflexivity. Qed.



(** An update callback that calls [destroy] when it is notified: the
    registry of resource-error callbacks is empty by the time its loop
    begins, and the registered function is not called. *)
Example resource_error_callbacks_after_destroy :
  let wf := (run (serving (Some "b") (Some "t1"))
               (handleResourceError closing (Some "script") DetectorCases.watched)).1 in
  cb_id <$> onResourceErrorCallbacks (this DetectorCases.watched) = [3%nat]
  ∧ notifications (trace wf)
    = [(1%nat, ReasonArg redeploy); (2%nat, ReasonArg redeploy)].
Proof. split; reflexivity. Qed.

End ReentrantFacts.

(** ** The initial record on a storage that throws *)

Module PlatformFacts.
Import Js JsFacts Detector DetectorScenarios Platform.

Lemma recordInitialVersion_available :
  recordInitialVersion available = Detector.recordInitialVersion.
Proof. reflexivity. Qed.

(** X7. [recordInitialVersion] on a storage that may throw.  Its two reads
    come before the [try]: if one of them throws, the promise is rejected
    with that exception.  If both return, the promise is fulfilled, however
    the request completes, whatever happened in between, and even if a
    write throws. *)
Theorem recordInitialVersion_rejects_only_on_read (storage : Storage) (w : World) :
  match getItem storage app_index_etag w with
  | (w1, Throw e) => recordInitialVersion storage w = Settled w1 (Throw e)
  | (w1, Normal _) =>
      match getItem storage app_index_last_modified w1 with
      | (w2, Throw e) => recordInitialVersion storage w = Settled w2 (Throw e)
      | (w2, Normal _) =>
          always (λ _ c, c = Normal tt) (recordInitialVersion storage w)
      end
  end.
Proof.
  unfold recordInitialVersion, try_catch_async. unmonad.
  destruct (getItem storage app_index_etag w) as [w1 [storedEtag|e]];
    simpl; [|done].
  destruct (getItem storage app_index_last_modified w1)
    as [w2 [storedLastModified|e]]; simpl; [|done].
  destruct (truthy storedEtag || truthy storedLastModified); [done|].
  unfold fetch, await, emit. unmonad. simpl. intros r w'.
  apply always_acatch, always_all. intros w0 [[]|e]; done.
Qed.

(** On storage that is blocked the promise is rejected at once; on storage
    that is there but full it is fulfilled, the failed write caught. *)
Lemma recordInitialVersion_rejects_only_on_read_witness :
  recordInitialVersion blocked first_visitor
  = Settled first_visitor (Throw "SecurityError")
  ∧ always (λ _ c, c = Normal tt) (recordInitialVersion full first_visitor).
Proof.
  split.
  - apply (recordInitialVersion_rejects_only_on_read blocked first_visitor).
  - apply (recordInitialVersion_rejects_only_on_read full first_visitor).
Defined.

End PlatformFacts.

(** ** The prompt: what is shown, the buttons and the timers *)

Module NotificationLifecycle.
Import Js JsFacts Notification NotificationScenarios NotificationFacts
  NotificationViews NotificationCases.

(** *** What [show] and [hide] leave *)

Lemma unsuppressed_gate reason w :
  unsuppressed reason w →
  bool_decide (reason ≠ resource_error)
  && bool_decide (laterTimestamp (this w) ≠ 0)
  && bool_decide (now w - laterTimestamp (this w) < laterInterval (options (this w)))%Z
  = false.
Proof.
  intros [H|[H|H]].
  - rewrite (bool_decide_eq_false_2 (reason ≠ _)) by (intros Hn; by apply Hn). done.
  - rewrite (bool_decide_eq_false_2 (_ ≠ 0)) by (intros Hn; by apply Hn).
    apply andb_false_iff. left. apply andb_false_r.
  - rewrite (bool_decide_eq_false_2 (_ < _)) by lia. apply andb_false_r.
Qed.

Lemma footing_container w w' :
  footing w' = footing w → is_Some (container (this w)) → is_Some (container (this w')).
Proof.
  unfold footing. intros [= _ Hc] [d Hd]. rewrite Hd in Hc.
  destruct (container (this w')); [by eexists | done].
Qed.

Lemma hide_resets w :
  is_Some (container (this w)) →
  isVisible (this (hide w).1) = false ∧ refreshing (this (hide w).1) = false.
Proof.
  intros [d Hd]. unfold hide, with_container, setTimeout, invoke, emit. unmonad.
  rewrite Hd. simpl. destruct (onClose (events (this w))) as [[[e|]]|]; done.
Qed.

Lemma show_resets reason force w :
  is_Some (container (this w)) → unsuppressed reason w →
  isVisible (this (show reason force w).1) = true
  ∧ refreshing (this (show reason force w).1) = false.
Proof.
  intros [d Hd] Hu.
  unfold show, updateContent, with_container, requestAnimationFrame. unmonad.
  rewrite (unsuppressed_gate _ _ Hu). simpl. rewrite Hd. simpl. rewrite Hd.
  destruct (getContentByReason reason force) as [[? ?] ?]. done.
Qed.

Lemma show_quiet (w : World) (reason : UpdateReason) (force : bool) :
  trace (show reason force w).1 = trace w
  ∧ timeouts (show reason force w).1 = timeouts w.
Proof.
  unfold show, updateContent, with_container, requestAnimationFrame. unmonad.
  destruct (_ && _); [done|].
  destruct (container (this w)) as [d|] eqn:Hd; simpl; [|done].
  rewrite Hd. destruct (getContentByReason reason force) as [[? ?] ?]. done.
Qed.

Lemma show_offers (w : World) (reason : UpdateReason) (force : bool) :
  is_Some (container (this w)) →
  unsuppressed reason w →
  ∃ c, rendered (show reason force w).1 = Some c
    ∧ laterBtn c = (if force || bool_decide (reason = resource_error)
                    then None
                    else Some (mkButton (later (buttonText (options (this w)))) false))
    ∧ errorDetails c = getErrorDetails reason.
Proof.
  intros [d Hd] Hu.
  unfold show, updateContent, with_container, requestAnimationFrame, rendered.
  unmonad. rewrite (unsuppressed_gate _ _ Hu). simpl. rewrite Hd. simpl. rewrite Hd.
  destruct (getContentByReason reason force) as [[t ds] ic]. simpl.
  rewrite Hd. simpl.
  eexists. split.
  { destruct (parentElement d); reflexivity. }
  simpl. split; [|done].
  by destruct force, reason.
Qed.

Lemma runTimer_ForceReload w :
  trace (runTimer ForceReload w).1
  = trace w ++ (if refreshing (this w) then [Reload] else []).
Proof.
  unfold runTimer, emit. unmonad. destruct (refreshing (this w)); simpl;
    by rewrite ?app_nil_r.
Qed.

Lemma handleRefresh_returns w :
  outcome (onRefresh (events (this w))) = Normal tt →
  let w1 := (handleRefresh w).1 in
  (handleRefresh w).2 = Normal tt
  ∧ refreshing (this w1) = true
  ∧ timeouts w1 = timeouts w ++ [(now w + 5000, ForceReload)]
  ∧ trace w1 = trace w ++ called (onRefresh (events (this w))) OnRefresh
  ∧ (disabled ∘ refreshBtn <$> rendered w1) = (λ _, true) <$> rendered w.
Proof.
  intros Ho w1. subst w1.
  unfold handleRefresh, with_container, setTimeout, invoke, emit, rendered,
    outcome, called in *. unmonad. simpl.
  destruct (onRefresh (events (this w))) as [[[e|]]|]; simpl in *;
    try discriminate; rewrite ?app_nil_r;
    (split_and!; try done;
     destruct (container (this w)) as [d|]; simpl; [|done];
     destruct (innerHTML d) eqn:Hi; simpl; rewrite ?Hi; done).
Qed.

(** *** Showing *)


(** X15. [show] on a live prompt, for ['resource-error'] or outside the
    later-window (no "later" yet, or [laterInterval] or more has passed):
    the prompt becomes visible, [refreshing] is reset, the fade-in frame is
    requested, and the overlay, if the dialog is still in it, and the dialog
    are displayed. *)
Theorem show_after_later_window (w : World) (reason : UpdateReason) (force : bool) :
  is_Some (container (this w)) →
  unsuppressed reason w →
  let w' := (show reason force w).1 in
  isVisible (this w') = true
  ∧ refreshing (this w') = false
  ∧ frames w' = frames w ++ [FadeInStart]
  ∧ (is_Some (container (this w) ≫= parentElement) →
     (display ∘ style <$> container (this w')) = Some "block"
     ∧ (container (this w') ≫= parentElement) = Some (mkOverlay "block")).
Proof.
  intros [d Hd] Hu w'. subst w'.
  unfold show, updateContent, with_container, requestAnimationFrame. unmonad.
  rewrite (unsuppressed_gate _ _ Hu). simpl. rewrite Hd. simpl. rewrite Hd.
  destruct (getContentByReason reason force) as [[? ?] ?]. simpl.
  rewrite Hd. simpl. split_and!; [done..|].
  intros [ov Hov]. simpl in Hov. rewrite Hov. done.
Qed.

Lemma show_after_later_window_witness :
  let w' := (show version_change false reminded).1 in
  isVisible (this reminded) = false
  ∧ isVisible (this w') = true
  ∧ refreshing (this w') = false
  ∧ frames w' = frames reminded ++ [FadeInStart]
  ∧ (is_Some (container (this reminded) ≫= parentElement) →
     (display ∘ style <$> container (this w')) = Some "block"
     ∧ (container (this w') ≫= parentElement) = Some (mkOverlay "block")).
Proof.
  split; [reflexivity|].
  apply (show_after_later_window reminded version_change false).
  - by eexists.
  - right. right. vm_compute. discriminate.
Defined.

(** X16. What [show] renders: the "later" button is left out exactly when
    [forceUpdate] is set or the reason is ['resource-error']; both buttons
    carry the configured texts and are enabled; the error banner is there
    exactly for ['resource-error'] and ['network-error']; the headings for a
    version change and for a network error are used for no other reason. *)
Theorem show_content (w : World) (reason : UpdateReason) (force : bool) :
  is_Some (container (this w)) →
  unsuppressed reason w →
  ∃ c, rendered (show reason force w).1 = Some c
    ∧ (laterBtn c = None ↔ force = true ∨ reason = resource_error)
    ∧ (∀ b, laterBtn c = Some b →
         b = mkButton (later (buttonText (options (this w)))) false)
    ∧ refreshBtn c = mkButton (refresh (buttonText (options (this w)))) false
    ∧ (is_Some (errorDetails c) ↔ reason = resource_error ∨ reason = network_error)
    ∧ (heading c = "发现新版本" ↔ reason = version_change)
    ∧ (heading c = "网络连接异常" ↔ reason = network_error).
Proof.
  intros [d Hd] Hu.
  unfold show, updateContent, with_container, requestAnimationFrame, rendered.
  unmonad. rewrite (unsuppressed_gate _ _ Hu). simpl. rewrite Hd. simpl. rewrite Hd.
  destruct (getContentByReason reason force) as [[t ds] ic] eqn:Hg. simpl.
  rewrite Hd. simpl.
  eexists. split.
  { destruct (parentElement d); reflexivity. }
  simpl. split_and!.
  - destruct force, reason; simpl; split; intros H; try done;
      (try by left); (try by right); by destruct H.
  - intros b. destruct (negb _); [by intros [= <-] | done].
  - done.
  - destruct reason; simpl; split; intros H; try done;
      (try by eexists); (try by left); (try by right);
      (try by destruct H as [? ?]); by destruct H.
  - destruct reason; simpl in Hg; inversion Hg; subst; split; intros H; done.
  - destruct reason; simpl in Hg; inversion Hg; subst; split; intros H; done.
Qed.

Lemma show_content_witness :
  ∃ c, rendered (show resource_error false dismissed).1 = Some c
    ∧ (laterBtn c = None ↔ false = true ∨ resource_error = resource_error)
    ∧ (∀ b, laterBtn c = Some b → b = mkButton "稍后提醒" false)
    ∧ refreshBtn c = mkButton "立即刷新" false
    ∧ (is_Some (errorDetails c)
       ↔ resource_error = resource_error ∨ resource_error = network_error)
    ∧ (heading c = "发现新版本" ↔ resource_error = version_change)
    ∧ (heading c = "网络连接异常" ↔ resource_error = network_error).
Proof.
  apply (show_content dismissed resource_error false).
  - by eexists.
  - left. reflexivity.
Defined.

(** *** The buttons *)

(** X17. A click on "later" records the time and hides the prompt before any
    handler runs: even when [onClose] throws, in which case [onLater] is not
    called, the prompt is hidden and the later-window has begun, so (with a
    positive [laterInterval] and a clock that is not at 0) a [show] for any
    reason but ['resource-error'] does nothing. *)
Theorem handleLater_records_first (w : World) :
  is_Some (container (this w)) →
  let r := handleLater w in
  let evs := events (this w) in
  laterTimestamp (this r.1) = now w
  ∧ isVisible (this r.1) = false
  ∧ (∀ reason force, reason ≠ resource_error → now w ≠ 0 →
       (0 < laterInterval (options (this w)))%Z →
       show reason force r.1 = (r.1, Normal tt))
  ∧ match outcome (onClose evs) with
    | Throw e => r.2 = Throw e ∧ trace r.1 = trace w ++ [OnClose]
    | Normal _ =>
        r.2 = outcome (onLater evs)
        ∧ trace r.1 = trace w ++ called (onClose evs) OnClose
                              ++ called (onLater evs) OnLater
    end.
Proof.
  intros [d Hd] r evs. subst r evs.
  unfold handleLater, hide, with_container, setTimeout, invoke, emit, show,
    outcome, called. unmonad. simpl. rewrite Hd. simpl.
  destruct (onClose (events (this w))) as [[[e|]]|] eqn:Hc; simpl;
    rewrite ?Hc; simpl;
    try destruct (onLater (events (this w))) as [[[e'|]]|] eqn:Hl; simpl;
    rewrite ?Hl, ?app_nil_r, <- ?app_assoc; simpl;
    (split_and!; try done;
     intros reason force Hr Hn Hi;
     rewrite !bool_decide_eq_true_2 by (try done; lia); done).
Qed.

Lemma handleLater_records_first_witness :
  let r := handleLater shown in
  laterTimestamp (this r.1) = 5000
  ∧ isVisible (this r.1) = false
  ∧ (∀ reason force, reason ≠ resource_error → now shown ≠ 0 →
       (0 < laterInterval (options (this shown)))%Z →
       show reason force r.1 = (r.1, Normal tt))
  ∧ r.2 = Normal tt
  ∧ trace r.1 = [OnClose; OnLater].
Proof.
  apply (handleLater_records_first shown). by eexists.
Defined.

(** X18. A click on "refresh" whose handler returns disables the button and
    starts the 5000 ms fallback.  When that timeout fires it reloads the
    page if the prompt is still refreshing; a [hide], or a [show] for
    ['resource-error'], in between cancels the reload. *)
Theorem refresh_fallback (w : World) :
  is_Some (container (this w)) →
  outcome (onRefresh (events (this w))) = Normal tt →
  let w1 := (handleRefresh w).1 in
  (handleRefresh w).2 = Normal tt
  ∧ refreshing (this w1) = true
  ∧ timeouts w1 = timeouts w ++ [(now w + 5000, ForceReload)]
  ∧ (disabled ∘ refreshBtn <$> rendered w1) = (λ _, true) <$> rendered w
  ∧ trace (runTimer ForceReload w1).1 = trace w1 ++ [Reload]
  ∧ trace (runTimer ForceReload (hide w1).1).1 = trace (hide w1).1
  ∧ ∀ force, trace (runTimer ForceReload (show resource_error force w1).1).1
             = trace w1.
Proof.
  intros Hlive Ho w1.
  destruct (handleRefresh_returns w Ho) as (Hr & Hf & Ht & _ & Hb). fold w1 in Hf, Ht, Hb.
  assert (is_Some (container (this w1))) as Hlive1
    by (eapply footing_container; [apply handleRefresh_footing | exact Hlive]).
  split_and!; try done.
  - by rewrite runTimer_ForceReload, Hf.
  - destruct (hide_resets w1 Hlive1) as [_ Hh]. rewrite runTimer_ForceReload, Hh.
    apply app_nil_r.
  - intros force.
    destruct (show_resets resource_error force w1 Hlive1) as [_ Hs]; [by left|].
    rewrite runTimer_ForceReload, Hs, app_nil_r.
    apply show_quiet.
Qed.

Lemma refresh_fallback_witness :
  let w1 := (handleRefresh shown).1 in
  (handleRefresh shown).2 = Normal tt
  ∧ refreshing (this w1) = true
  ∧ timeouts w1 = timeouts shown ++ [(now shown + 5000, ForceReload)]
  ∧ (disabled ∘ refreshBtn <$> rendered w1) = (λ _, true) <$> rendered shown
  ∧ trace (runTimer ForceReload w1).1 = trace w1 ++ [Reload]
  ∧ trace (runTimer ForceReload (hide w1).1).1 = trace (hide w1).1
  ∧ ∀ force, trace (runTimer ForceReload (show resource_error force w1).1).1
             = trace w1.
Proof.
  apply (refresh_fallback shown); [by eexists | reflexivity].
Defined.

(** X19. When the [onRefresh] handler throws, [handleRefresh] throws too:
    [refreshing] stays set, but the button is not disabled and the fallback
    reload is not scheduled. *)
Theorem refresh_handler_throws (w : World) (e : Error) :
  outcome (onRefresh (events (this w))) = Throw e →
  let w1 := (handleRefresh w).1 in
  (handleRefresh w).2 = Throw e
  ∧ refreshing (this w1) = true
  ∧ timeouts w1 = timeouts w
  ∧ rendered w1 = rendered w
  ∧ trace w1 = trace w ++ [OnRefresh].
Proof.
  intros Ho w1. subst w1.
  unfold handleRefresh, with_container, setTimeout, invoke, emit, rendered,
    outcome in *. unmonad. simpl.
  destruct (onRefresh (events (this w))) as [[[e'|]]|]; simpl in *;
    try discriminate. by inversion Ho.
Qed.

Lemma refresh_handler_throws_witness :
  let w1 := (handleRefresh unlucky).1 in
  (handleRefresh unlucky).2 = Throw "refresh failed"
  ∧ refreshing (this w1) = true
  ∧ timeouts w1 = timeouts unlucky
  ∧ rendered w1 = rendered unlucky
  ∧ trace w1 = trace unlucky ++ [OnRefresh].
Proof.
  apply (refresh_handler_throws unlucky "refresh failed"). reflexivity.
Defined.

(** *** Teardown and stale timers *)

(** X20. After [destroy] the prompt is inert: [show], [hide], the Escape
    listener, the pending hide timeout, the animation frames and a further
    [destroy] all return and change nothing. *)
Theorem destroyed_prompt_is_inert (w : World) :
  container (this w) = None →
  (∀ reason force, show reason force w = (w, Normal tt))
  ∧ hide w = (w, Normal tt)
  ∧ onEscape w = (w, Normal tt)
  ∧ runTimer HideElements w = (w, Normal tt)
  ∧ (∀ task, runFrame task w = (w, Normal tt))
  ∧ destroy w = (w, Normal tt).
Proof.
  intros Hc. split_and!.
  - intros reason force. unfold show. unmonad.
    destruct (_ && _); [done|]. simpl. by rewrite Hc.
  - unfold hide. unmonad. simpl. by rewrite Hc.
  - unfold onEscape, hide. unmonad. simpl.
    destruct (isVisible (this w)); [|done]. simpl. by rewrite Hc.
  - unfold runTimer, with_container. unmonad.
    destruct w as [[] ? ? ? ? ? ?]. simpl in *. by subst.
  - intros task. unfold runFrame. unmonad. simpl. by rewrite Hc.
  - unfold destroy. unmonad. simpl. by rewrite Hc.
Qed.

Lemma destroyed_prompt_is_inert_witness :
  (∀ reason force, show reason force destroyed = (destroyed, Normal tt))
  ∧ hide destroyed = (destroyed, Normal tt)
  ∧ onEscape destroyed = (destroyed, Normal tt)
  ∧ runTimer HideElements destroyed = (destroyed, Normal tt)
  ∧ (∀ task, runFrame task destroyed = (destroyed, Normal tt))
  ∧ destroy destroyed = (destroyed, Normal tt).
Proof. apply (destroyed_prompt_is_inert destroyed). reflexivity. Defined.

(** X21. [hide] does not cancel its timeout when the prompt is shown again:
    a [show] that follows a [hide] leaves the 300 ms timeout pending, and
    when it fires the dialog is hidden although [isVisible] stays [true]. *)
Theorem stale_hide_timer (w : World) (reason : UpdateReason) (force : bool) :
  is_Some (container (this w)) →
  unsuppressed reason w →
  let w1 := (hide w).1 in
  let w2 := (show reason force w1).1 in
  let w3 := (runTimer HideElements w2).1 in
  (now w + 300, HideElements) ∈ timeouts w2
  ∧ isVisible (this w2) = true
  ∧ isVisible (this w3) = true
  ∧ (display ∘ style <$> container (this w3)) = Some "none".
Proof.
  intros Hlive Hu w1 w2 w3.
  assert (is_Some (container (this w1))) as Hlive1
    by (eapply footing_container; [apply hide_footing | exact Hlive]).
  assert (unsuppressed reason w1 ∧ timeouts w1 = timeouts w ++ [(now w + 300, HideElements)])
    as [Hu1 Ht1].
  { destruct Hlive as [d Hd]. subst w1.
    unfold unsuppressed, hide, with_container, setTimeout, invoke, emit in *. unmonad.
    rewrite Hd. simpl.
    destruct (onClose (events (this w))) as [[[e|]]|]; done. }
  destruct (show_resets reason force w1 Hlive1 Hu1) as [Hv _]. fold w2 in Hv.
  assert (is_Some (container (this w2))) as [d2 Hd2]
    by (eapply footing_container; [apply show_footing | exact Hlive1]).
  split_and!.
  - unfold w2. destruct (show_quiet w1 reason force) as [_ ->].
    rewrite Ht1. apply elem_of_app. right. by apply list_elem_of_singleton.
  - exact Hv.
  - subst w3. unfold runTimer, with_container. unmonad. simpl. exact Hv.
  - subst w3. unfold runTimer, with_container. unmonad. simpl. by rewrite Hd2.
Qed.

Lemma stale_hide_timer_witness :
  let w1 := (hide shown).1 in
  let w2 := (show redeploy false w1).1 in
  let w3 := (runTimer HideElements w2).1 in
  (5300, HideElements) ∈ timeouts w2
  ∧ isVisible (this w2) = true
  ∧ isVisible (this w3) = true
  ∧ (display ∘ style <$> container (this w3)) = Some "none".
Proof.
  apply (stale_hide_timer shown redeploy false).
  - by eexists.
  - right. left. reflexivity.
Defined.

(** X22. After any history of calls, clicks, key presses, timeouts and
    frames on a prompt built by the constructor, the overlay is in the
    document for as long as the instance holds its dialog; so [destroy]
    returns (its [removeChild] cannot throw) and drops the dialog. *)
Theorem overlay_stays_attached opts evs t0 (history : list Action) :
  let w := after (construct opts evs t0) history in
  (is_Some (container (this w)) → overlayInBody w = true)
  ∧ ∃ w', destroy w = (w', Normal tt) ∧ container (this w') = None.
Proof.
  intros w.
  assert (held w) as Hw by apply after_held, construct_held.
  split; [exact Hw|].
  destruct (notification_destroy_twice w (held_attached w Hw)) as (w' & H1 & H2 & _).
  by exists w'.
Qed.

(** X23. [destroy] does not reset [isVisible]: destroying a visible prompt
    leaves [isNotificationVisible()] returning [true], and [hide] can no
    longer reset it. *)
Theorem destroy_keeps_visible_flag (w : World) :
  attached w →
  isVisible (this w) = true →
  let w' := (destroy w).1 in
  container (this w') = None
  ∧ isNotificationVisible w' = (w', Normal true)
  ∧ hide w' = (w', Normal tt).
Proof.
  intros Ha Hv w'.
  assert (container (this w') = None ∧ isVisible (this w') = true) as [Hc Hv'].
  { subst w'. unfold attached, destroy, removeChild in *. unmonad.
    destruct (container (this w)) as [d|] eqn:Hd; simpl; [|by rewrite Hd].
    destruct (parentElement d); simpl; [rewrite Ha|]; done. }
  split; [exact Hc|]. split.
  - unfold isNotificationVisible. unmonad. by rewrite Hv'.
  - unfold hide. unmonad. simpl. by rewrite Hc.
Qed.

Lemma destroy_keeps_visible_flag_witness :
  let w' := (destroy shown).1 in
  container (this w') = None
  ∧ isNotificationVisible w' = (w', Normal true)
  ∧ hide w' = (w', Normal tt).
Proof.
  apply (destroy_keeps_visible_flag shown); reflexivity.
Defined.

(** *** Listeners *)

Lemma perform_setup w a : setup (perform w a) = setup w.
Proof.
  unfold perform, setup.
  destruct a; simpl;
    unfold handleLater, handleRefresh, onEscape, runTimer, runFrame, show, hide,
      destroy, updateContent, removeChild, with_container, setTimeout,
      requestAnimationFrame, invoke, emit, rendered;
    unmonad; simpl;
    repeat (case_match; simplify_eq/=; try done); done.
Qed.

Lemma after_setup w history : setup (after w history) = setup w.
Proof.
  revert w. induction history as [|a l IH]; intros w; simpl; [done|].
  by rewrite IH, perform_setup.
Qed.

Lemma construct_setup opts evs t0 :
  setup (construct opts evs t0)
  = ((if closeOnPressEscape opts then [EscapeKey] else [])
     ++ (if closeOnClickModal opts then [OverlayClick] else []), opts, evs).
Proof.
  unfold setup, construct, init, createContainer, bindEvents. unmonad. simpl.
  by destruct (closeOnPressEscape opts), (closeOnClickModal opts).
Qed.

(** X24. The listeners are those the constructor installed, whatever
    happened since: without [closeOnPressEscape] the Escape key does nothing,
    and without [closeOnClickModal] a click on the overlay does nothing. *)
Theorem dismissal_needs_its_option opts evs t0 (history : list Action) :
  let w := after (construct opts evs t0) history in
  (closeOnPressEscape opts = false → perform w PressEscape = w)
  ∧ (closeOnClickModal opts = false → perform w ClickOverlay = w).
Proof.
  intros w.
  assert (listeners w = (if closeOnPressEscape opts then [EscapeKey] else [])
     ++ (if closeOnClickModal opts then [OverlayClick] else [])) as Hl.
  { pose proof (after_setup (construct opts evs t0) history) as H.
    rewrite construct_setup in H. fold w in H. by inversion H. }
  split; intros Ho; unfold perform; simpl; unmonad; rewrite Hl, Ho; simpl.
  - rewrite bool_decide_eq_false_2; [done|].
    destruct (closeOnClickModal opts); intros Hin;
      [apply list_elem_of_singleton in Hin; done | by apply elem_of_nil in Hin].
  - rewrite bool_decide_eq_false_2; [done|].
    destruct (closeOnPressEscape opts); simpl; intros Hin;
      [apply list_elem_of_singleton in Hin; done | by apply elem_of_nil in Hin].
Qed.

Lemma dismissal_needs_its_option_witness :
  perform shown ClickOverlay = shown.
Proof.
  apply (dismissal_needs_its_option quick handlers 5000 [CallShow redeploy false]).
  reflexivity.
Defined.

Lemma perform_unlabelled w a :
  unlabelled (perform w a) = perform (unlabelled w) a.
Proof.
  unfold perform, unlabelled.
  destruct a; simpl;
    unfold handleLater, handleRefresh, onEscape, runTimer, runFrame, show, hide,
      destroy, updateContent, removeChild, with_container, setTimeout,
      requestAnimationFrame, invoke, emit, rendered;
    unmonad; simpl;
    repeat (case_match; simplify_eq/=; try done); done.
Qed.

Lemma construct_unlabelled opts evs t0 :
  unlabelled (construct opts evs t0) = construct (plain opts) evs t0.
Proof.
  unfold unlabelled, construct, init, createContainer, bindEvents. unmonad. simpl.
  by destruct (closeOnPressEscape opts), (closeOnClickModal opts).
Qed.

(** X25. The options [title], [description] and [forceUpdate] are never
    read: two prompts built with options that agree on all the others are,
    after the same history, in the same state but for these three fields;
    what is rendered depends on the arguments of [show] only. *)
Theorem unread_options opts opts' evs t0 (history : list Action) :
  plain opts = plain opts' →
  unlabelled (after (construct opts evs t0) history)
  = unlabelled (after (construct opts' evs t0) history).
Proof.
  intros Hp.
  assert (∀ w, unlabelled (after w history) = after (unlabelled w) history) as H.
  { induction history as [|a history IH]; intros w; simpl; [done|].
    by rewrite IH, perform_unlabelled. }
  by rewrite !H, !construct_unlabelled, Hp.
Qed.

Lemma unread_options_witness :
  unlabelled (after (construct quick handlers 5000)
                [CallShow version_change false; ClickLater; Elapse 500])
  = unlabelled (after (construct retitled handlers 5000)
                [CallShow version_change false; ClickLater; Elapse 500]).
Proof.
  apply (unread_options quick retitled handlers 5000
           [CallShow version_change false; ClickLater; Elapse 500]).
  reflexivity.
Defined.

End NotificationLifecycle.

(** ** The factory: detector and prompt together *)

Module FactoryFacts.
Import Js JsFacts Factory FactoryCases.

(** *** The pair right after construction *)

Lemma newCalls_app (w wf : Detector.World) calls :
  Detector.notifications (Detector.trace wf)
  = Detector.notifications (Detector.trace w) ++ calls →
  newCalls w wf = calls.
Proof. unfold newCalls. intros ->. by rewrite drop_app_length. Qed.

Lemma construct_fields opts dev storage :
  let w := (Detector.construct opts dev storage).1 in
  Detector.onUpdateCallbacks (Detector.this w) = []
  ∧ Detector.onResourceErrorCallbacks (Detector.this w) = []
  ∧ Detector.isChecking (Detector.this w) = false
  ∧ Detector.skipped w = dev && Detector.skipInDevelopment opts
  ∧ Detector.localStorage w = storage.
Proof.
  unfold Detector.construct, Detector.init, Detector.skipped. simpl.
  destruct (dev && Detector.skipInDevelopment opts) eqn:Hs; simpl;
    [by rewrite Hs|].
  unfold Detector.spawn, Detector.recordInitialVersion, try_catch_async,
    Detector.fetch, Detector.localStorage_getItem, Detector.emit, await,
    Detector.console_, Detector.listenResourceErrors,
    Detector.listenVisibilityChange. unmonad. simpl.
  destruct (Detector.enableResourceErrorDetection opts); simpl;
    destruct (truthy (storage !! Detector.app_index_etag)
              || truthy (storage !! Detector.app_index_last_modified)); simpl;
    unfold Detector.startVersionCheck, Detector.skipped, Detector.emit,
      Detector.console_; unmonad; simpl; rewrite Hs; simpl; rewrite ?Hs; done.
Qed.

Lemma factory_fields dopts dev storage nopts nevs t0 :
  let p := createVersionUpdateDetector dopts dev storage nopts nevs t0 in
  Detector.onUpdateCallbacks (Detector.this (detector p)) = [showOnUpdate]
  ∧ Detector.onResourceErrorCallbacks (Detector.this (detector p))
    = [showOnResourceError]
  ∧ Detector.isChecking (Detector.this (detector p)) = false
  ∧ Detector.skipped (detector p) = dev && Detector.skipInDevelopment dopts
  ∧ Detector.localStorage (detector p) = storage
  ∧ notification p = Notification.construct nopts nevs t0.
Proof.
  unfold createVersionUpdateDetector.
  destruct (construct_fields dopts dev storage) as (Hu & Hr & Hc & Hs & Hl).
  destruct (Detector.construct dopts dev storage) as [d fl]. simpl in *.
  unfold Detector.skipped in *. simpl. by rewrite Hu, Hr.
Qed.

Lemma construct_unsuppressed nopts nevs t0 reason :
  is_Some (Notification.container
             (Notification.this (Notification.construct nopts nevs t0)))
  ∧ NotificationViews.unsuppressed reason (Notification.construct nopts nevs t0).
Proof.
  unfold NotificationViews.unsuppressed, Notification.construct,
    Notification.init, Notification.createContainer, Notification.bindEvents.
  unmonad. simpl.
  destruct (Notification.closeOnPressEscape nopts),
    (Notification.closeOnClickModal nopts); simpl;
    (split; [by eexists | right; by left]).
Qed.

Lemma unregistered_is_quiet (w : Detector.World) (o : Oracle) :
  Detector.onUpdateCallbacks (Detector.this w) = [] →
  Detector.notifications (Detector.trace (run o (Detector.checkForUpdate w)).1)
  = Detector.notifications (Detector.trace w).
Proof.
  intros Hu.
  destruct (Detector.skipped w) eqn:Hs.
  { unfold Detector.checkForUpdate. unmonad. by rewrite Hs. }
  destruct (Detector.isChecking (Detector.this w)) eqn:Hc.
  { by rewrite (DetectorFacts.checkForUpdate_busy w Hc). }
  destruct (o _ (Fetch HeadIndexHtml)) as [resp|e] eqn:Ho.
  - destruct (ok resp) eqn:Hok.
    + destruct (DetectorFacts.checkForUpdate_resolved w o Hs Hc resp Ho Hok)
        as (wf & -> & _ & _ & _ & Htr).
      apply DetectorFacts.notifications_fixed in Htr; [|reflexivity].
      simpl. rewrite Htr, Hu. case_match; apply app_nil_r.
    + destruct (DetectorFacts.checkForUpdate_not_ok w o Hs Hc resp Ho Hok)
        as (wf & -> & _ & _ & _ & Htr).
      simpl. rewrite Htr, DetectorFacts.notifications_app. apply app_nil_r.
  - destruct (DetectorFacts.checkForUpdate_rejected w o Hs Hc e Ho)
      as (wf & -> & _ & _ & _ & Htr).
    simpl. rewrite Htr, DetectorFacts.notifications_app. apply app_nil_r.
Qed.

(** X26. The pair [createVersionUpdateDetector] returns is wired: outside the
    development gate and with a fingerprint stored, a check that finds a
    changed header calls the one registered update callback once, with
    ['redeploy'], and that call is [notification.show('redeploy')]: the
    prompt is visible and offers the "later" button. *)
Theorem factory_redeploy_prompt dopts dev storage nopts nevs t0
    (o : Oracle) (resp : Response) :
  let p := createVersionUpdateDetector dopts dev storage nopts nevs t0 in
  let storedEtag := storage !! Detector.app_index_etag in
  let storedLastModified := storage !! Detector.app_index_last_modified in
  dev && Detector.skipInDevelopment dopts = false →
  o _ (Fetch HeadIndexHtml) = Normal resp → ok resp = true →
  truthy storedEtag = true ∨ truthy storedLastModified = true →
  Detector.differs (headers_get resp "etag") storedEtag
  ∨ Detector.differs (headers_get resp "last-modified") storedLastModified →
  ∃ df, run o (Detector.checkForUpdate (detector p)) = (df, Normal true)
    ∧ newCalls (detector p) df = [(0%nat, Detector.ReasonArg Detector.redeploy)]
    ∧ let n' := deliver (newCalls (detector p) df) (notification p) in
      n' = (Notification.show Detector.redeploy false (notification p)).1
      ∧ Notification.isVisible (Notification.this n') = true
      ∧ is_Some (Notification.rendered n' ≫= Notification.laterBtn).
Proof.
  intros p storedEtag storedLastModified Hdev Ho Hok Hst Hdiff.
  destruct (factory_fields dopts dev storage nopts nevs t0)
    as (Hu & _ & Hc & Hs & Hl & Hn). fold p in Hu, Hc, Hs, Hl, Hn.
  rewrite Hdev in Hs.
  destruct (DetectorFacts.checkForUpdate_resolved (detector p) o Hs Hc resp Ho Hok)
    as (df & Hrun & _ & _ & _ & Htr).
  apply DetectorFacts.notifications_fixed in Htr; [|reflexivity].
  rewrite Hl in Hrun, Htr. fold storedEtag storedLastModified in Hrun, Htr.
  assert (Detector.nothingStored storedEtag storedLastModified = false) as Hfirst.
  { unfold Detector.nothingStored.
    destruct Hst as [-> | ->]; [done | apply andb_false_r]. }
  apply DetectorFacts.hasUpdate_spec in Hdiff.
  rewrite Hfirst, Hdiff in Hrun, Htr. rewrite Hu in Htr. simpl in Hrun, Htr.
  exists df. split; [exact Hrun|].
  rewrite (newCalls_app _ _ _ Htr). split; [reflexivity|]. simpl.
  split; [reflexivity|]. rewrite Hn.
  destruct (construct_unsuppressed nopts nevs t0 Detector.redeploy) as [Hlive Hun].
  destruct (NotificationLifecycle.show_resets Detector.redeploy false _ Hlive Hun)
    as [Hv _].
  split; [exact Hv|].
  destruct (NotificationLifecycle.show_offers _ Detector.redeploy false Hlive Hun)
    as (c & -> & Hlater & _). simpl. rewrite Hlater. by eexists.
Qed.

Lemma factory_redeploy_prompt_witness :
  ∃ df, run (DetectorScenarios.serving (Some "b") (Some "t1"))
            (Detector.checkForUpdate (detector revisit)) = (df, Normal true)
    ∧ newCalls (detector revisit) df
      = [(0%nat, Detector.ReasonArg Detector.redeploy)]
    ∧ let n' := deliver (newCalls (detector revisit) df) (notification revisit) in
      n' = (Notification.show Detector.redeploy false (notification revisit)).1
      ∧ Notification.isVisible (Notification.this n') = true
      ∧ is_Some (Notification.rendered n' ≫= Notification.laterBtn).
Proof.
  apply (factory_redeploy_prompt DetectorScenarios.defaults false
           (DetectorScenarios.persistedFingerprint (Some "a") (Some "t1"))
           NotificationScenarios.quick NotificationScenarios.handlers 5000
           (DetectorScenarios.serving (Some "b") (Some "t1"))
           (mkResponse true
              (DetectorScenarios.fingerprint (Some "b") (Some "t1"))));
    try reflexivity.
  - left. reflexivity.
  - left. exists "b". done.
Defined.

(** X27. On the pair of the factory, a resource error whose check finds a
    changed header calls the update callback and then the resource-error
    callback; the prompt ends up visible in its forced form, without the
    "later" button and with the error banner. *)
Theorem factory_resource_error_forces_prompt dopts dev storage nopts nevs t0
    (o : Oracle) (element : option Detector.Element) (resp : Response) :
  let p := createVersionUpdateDetector dopts dev storage nopts nevs t0 in
  let storedEtag := storage !! Detector.app_index_etag in
  let storedLastModified := storage !! Detector.app_index_last_modified in
  dev && Detector.skipInDevelopment dopts = false →
  o _ (Delay 1000) = Normal tt →
  o _ (Fetch HeadIndexHtml) = Normal resp → ok resp = true →
  truthy storedEtag = true ∨ truthy storedLastModified = true →
  Detector.differs (headers_get resp "etag") storedEtag
  ∨ Detector.differs (headers_get resp "last-modified") storedLastModified →
  ∃ df, run o (Detector.handleResourceError element (detector p)) = (df, Normal tt)
    ∧ newCalls (detector p) df
      = [(0%nat, Detector.ReasonArg Detector.redeploy);
         (1%nat, Detector.ElementArg element)]
    ∧ let n' := deliver (newCalls (detector p) df) (notification p) in
      Notification.isVisible (Notification.this n') = true
      ∧ ∃ c, Notification.rendered n' = Some c
          ∧ Notification.laterBtn c = None
          ∧ is_Some (Notification.errorDetails c).
Proof.
  intros p storedEtag storedLastModified Hdev Hd Ho Hok Hst Hdiff.
  destruct (factory_fields dopts dev storage nopts nevs t0)
    as (Hu & Hr & Hc & Hs & Hl & Hn). fold p in Hu, Hr, Hc, Hs, Hl, Hn.
  rewrite Hdev in Hs. subst storedEtag storedLastModified.
  rewrite <- Hl in Hst, Hdiff.
  assert (Detector.nothingStored
            (Detector.localStorage (detector p) !! Detector.app_index_etag)
            (Detector.localStorage (detector p) !! Detector.app_index_last_modified)
          = false) as Hfirst.
  { unfold Detector.nothingStored.
    destruct Hst as [-> | ->]; [done | apply andb_false_r]. }
  apply DetectorFacts.hasUpdate_spec in Hdiff.
  destruct (DetectorLifecycle.handleResourceError_detects (detector p) o element
              resp Hs Hc Hd Ho Hok Hfirst Hdiff) as (df & Hrun & Hyes).
  rewrite Hu, Hr in Hyes. simpl in Hyes.
  exists df. split; [exact Hrun|].
  rewrite (newCalls_app _ _ _ Hyes). split; [reflexivity|]. simpl. rewrite Hn.
  destruct (construct_unsuppressed nopts nevs t0 Detector.redeploy) as [Hlive _].
  set (n1 := (Notification.show Detector.redeploy false _).1).
  assert (is_Some (Notification.container (Notification.this n1))) as Hlive1
    by (eapply NotificationLifecycle.footing_container;
        [apply NotificationFacts.show_footing | exact Hlive]).
  assert (NotificationViews.unsuppressed Detector.resource_error n1) as Hun
    by by left.
  destruct (NotificationLifecycle.show_resets Detector.resource_error true n1
              Hlive1 Hun) as [Hv _].
  split; [exact Hv|].
  destruct (NotificationLifecycle.show_offers n1 Detector.resource_error true
              Hlive1 Hun) as (c & Hc' & Hlater & He).
  exists c. split; [exact Hc'|]. split; [exact Hlater|].
  rewrite He. by eexists.
Qed.

Lemma factory_resource_error_forces_prompt_witness :
  ∃ df, run (DetectorScenarios.serving (Some "b") (Some "t1"))
            (Detector.handleResourceError (Some "script") (detector revisit))
        = (df, Normal tt)
    ∧ newCalls (detector revisit) df
      = [(0%nat, Detector.ReasonArg Detector.redeploy);
         (1%nat, Detector.ElementArg (Some "script"))]
    ∧ let n' := deliver (newCalls (detector revisit) df) (notification revisit) in
      Notification.isVisible (Notification.this n') = true
      ∧ ∃ c, Notification.rendered n' = Some c
          ∧ Notification.laterBtn c = None
          ∧ is_Some (Notification.errorDetails c).
Proof.
  apply (factory_resource_error_forces_prompt DetectorScenarios.defaults false
           (DetectorScenarios.persistedFingerprint (Some "a") (Some "t1"))
           NotificationScenarios.quick NotificationScenarios.handlers 5000
           (DetectorScenarios.serving (Some "b") (Some "t1")) (Some "script")
           (mkResponse true
              (DetectorScenarios.fingerprint (Some "b") (Some "t1"))));
    try reflexivity.
  - left. reflexivity.
  - left. exists "b". done.
Defined.

(** X28. [destroy] of the pair, on a prompt whose overlay is in place:
    it returns, and so does a second call, which changes nothing; the timer
    field is null and the dialog is dropped; the detector's listeners stay
    installed, but a check they start reaches no callback. *)
Theorem factory_destroy (p : Pair) :
  Notification.attached (notification p) →
  ∃ p', destroy p = (p', Normal tt)
    ∧ destroy p' = (p', Normal tt)
    ∧ Detector.timer (Detector.this (detector p')) = None
    ∧ Detector.listeners (detector p') = Detector.listeners (detector p)
    ∧ Notification.container (Notification.this (notification p')) = None
    ∧ ∀ o, newCalls (detector p')
             (run o (Detector.checkForUpdate (detector p'))).1 = [].
Proof.
  intros Ha. unfold destroy.
  destruct (DetectorFacts.detector_destroy_twice (detector p))
    as (d1 & Hd & Hd2 & Ht & _ & Hu & _).
  destruct (NotificationFacts.notification_destroy_twice (notification p) Ha)
    as (n1 & Hn & Hc & Hn2).
  rewrite Hd, Hn. eexists. split; [reflexivity|]. simpl.
  rewrite Hd2, Hn2. split_and!; try done.
  - revert Hd. unfold Detector.destroy, Detector.stopVersionCheck,
      Detector.clearInterval, Detector.emit. unmonad.
    destruct (Detector.timer (Detector.this (detector p))); simpl;
      by intros [= <-].
  - intros o. apply newCalls_app. rewrite app_nil_r.
    by apply unregistered_is_quiet.
Qed.

Lemma factory_destroy_witness :
  ∃ p', destroy revisit = (p', Normal tt)
    ∧ destroy p' = (p', Normal tt)
    ∧ Detector.timer (Detector.this (detector p')) = None
    ∧ Detector.listeners (detector p') = Detector.listeners (detector revisit)
    ∧ Notification.container (Notification.this (notification p')) = None
    ∧ ∀ o, newCalls (detector p')
             (run o (Detector.checkForUpdate (detector p'))).1 = [].
Proof. apply (factory_destroy revisit). reflexivity. Defined.

End FactoryFacts.
